(** * fft_benchmark: the timing harness of [perf.py]

    A shallow embedding of [get_timer] and [time_func] from [perf.py],
    together with the binary64 arithmetic that the adaptive batch-size
    calibration of [time_func] performs on the warm-up latency; and of
    what surrounds the harness: [set_threads] of [perf.py], the shape
    argument of [fft_bench.py], the plan cache of [mod_pyfftw.py] and the
    choice of the device in [mod_pyvkfft.py]. *)

From Stdlib Require Import ZArith Lia Bool List Ascii String.
From Stdlib Require Import DecimalString DecimalPos.
From Stdlib Require Import Floats.SpecFloat.
From stdpp Require Import gmap strings list.

(** ** Python's [float]: IEEE 754 binary64

    The operations are those of [SpecFloat] at precision 53 and maximal
    exponent 1024, rounding to nearest, ties to even. *)
Module F64.
Local Open Scope Z_scope.

Definition prec : Z := 53.
Definition emax : Z := 1024.

Definition mul : spec_float -> spec_float -> spec_float := SFmul prec emax.
Definition div : spec_float -> spec_float -> spec_float := SFdiv prec emax.
Definition add : spec_float -> spec_float -> spec_float := SFadd prec emax.
Definition sub : spec_float -> spec_float -> spec_float := SFsub prec emax.
Definition ltb : spec_float -> spec_float -> bool := SFltb.
Definition leb : spec_float -> spec_float -> bool := SFleb.

(** The correctly rounded binary64 value of an integer. *)
Definition of_Z (z : Z) : spec_float := binary_normalize prec emax z 0 false.

Definition zero : spec_float := S754_zero false.
Definition five : spec_float := Eval cbv in of_Z 5.

(** Truncation toward zero of a finite value. *)
Definition trunc (x : spec_float) : option Z :=
  match x with
  | S754_zero _ => Some 0
  | S754_finite s m e =>
      let a := match e with
               | Zneg p => Z.shiftr (Zpos m) (Zpos p)
               | _ => Z.shiftl (Zpos m) e
               end in
      Some (if s then - a else a)
  | S754_infinity _ | S754_nan => None
  end.

(** The floor of a finite value, for comparison with [trunc]. *)
Definition floor (x : spec_float) : option Z :=
  match x with
  | S754_zero _ => Some 0
  | S754_finite s m e =>
      Some (match e with
            | Zneg p => (if s then Zneg m else Zpos m) / 2 ^ Zpos p
            | _ => (if s then Zneg m else Zpos m) * 2 ^ e
            end)
  | S754_infinity _ | S754_nan => None
  end.

Definition is_zero (x : spec_float) : bool :=
  match x with S754_zero _ => true | _ => false end.

(** [x >= 0]: the comparison [0.0 <= x], false on NaN. *)
Definition nonneg (x : spec_float) : bool := leb zero x.

(** [x > 0]. *)
Definition pos (x : spec_float) : bool := ltb zero x.

End F64.

Abbreviation fexp64 := (fexp F64.prec F64.emax).
Abbreviation emin64 := (emin F64.prec F64.emax).

(** ** Exceptions *)

Inductive builtin_exn : Type :=
  | ValueError
  | OverflowError
  | ZeroDivisionError
  | UnboundLocalError
  | KeyError
  | IndexError
  | MemoryError.

(** ** Python's mixed [int]/[float] arithmetic, as used by [time_func] *)
Module PyNum.
Local Open Scope Z_scope.

Definition res (X : Type) : Type := builtin_exn + X.

Definition bind {X Y} (c : res X) (k : X -> res Y) : res Y :=
  match c with
  | inl e => inl e
  | inr x => k x
  end.

(** [float(n)] for an [int] operand of a float operation: correctly
    rounded, [OverflowError] when [n] is too large for a float. *)
Definition float_of_int (n : Z) : res spec_float :=
  match F64.of_Z n with
  | S754_infinity _ => inl OverflowError
  | f => inr f
  end.

(** [t * n] with [t] a float and [n] an int. *)
Definition mul_float_int (t : spec_float) (n : Z) : res spec_float :=
  bind (float_of_int n) (fun f => inr (F64.mul t f)).

(** [n / t] with [n] an int and [t] a float. *)
Definition div_int_float (n : Z) (t : spec_float) : res spec_float :=
  bind (float_of_int n) (fun f =>
    if F64.is_zero t then inl ZeroDivisionError else inr (F64.div f t)).

(** [t / n] with [t] a float and [n] an int. *)
Definition div_float_int (t : spec_float) (n : Z) : res spec_float :=
  bind (float_of_int n) (fun f =>
    if F64.is_zero f then inl ZeroDivisionError else inr (F64.div t f)).

(** [int(x)] of a float. *)
Definition int_of_float (x : spec_float) : res Z :=
  match x with
  | S754_nan => inl ValueError
  | S754_infinity _ => inl OverflowError
  | _ => match F64.trunc x with Some z => inr z | None => inl ValueError end
  end.

(** [x > 5]: Python compares a float with an int exactly, and 5 is a
    binary64 value. *)
Definition gt_five (x : spec_float) : bool := F64.ltb F64.five x.

End PyNum.

(** ** The adaptive batch size ([perf.py], lines 165-168)

<<
    actual_batch_size = batch_size
    if time_tot * batch_size > 5:
        actual_batch_size = 1 + int(5/time_tot)
>> *)
Definition calibrate (time_tot : spec_float) (batch_size : Z) : PyNum.res Z :=
  PyNum.bind (PyNum.mul_float_int time_tot batch_size) (fun p =>
    if PyNum.gt_five p then
      PyNum.bind (PyNum.div_int_float 5 time_tot) (fun q =>
        PyNum.bind (PyNum.int_of_float q) (fun k => inr (1 + k)%Z))
    else inr batch_size).

(** The float 0.5. *)
Definition half : spec_float := S754_finite false 4503599627370496 (-53).

(** ** The host: what the harness is run on

    Arrays hold elements of type [elem]; [env] is the state of everything
    outside the harness (the clocks, the state of the timed function);
    [import_module] says which modules [importlib.import_module] finds,
    [can_allocate n] whether the host has the memory for a new array of [n]
    bytes, and the remaining fields are the clock functions of the modules
    that [get_timer] knows. *)
Class Host : Type := {
  elem : Type;
  kwargs_t : Type;
  result : Type;
  exc : Type;
  env : Type;
  timepoint : Type;
  pymodule : Type;
  junk : elem;
  junk_time : spec_float;
  import_module : string -> option pymodule;
  can_allocate : Z -> bool;
  itime : pymodule -> env -> timepoint * env;
  itime_delta_in_seconds : pymodule -> timepoint -> timepoint -> spec_float;
  default_timer : pymodule -> env -> timepoint * env;
  time_time : pymodule -> env -> timepoint * env;
  timepoint_sub : timepoint -> timepoint -> spec_float
}.

Definition loc : Type := positive.

Section Model.
Context `{H : Host}.

(** Python values that can be passed for [x] and [kwargs]. *)
Inductive pyval : Type :=
  | Ndarray (l : loc)
  | Dict (kw : kwargs_t)
  | OtherObject.

Inductive exn : Type :=
  | Builtin (b : builtin_exn)
  | Raised (e : exc).

(** What the harness does to the world, in order (ghost state). *)
Inductive event : Type :=
  | EvAlloc (l : loc)
  | EvCopy (dst src : loc)
  | EvCall (arg : loc) (seen : list elem) (out : exc + result)
  | EvNow (t : timepoint)
  | EvGcCollect
  | EvGcDisable
  | EvGcEnable
  | EvPrint.

Record world : Type := World {
  heap : gmap loc (list elem);
  gc_enabled : bool;
  host_env : env;
  log : list event
}.

(** [Timer = collections.namedtuple('Timer', ('name', 'module', 'now',
    'time_delta'))] *)
Record Timer : Type := mkTimer {
  name : string;
  module : pymodule;
  now : env -> timepoint * env;
  time_delta : timepoint -> timepoint -> spec_float
}.

(** A timed function [func(buf, **kwargs)]: it sees the contents of the
    array it is given, may overwrite them, may change the host state, and
    returns a result or raises. *)
Definition pyfunc : Type :=
  list elem -> kwargs_t -> env -> (exc + result) * list elem * env.

(** *** [get_timer] ([perf.py], lines 16-60) *)

(** The [for ... try ... except ImportError: pass ... else: ... break]
    loop; [None] when it ends with [timer_name] unbound. *)
Fixpoint get_timer_loop (time_modules : list string)
  : option (string * pymodule) :=
  match time_modules with
  | [] => None
  | mod_name :: rest =>
      match import_module mod_name with
      | None => get_timer_loop rest
      | Some timer_module => Some (mod_name, timer_module)
      end
  end.

(** Subscript of a dict literal with string keys. *)
Fixpoint dict_getitem {V} (d : list (string * V)) (k : string)
  : PyNum.res V :=
  match d with
  | [] => inl KeyError
  | (k', v) :: d' => if String.eqb k' k then inr v else dict_getitem d' k
  end.

Definition get_timer (time_modules : list string) : PyNum.res Timer :=
  match get_timer_loop time_modules with
  | None => inl UnboundLocalError
  | Some (timer_name, timer_module) =>
      PyNum.bind
        (dict_getitem
           [("itimer"%string, itime timer_module);
            ("timeit"%string, default_timer timer_module);
            ("time"%string, time_time timer_module)] timer_name)
        (fun now_ =>
      PyNum.bind
        (dict_getitem
           [("itimer"%string,
             fun t0 t1 => itime_delta_in_seconds timer_module t0 t1);
            ("timeit"%string, fun t0 t1 => timepoint_sub t1 t0);
            ("time"%string, fun t0 t1 => timepoint_sub t1 t0)] timer_name)
        (fun time_delta_ =>
      inr (mkTimer timer_name timer_module now_ time_delta_)))
  end.

Definition default_time_modules : list string :=
  ["itimer"%string; "timeit"%string; "time"%string].

(** *** The state-and-exception monad of the harness *)

Definition M (X : Type) : Type := world -> (exn + X) * world.

#[export] Instance M_ret : MRet M := fun X x w => (inr x, w).

#[export] Instance M_bind : MBind M := fun X Y k c w =>
  match c w with
  | (inl e, w') => (inl e, w')
  | (inr x, w') => k x w'
  end.

Definition raise {X} (b : builtin_exn) : M X := fun w => (inl (Builtin b), w).

Definition lift {X} (r : PyNum.res X) : M X :=
  match r with
  | inl b => raise b
  | inr x => mret x
  end.

(** Whether a run returned, rather than raised. *)
Definition returned {X} (r : (exn + X) * world) : bool :=
  match r.1 with
  | inr _ => true
  | inl _ => false
  end.

Definition emit (ev : event) (w : world) : world :=
  World (heap w) (gc_enabled w) (host_env w) (log w ++ [ev]).

Definition read (l : loc) (w : world) : list elem := default [] (heap w !! l).

(** [np.empty((n,), dtype=np.float64)] on a 64-bit platform: numpy refuses
    a negative length, and a length of 2^60 or more, for which the size of
    the array in bytes, [8 * n], is beyond the largest [intp]; neither
    allocates. A length that is accepted needs [8 * n] bytes from the
    host. *)
Definition np_empty (n : Z) : M (list spec_float) :=
  if (n <? 0)%Z then raise ValueError
  else if (2 ^ 60 <=? n)%Z then raise ValueError
  else if can_allocate (8 * n) then mret (replicate (Z.to_nat n) junk_time)
  else raise MemoryError.

(** [np.empty_like(x)]: a new array, of the shape of [x]. *)
Definition np_empty_like (x : loc) : M loc := fun w =>
  let b := fresh (dom (heap w)) in
  (inr b,
   emit (EvAlloc b)
     (World (<[b := (fun _ => junk) <$> read x w]> (heap w))
            (gc_enabled w) (host_env w) (log w))).

(** [np.copyto(dst, src)] for arrays of one shape; it raises otherwise. *)
Definition np_copyto (dst src : loc) : M unit := fun w =>
  if Nat.eqb (length (read dst w)) (length (read src w)) then
    (inr tt,
     emit (EvCopy dst src)
       (World (<[dst := read src w]> (heap w))
              (gc_enabled w) (host_env w) (log w)))
  else (inl (Builtin ValueError), w).

Definition gc_collect : M unit := fun w => (inr tt, emit EvGcCollect w).

Definition gc_disable : M unit := fun w =>
  (inr tt, emit EvGcDisable (World (heap w) false (host_env w) (log w))).

Definition gc_enable : M unit := fun w =>
  (inr tt, emit EvGcEnable (World (heap w) true (host_env w) (log w))).

Definition print : M unit := fun w => (inr tt, emit EvPrint w).

(** [timer.now()] *)
Definition timer_now (timer : Timer) : M timepoint := fun w =>
  let '(t, s) := now timer (host_env w) in
  (inr t, emit (EvNow t) (World (heap w) (gc_enabled w) s (log w))).

(** [func(buf, **kwargs)] *)
Definition call (func : pyfunc) (buf : loc) (kw : kwargs_t) : M result :=
  fun w =>
  let seen := read buf w in
  let '(out, after, s) := func seen kw (host_env w) in
  let w' := emit (EvCall buf seen out)
              (World (<[buf := after]> (heap w)) (gc_enabled w) s (log w)) in
  match out with
  | inl e => (inl (Raised e), w')
  | inr r => (inr r, w')
  end.

(** [times_list[i] = v] *)
Definition setitem (times_list : list spec_float) (i : nat) (v : spec_float)
  : M (list spec_float) :=
  if Nat.ltb i (length times_list) then mret (<[i := v]> times_list)
  else raise IndexError.

(** [for i in range(n): acc = body(i, acc)], counting [i] up from [i0]. *)
Fixpoint for_range {X} (n i0 : nat) (body : nat -> X -> M X) (acc : X)
  : M X :=
  match n with
  | O => mret acc
  | S n' => acc' ← body i0 acc; for_range n' (S i0) body acc'
  end.

(** *** [time_func] ([perf.py], lines 131-194) *)

(** One pass of the inner loop with [refresh_buffer] set (lines 180-184). *)
Definition refresh_step (func : pyfunc) (timer : Timer) (buf x : loc)
    (kw : kwargs_t) (st : spec_float * result) : M (spec_float * result) :=
  np_copyto buf x;;
  t0 ← timer_now timer;
  res ← call func buf kw;
  t1 ← timer_now timer;
  mret (F64.add (fst st) (time_delta timer t0 t1), res).

(** The body of the measurement loop up to the batch's total time
    (lines 177-190); [time_tot = 0] is the float zero, which is what the
    int 0 becomes in the first addition and in the division. *)
Definition batch (func : pyfunc) (timer : Timer) (buf x : loc)
    (kw : kwargs_t) (refresh_buffer : bool) (actual_batch_size : Z)
    (res : result) : M (spec_float * result) :=
  let time_tot := F64.zero in
  if refresh_buffer then
    for_range (Z.to_nat actual_batch_size) 0
      (fun _ st => refresh_step func timer buf x kw st) (time_tot, res)
  else
    t0 ← timer_now timer;
    res ← for_range (Z.to_nat actual_batch_size) 0
             (fun _ _ => call func buf kw) res;
    t1 ← timer_now timer;
    mret (F64.add time_tot (time_delta timer t0 t1), res).

(** One repetition (lines 177-192). *)
Definition repetition (func : pyfunc) (timer : Timer) (buf x : loc)
    (kw : kwargs_t) (refresh_buffer : bool) (actual_batch_size : Z)
    (i : nat) (st : list spec_float * result)
  : M (list spec_float * result) :=
  '(time_tot, res) ← batch func timer buf x kw refresh_buffer
                        actual_batch_size (snd st);
  v ← lift (PyNum.div_float_int time_tot actual_batch_size);
  times_list ← setitem (fst st) i v;
  mret (times_list, res).

(** The timed region (lines 157-194): warm-up, choice of the batch size,
    the measurement loop. *)
Definition measure (func : pyfunc) (timer : Timer) (buf x : loc)
    (kw : kwargs_t) (batch_size repetitions : Z)
    (refresh_buffer verbose : bool) (times_list : list spec_float)
  : M (list spec_float * result) :=
  gc_collect;;
  gc_disable;;
  t0 ← timer_now timer;
  res ← call func buf kw;
  t1 ← timer_now timer;
  let time_tot := time_delta timer t0 t1 in
  actual_batch_size ← lift (calibrate time_tot batch_size);
  (if verbose then print else mret tt);;
  st ← for_range (Z.to_nat repetitions) 0
         (repetition func timer buf x kw refresh_buffer actual_batch_size)
         (times_list, res);
  gc_enable;;
  mret st.

Definition is_ndarray (v : pyval) : bool :=
  match v with Ndarray _ => true | _ => false end.

Definition is_dict (v : pyval) : bool :=
  match v with Dict _ => true | _ => false end.

Definition time_func (func : pyfunc) (x kwargs : pyval)
    (timer : option Timer) (batch_size repetitions : Z)
    (refresh_buffer verbose : bool) : M (list spec_float * result) :=
  xl ← match x with
       | Ndarray l => mret l
       | _ => raise ValueError
       end;
  kw ← match kwargs with
       | Dict kw => mret kw
       | _ => raise ValueError
       end;
  timer ← match timer with
          | Some t => mret t
          | None =>
              t ← lift (get_timer default_time_modules);
              (if verbose then print else mret tt);;
              mret t
          end;
  times_list ← np_empty repetitions;
  buf ← np_empty_like xl;
  np_copyto buf xl;;
  measure func timer buf xl kw batch_size repetitions refresh_buffer verbose
    times_list.

(** *** Vocabulary for statements about a run *)

Definition is_call (ev : event) : bool :=
  match ev with EvCall _ _ _ => true | _ => false end.

Definition is_copy (ev : event) : bool :=
  match ev with EvCopy _ _ => true | _ => false end.

Definition count_calls (l : list event) : nat :=
  length (List.filter is_call l).

Definition count_copies (l : list event) : nat :=
  length (List.filter is_copy l).

(** The clock samples of a log, in order. *)
Definition nows (l : list event) : list timepoint :=
  omap (fun ev => match ev with EvNow t => Some t | _ => None end) l.

(** The outcome of the last call in a log. *)
Definition last_call (l : list event) : option (exc + result) :=
  last (omap (fun ev => match ev with
                        | EvCall _ _ out => Some out
                        | _ => None
                        end) l).

(** [time_delta t0 t1] is non-negative whenever [t0] was sampled before
    [t1]. *)
Fixpoint in_order_nonneg (timer : Timer) (ts : list timepoint) : bool :=
  match ts with
  | [] => true
  | t0 :: rest =>
      forallb (fun t1 => F64.nonneg (time_delta timer t0 t1)) rest
      && in_order_nonneg timer rest
  end.

(** The timer that [time_func] uses: the one it is given, or the one
    [get_timer()] finds. *)
Definition timer_resolves (timer : option Timer) (tm : Timer) : Prop :=
  match timer with
  | Some t => t = tm
  | None => get_timer default_time_modules = inr tm
  end.

(** What is printed before the buffer is allocated. *)
Definition prelude_prints (timer : option Timer) (verbose : bool)
  : list event :=
  match timer with
  | None => if verbose then [EvPrint] else []
  | Some _ => []
  end.

(** A function that always returns, and leaves the shape of its argument
    alone. *)
Definition func_total (func : pyfunc) : Prop :=
  forall seen kw s, exists r after s',
    func seen kw s = (inr r, after, s') /\ length after = length seen.

(** What the harness, as opposed to the timed function, may do to the
    arrays: it passes [buf] to the function and copies [x] into [buf]. *)
Definition harness_event (buf x : loc) (ev : event) : Prop :=
  match ev with
  | EvCall arg _ _ => arg = buf
  | EvCopy dst src => dst = buf /\ src = x
  | EvAlloc l => l = buf
  | _ => True
  end.

(** The function saw the contents [xs]. *)
Definition saw (xs : list elem) (ev : event) : Prop :=
  match ev with
  | EvCall _ seen _ => seen = xs
  | _ => True
  end.

(** One bracketed batch of the loop without refresh: a clock sample, the
    calls, a clock sample. *)
Definition bracket_events (b : timepoint * list event * timepoint)
  : list event :=
  EvNow b.1.1 :: b.1.2 ++ [EvNow b.2].

(** *** Vocabulary for the proofs *)

(** The log of [w'] is the log of [w] followed by events in [G]. *)
Definition extends_by (G : event -> Prop) (w w' : world) : Prop :=
  exists new, log w' = log w ++ new /\ Forall G new.

(** The events of the timed region. *)
Definition allowed (buf x : loc) (xs : list elem) (refresh_buffer : bool)
    (ev : event) : Prop :=
  match ev with
  | EvCall arg seen _ => arg = buf /\ (refresh_buffer = true -> seen = xs)
  | EvCopy dst src => dst = buf /\ src = x /\ refresh_buffer = true
  | EvAlloc _ => False
  | _ => True
  end.

(** [x] still holds [xs], and since [w0] only allowed events happened. *)
Definition keeps (buf x : loc) (xs : list elem) (refresh_buffer : bool)
    (w0 w : world) : Prop :=
  heap w !! x = Some xs /\ extends_by (allowed buf x xs refresh_buffer) w0 w.

(** What one step leaves in the log, for counting. *)
Definition counted (n : nat) (res : result) (w w' : world) : Prop :=
  count_calls (log w') = count_calls (log w) + n /\
  last_call (log w') = Some (inr res) /\
  log w `prefix_of` log w'.

(** [x] holds [xs] and [buf] holds an array of the same shape. *)
Definition shaped (buf x : loc) (xs : list elem) (w : world) : Prop :=
  heap w !! x = Some xs /\
  exists c, heap w !! buf = Some c /\ length c = length xs.

(** [P] holds provided the clock behaved on the samples taken since the
    log was [l0]. *)
Definition guarded (tm : Timer) (l0 : list event) (P : Prop) (w : world)
  : Prop :=
  exists new, log w = l0 ++ new /\
              (in_order_nonneg tm (nows new) = true -> P).

Definition nonneg_upto (i : nat) (times : list spec_float) : Prop :=
  forall j v, j < i -> times !! j = Some v -> F64.nonneg v = true.

(** A bracket around [n] calls and nothing else. *)
Definition bracket_of (n : nat) (b : timepoint * list event * timepoint)
  : Prop :=
  Forall (fun ev => is_call ev = true) b.1.2 /\ length b.1.2 = n.

(** The measurement [v] is the bracketed interval divided by the batch
    size. *)
Definition measured (tm : Timer) (actual : Z)
    (b : timepoint * list event * timepoint) (v : spec_float) : Prop :=
  PyNum.div_float_int (F64.add F64.zero (time_delta tm b.1.1 b.2)) actual
  = inr v.

End Model.

(** ** A concrete host, for running the harness

    Arrays of integers; the host state is a clock counting whole seconds;
    only the module [time] can be imported, and its time points are
    floats; there is memory for arrays of up to 4 GiB. *)
Module Demo.

#[export] Instance host : Host := {|
  elem := Z;
  kwargs_t := unit;
  result := list Z;
  exc := string;
  env := Z;
  timepoint := spec_float;
  pymodule := unit;
  junk := 0%Z;
  junk_time := S754_nan;
  import_module := fun m => if String.eqb m "time" then Some tt else None;
  can_allocate := fun n => (n <=? 2 ^ 32)%Z;
  itime := fun _ s => (F64.of_Z s, s);
  itime_delta_in_seconds := fun _ t0 t1 => F64.sub t1 t0;
  default_timer := fun _ s => (F64.of_Z s, s);
  time_time := fun _ s => (F64.of_Z s, s);
  timepoint_sub := F64.sub
|}.

(** The timer that [get_timer] builds from the module [time]. *)
Definition clock : Timer :=
  mkTimer "time" tt (time_time tt) (fun t0 t1 => timepoint_sub t1 t0).

(** Returns its argument's contents and leaves the array alone; takes no
    measurable time. *)
Definition identity : pyfunc := fun seen _ s => (inr seen, seen, s).

(** Negates the array in place; takes two seconds. *)
Definition negate : pyfunc := fun seen _ s =>
  (inr (Z.opp <$> seen), Z.opp <$> seen, (s + 2)%Z).

(** Leaves the array alone; takes one tick of the host's clock. *)
Definition tick : pyfunc := fun seen _ s => (inr seen, seen, (s + 1)%Z).

(** A timer of the caller's that reads the host's clock in half seconds. *)
Definition half_clock : Timer :=
  mkTimer "half_seconds" tt (fun s => (F64.mul half (F64.of_Z s), s))
    (fun t0 t1 => F64.sub t1 t0).

(** Raises on every call. *)
Definition failing : pyfunc := fun seen _ s =>
  (inl "domain error"%string, seen, s).

Definition x_loc : loc := 1%positive.

(** What the input array holds. *)
Definition xs : list (@elem host) := [3; 1; 4]%Z.

(** The arguments [x] and [kwargs] of the runs below. *)
Definition x : pyval := Ndarray x_loc.

Definition kwargs : pyval := Dict (H := host) tt.

Definition start : world :=
  World {[ x_loc := xs ]} true 0%Z [].

(** As [start], with garbage collection switched off by the caller. *)
Definition start_gc_off : world :=
  World {[ x_loc := xs ]} false 0%Z [].

End Demo.

(** ** Further vocabulary for runs of [time_func] *)

Section Region.
Context `{H : Host}.

(** A call that returned, or an event that is no call. *)
Definition call_returned (ev : event) : Prop :=
  match ev with
  | EvCall _ _ (inl _) => False
  | _ => True
  end.

(** [gc.disable()] or [gc.enable()]. *)
Definition is_gc_switch (ev : event) : bool :=
  match ev with
  | EvGcDisable | EvGcEnable => true
  | _ => false
  end.

(** What happens between [gc.disable()] and the end of the timed region
    while no call fails: clock samples, copies, calls that return,
    printing. *)
Definition quiet (ev : event) : Prop :=
  match ev with
  | EvGcCollect | EvGcDisable | EvGcEnable | EvAlloc _ => False
  | EvCall _ _ (inl _) => False
  | _ => True
  end.

(** The world [w] is inside the timed region that was entered with the log
    [l0]: the collector is off, and since it was switched off only quiet
    events [mid] happened. *)
Definition in_region (l0 mid : list event) (w : world) : Prop :=
  log w = l0 ++ [EvGcCollect; EvGcDisable] ++ mid /\
  Forall quiet mid /\
  gc_enabled w = false.

(** The timed function always returns when it is given the contents [xs]. *)
Definition returns_on (func : pyfunc) (xs : list elem) (kw : kwargs_t)
  : Prop :=
  forall s, exists r after s', func xs kw s = (inr r, after, s').

(** Copies and calls pair up when the buffer is refreshed: every call has
    its own copy, the warm-up call the one made before the region; [k]
    calls are still to be logged. *)
Definition paired (refresh_buffer : bool) (mid : list event) (k : nat)
  : Prop :=
  refresh_buffer = true -> count_copies mid + 1 = count_calls mid + k.

(** Inside the region, between two steps. *)
Definition region_ok (refresh_buffer : bool) (l0 : list event) (w : world)
  : Prop :=
  exists mid, in_region l0 mid w /\ paired refresh_buffer mid 0.

(** Inside the region, where a call of the timed function raised [e]. *)
Definition region_raised (refresh_buffer : bool) (l0 : list event) (e : exc)
    (w : world) : Prop :=
  exists mid arg seen,
    log w = l0 ++ [EvGcCollect; EvGcDisable] ++ mid
               ++ [EvCall arg seen (inl e)] /\
    Forall quiet mid /\ gc_enabled w = false /\ paired refresh_buffer mid 1.

(** How a step of the region ends. *)
Definition region_exit {X} (refresh_buffer : bool) (l0 : list event)
    (r : (exn + X) * world) : Prop :=
  match r.1 with
  | inl (Raised e) => region_raised refresh_buffer l0 e r.2
  | _ => region_ok refresh_buffer l0 r.2
  end.

(** How the whole region ends. *)
Definition measure_exit {X} (refresh_buffer : bool) (l0 : list event)
    (r : (exn + X) * world) : Prop :=
  match r.1 with
  | inr _ =>
      exists mid,
        log r.2 = l0 ++ [EvGcCollect; EvGcDisable] ++ mid ++ [EvGcEnable] /\
        Forall quiet mid /\ gc_enabled r.2 = true /\
        paired refresh_buffer mid 0
  | inl (Raised e) => region_raised refresh_buffer l0 e r.2
  | inl (Builtin _) => region_ok refresh_buffer l0 r.2
  end.

(** One refreshed call (lines 180-184): the copy, then the call between
    two clock samples. *)
Definition refreshed_call (buf x : loc) (c : timepoint * event * timepoint)
  : list event :=
  [EvCopy buf x; EvNow c.1.1; c.1.2; EvNow c.2].

(** The events of a batch of refreshed calls. *)
Definition refreshed_batch (buf x : loc)
    (cs : list (timepoint * event * timepoint)) : list event :=
  concat (refreshed_call buf x <$> cs).

(** [time_tot] after a batch of refreshed calls: the intervals of the
    calls, added up from zero in order. *)
Definition accumulated (tm : Timer)
    (cs : list (timepoint * event * timepoint)) : spec_float :=
  fold_left (fun acc c => F64.add acc (time_delta tm c.1.1 c.2)) cs F64.zero.

(** A batch of [n] refreshed calls. *)
Definition batch_of (n : nat) (cs : list (timepoint * event * timepoint))
  : Prop :=
  length cs = n /\ Forall (fun c => is_call c.1.2 = true) cs.

(** The measurement [v] is the accumulated time of the batch divided by
    the batch size. *)
Definition accumulated_measure (tm : Timer) (actual : Z)
    (cs : list (timepoint * event * timepoint)) (v : spec_float) : Prop :=
  PyNum.div_float_int (accumulated tm cs) actual = inr v.

(** Every array but [buf] is in [w'] what it was in [w]. *)
Definition frame (buf : loc) (w w' : world) : Prop :=
  forall l, l <> buf -> heap w' !! l = heap w !! l.

End Region.

(** ** The command line of [fft_bench.py]

    A Python [str] is modelled as a list of characters with code points
    below 256; among these [\d] matches exactly [0] to [9]. *)
Module FftBench.

(** What a [type=] function of [argparse] may raise. *)
Inductive arg_exn : Type :=
  | Py (b : builtin_exn)
  | ArgumentTypeError.

(** [\d] *)
Definition is_digit (c : ascii) : bool :=
  match c with
  | "0" | "1" | "2" | "3" | "4" | "5" | "6" | "7" | "8" | "9" => true
  | _ => false
  end%char.

(** [re.sub(r'[^\d]+', 'x', s)]: every maximal run of non-digits becomes
    one [x]; [in_run] says that the run the scan is in has been replaced
    already. *)
Fixpoint sub_nondigits (in_run : bool) (s : list ascii) : list ascii :=
  match s with
  | [] => []
  | c :: s' =>
      if is_digit c then c :: sub_nondigits false s'
      else if in_run then sub_nondigits true s'
      else "x"%char :: sub_nondigits true s'
  end.

(** [s.lstrip(c)] for one character [c]. *)
Fixpoint lstrip (c : ascii) (s : list ascii) : list ascii :=
  match s with
  | [] => []
  | a :: s' => if Ascii.eqb a c then lstrip c s' else s
  end.

(** [s.strip(c)] *)
Definition strip (c : ascii) (s : list ascii) : list ascii :=
  rev (lstrip c (rev (lstrip c s))).

(** [s.split(c)]: the pieces between the occurrences of [c]; one empty
    piece for the empty string. *)
Fixpoint split (c : ascii) (s : list ascii) : list (list ascii) :=
  match s with
  | [] => [[]]
  | a :: s' =>
      if Ascii.eqb a c then [] :: split c s'
      else match split c s' with
           | piece :: pieces => (a :: piece) :: pieces
           | [] => [[a]]
           end
  end.

(** The interpreter's limit on the length of a string passed to [int]:
    [max_str_digits] is 4300 unless changed, and 0 switches the limit
    off. *)
Definition too_long (max_str_digits : nat) (s : list ascii) : bool :=
  (0 <? max_str_digits) && (max_str_digits <? length s).

(** [int(s)] for the strings that [valid_shape] passes, which hold decimal
    digits only: the empty string and a string that is too long are
    refused. *)
Definition int_of_digits (max_str_digits : nat) (s : list ascii)
  : PyNum.res Z :=
  match s with
  | [] => inl ValueError
  | _ =>
      match NilEmpty.uint_of_string (string_of_list_ascii s) with
      | None => inl ValueError
      | Some d =>
          if too_long max_str_digits s then inl ValueError
          else inr (Z.of_uint d)
      end
  end.

(** [tuple(f(i) for i in l)]: the first failure ends it. *)
Fixpoint tuple_of {A B} (f : A -> PyNum.res B) (l : list A)
  : PyNum.res (list B) :=
  match l with
  | [] => inr []
  | a :: l' =>
      PyNum.bind (f a) (fun b =>
      PyNum.bind (tuple_of f l') (fun bs => inr (b :: bs)))
  end.

(** [valid_shape] ([fft_bench.py], lines 29-36) *)
Definition valid_shape (max_str_digits : nat) (shape_str : string)
  : arg_exn + list Z :=
  let shape :=
    split "x" (strip "x" (sub_nondigits false
                            (list_ascii_of_string shape_str))) in
  match tuple_of (int_of_digits max_str_digits) shape with
  | inl b => inl (Py b)
  | inr shape =>
      if (Z.of_nat (length shape) <? 0)%Z
         || existsb (fun i => (i <? 1)%Z) shape
      then inl ArgumentTypeError
      else inr shape
  end.

(** [str(i)] of an [int], for an [i] that is not too long to be
    printed. *)
Definition str (i : Z) : list ascii :=
  list_ascii_of_string (NilZero.string_of_int (Z.to_int i)).

(** [sep.join(l)] *)
Fixpoint join (sep : list ascii) (l : list (list ascii)) : list ascii :=
  match l with
  | [] => []
  | [piece] => piece
  | piece :: pieces => piece ++ sep ++ join sep pieces
  end.

(** The size column of the output, ["x".join(str(i) for i in args.shape)]
    (line 196). *)
Definition size_column (shape : list Z) : string :=
  string_of_list_ascii (join ["x"%char] (str <$> shape)).

(** Whether a string begins with a decimal digit. *)
Definition starts_with_digit (s : list ascii) : bool :=
  match s with
  | d :: _ => is_digit d
  | [] => false
  end.

(** The maximal runs of decimal digits of a string, in order. *)
Fixpoint digit_runs (s : list ascii) : list (list ascii) :=
  match s with
  | [] => []
  | c :: s' =>
      if is_digit c then
        match digit_runs s' with
        | run :: runs =>
            if starts_with_digit s' then (c :: run) :: runs
            else [c] :: run :: runs
        | [] => [[c]]
        end
      else digit_runs s'
  end.

(** Whether a string begins, or ends, with a character that is no
    digit. *)
Definition lead (s : list ascii) : bool :=
  match s with
  | c :: _ => negb (is_digit c)
  | [] => false
  end.

Definition trail (s : list ascii) : bool :=
  match last s with
  | Some c => negb (is_digit c)
  | None => false
  end.

(** The number that a string of decimal digits denotes. *)
Definition digits_value (s : list ascii) : Z :=
  fold_left (fun acc c => (10 * acc + (Z.of_nat (nat_of_ascii c) - 48))%Z)
    s 0%Z.

(** A string of zeros. *)
Definition all_zeros (s : list ascii) : bool := forallb (Ascii.eqb "0") s.

(** A run of digits: not empty, digits only. *)
Definition is_run (r : list ascii) : Prop :=
  r <> [] /\ forallb is_digit r = true.

End FftBench.

(** ** [set_threads] ([perf.py], lines 63-104) *)
Module Threads.
Section SetThreads.

(** The state of MKL's threading layer, the exceptions of [mkl-service],
    and its two functions. *)
Context {mkl exc : Type}.
Context (set_num_threads : Z -> mkl -> option exc * mkl)
        (get_max_threads : mkl -> Z).

(** What [set_threads] finds on the machine: whether [import mkl]
    succeeds, whether [numpy] has [__mkl_version__], whether [os] has
    [sched_getaffinity], the size of the affinity set and
    [os.cpu_count()], which may be [None]. *)
Record machine : Type := Machine {
  mkl_service : bool;
  numpy_mkl_version : bool;
  os_sched_getaffinity : bool;
  affinity_size : Z;
  cpu_count : option Z
}.

(** The outcome of a call: what is returned or raised, the state of MKL
    afterwards and whether the warning was printed.  [(None, None)] is
    what the last line of the function would return. *)
Record outcome : Type := Outcome {
  returns : exc + (option Z * option string);
  mkl_after : mkl;
  warned : bool
}.

(** Whether [if num_threads:] takes the branch: not for [None], not for
    0. *)
Definition truthy (num_threads : option Z) : bool :=
  match num_threads with
  | None => false
  | Some n => negb (n =? 0)%Z
  end.

Definition set_threads (host : machine) (num_threads : option Z)
    (verbose no_guessing : bool) (m : mkl) : outcome :=
  if mkl_service host then
    let '(raised, m') :=
      match num_threads with
      | None => (None, m)
      | Some n => if (n =? 0)%Z then (None, m) else set_num_threads n m
      end in
    match raised with
    | Some e => Outcome (inl e) m' false
    | None =>
        Outcome (inr (Some (get_max_threads m'),
                      Some "mkl.get_max_threads"%string)) m' false
    end
  else if numpy_mkl_version host || no_guessing then
    if os_sched_getaffinity host then
      Outcome (inr (Some (affinity_size host),
                    Some "os.sched_getaffinity"%string)) m verbose
    else
      Outcome (inr (cpu_count host, Some "os.cpu_count"%string)) m verbose
  else
    Outcome (inr (Some 1%Z, Some "guessing"%string)) m false.

End SetThreads.
End Threads.

(** ** The bridge to pyFFTW ([mod_pyfftw.py]) *)
Module PyFFTW.

(** The arguments [n] or [s], and [dim]: [None], an [int] or a tuple. *)
Inductive size_arg : Type :=
  | SizeNone
  | SizeInt (n : Z)
  | SizeTuple (s : list Z).

Inductive dim_arg : Type :=
  | DimNone
  | DimInt (i : Z)
  | DimTuple (t : list Z).

(** The dict that [__build_kwargs] returns: with the keys [n] and [axis],
    or with the keys [s] and [axes]. *)
Inductive fftw_kwargs : Type :=
  | AxisKwargs (norm : option string) (overwrite_input : bool)
      (threads : option Z) (n : size_arg) (axis : Z)
  | AxesKwargs (norm : option string) (overwrite_input : bool)
      (threads : option Z) (s : size_arg) (axes : dim_arg).

#[export] Instance size_arg_eq_dec : EqDecision size_arg.
Proof. solve_decision. Defined.

#[export] Instance dim_arg_eq_dec : EqDecision dim_arg.
Proof. solve_decision. Defined.

#[export] Instance fftw_kwargs_eq_dec : EqDecision fftw_kwargs.
Proof. solve_decision. Defined.

(** What the bridge is run on: arrays with their attributes and data
    types, the FFTW objects that the builders return, their outputs and
    exceptions, and the state of the library; [builders] is
    [getattr(pyfftw.builders, func_name)(a, **kwargs)] and [run_plan] the
    call [obj(a)] of an FFTW object.  The class modelled is
    [PyFFTW_Builders], whose [func] looks the builder up in
    [pyfftw.builders]. *)
Class Library : Type := {
  ndarray : Type;
  dtype : Type;
  dtype_eq_dec :: EqDecision dtype;
  plan : Type;
  output : Type;
  exc : Type;
  lib : Type;
  shape : ndarray -> list Z;
  dtype_of : ndarray -> dtype;
  strides : ndarray -> list Z;
  nbytes : ndarray -> Z;
  builders : string -> ndarray -> fftw_kwargs -> lib -> (exc + plan) * lib;
  run_plan : plan -> ndarray -> lib -> (exc + output) * lib
}.

Section Bridge.
Context `{L : Library}.

(** The dict that [__build_config] returns. *)
Record input_config : Type := InputConfig {
  config_shape : list Z;
  config_dtype : dtype;
  config_strides : list Z;
  config_nbytes : Z
}.

Record config : Type := Config {
  config_func : string;
  config_input : input_config;
  config_kwargs : fftw_kwargs
}.

#[export] Instance input_config_eq_dec : EqDecision input_config.
Proof. solve_decision. Defined.

#[export] Instance config_eq_dec : EqDecision config.
Proof. solve_decision. Defined.

(** The bridge object with its two private attributes, the library, and
    the configurations that a builder was called for, in order (ghost
    state). *)
Record state : Type := State {
  obj : option plan;
  obj_config : option config;
  library : lib;
  builds : list config
}.

Inductive bridge_exn : Type :=
  | TypeError
  | FromLibrary (e : exc).

(** [PyFFTW.__init__] *)
Definition init (l : lib) : state := State None None l [].

Definition build_config (a : ndarray) : input_config :=
  InputConfig (shape a) (dtype_of a) (strides a) (nbytes a).

Definition build_kwargs (n : size_arg) (dim : dim_arg)
    (norm : option string) (overwrite_x : bool) (workers : option Z)
  : fftw_kwargs :=
  match dim with
  | DimInt i => AxisKwargs norm overwrite_x workers n i
  | _ => AxesKwargs norm overwrite_x workers n dim
  end.

(** [__invoke] (lines 28-37). *)
Definition invoke (func_name : string) (a : ndarray) (n : size_arg)
    (dim : dim_arg) (norm : option string) (overwrite_x : bool)
    (workers : option Z) (st : state) : (bridge_exn + output) * state :=
  let config := Config func_name (build_config a)
                  (build_kwargs n dim norm overwrite_x workers) in
  let rebuilt :=
    if bool_decide (obj_config st = None)
       || negb (bool_decide (obj_config st = Some config))
    then
      let '(r, l) := builders func_name a (config_kwargs config)
                       (library st) in
      match r with
      | inl e =>
          inl (e, State (obj st) (Some config) l (builds st ++ [config]))
      | inr p =>
          inr (State (Some p) (Some config) l (builds st ++ [config]))
      end
    else inr st
  in
  match rebuilt with
  | inl (e, st') => (inl (FromLibrary e), st')
  | inr st' =>
      match obj st' with
      | None => (inl TypeError, st')
      | Some p =>
          let '(r, l) := run_plan p a (library st') in
          let st'' := State (obj st') (obj_config st') l (builds st') in
          match r with
          | inl e => (inl (FromLibrary e), st'')
          | inr out => (inr out, st'')
          end
      end
  end.

Definition fft (a : ndarray) (n : size_arg) (dim : dim_arg)
    (norm : option string) (overwrite_x : bool) (workers : option Z) :=
  invoke "fft" a n dim norm overwrite_x workers.

Definition rfft (a : ndarray) (n : size_arg) (dim : dim_arg)
    (norm : option string) (overwrite_x : bool) (workers : option Z) :=
  invoke "rfft" a n dim norm overwrite_x workers.

Definition fft2 (a : ndarray) (s : size_arg) (dim : dim_arg)
    (norm : option string) (overwrite_x : bool) (workers : option Z) :=
  invoke "fft2" a s dim norm overwrite_x workers.

Definition rfft2 (a : ndarray) (s : size_arg) (dim : dim_arg)
    (norm : option string) (overwrite_x : bool) (workers : option Z) :=
  invoke "rfft2" a s dim norm overwrite_x workers.

Definition fftn (a : ndarray) (s : size_arg) (dim : dim_arg)
    (norm : option string) (overwrite_x : bool) (workers : option Z) :=
  invoke "fftn" a s dim norm overwrite_x workers.

Definition rfftn (a : ndarray) (s : size_arg) (dim : dim_arg)
    (norm : option string) (overwrite_x : bool) (workers : option Z) :=
  invoke "rfftn" a s dim norm overwrite_x workers.

(** One call of a method of the bridge, with its arguments. *)
Record method_call : Type := MethodCall {
  call_func : string;
  call_a : ndarray;
  call_n : size_arg;
  call_dim : dim_arg;
  call_norm : option string;
  call_overwrite_x : bool;
  call_workers : option Z
}.

(** The configuration that [__invoke] computes for a call. *)
Definition call_config (c : method_call) : config :=
  Config (call_func c) (build_config (call_a c))
    (build_kwargs (call_n c) (call_dim c) (call_norm c)
       (call_overwrite_x c) (call_workers c)).

Definition invoke_call (c : method_call) (st : state)
  : (bridge_exn + output) * state :=
  invoke (call_func c) (call_a c) (call_n c) (call_dim c) (call_norm c)
    (call_overwrite_x c) (call_workers c) st.

(** Calls made one after the other on one bridge object, whatever each
    of them returns or raises. *)
Fixpoint invoke_all (calls : list method_call) (st : state) : state :=
  match calls with
  | [] => st
  | c :: rest => invoke_all rest (invoke_call c st).2
  end.

End Bridge.
End PyFFTW.

(** ** The choice of the OpenCL device ([mod_pyvkfft.py], lines 43-49) *)
Module VkFft.
Section Device.

Context {platform device device_type : Type} `{EqDecision device_type}.
Context (get_devices : platform -> list device)
        (type_of : device -> device_type).

(** The inner loop, over the devices of one platform. *)
Fixpoint first_of_type (device_type_ : device_type) (devices : list device)
  : option device :=
  match devices with
  | [] => None
  | d :: rest =>
      if bool_decide (type_of d = device_type_) then Some d
      else first_of_type device_type_ rest
  end.

(** [VkFft_OpenCL.get_device], over [cl.get_platforms()]. *)
Fixpoint get_device (platforms : list platform) (device_type_ : device_type)
  : option device :=
  match platforms with
  | [] => None
  | p :: rest =>
      match first_of_type device_type_ (get_devices p) with
      | Some d => Some d
      | None => get_device rest device_type_
      end
  end.

(** [available()]: [get_device(device_type) is not None]. *)
Definition available (platforms : list platform)
    (device_type_ : device_type) : bool :=
  match get_device platforms device_type_ with
  | Some _ => true
  | None => false
  end.

(** The devices of all platforms, in the order of the two loops. *)
Definition all_devices (platforms : list platform) : list device :=
  concat (get_devices <$> platforms).

End Device.
End VkFft.

(** ** Further concrete hosts *)

(** A host as [Demo.host], on which no module with a clock can be
    imported. *)
Module NoClock.

Definition host : Host := {|
  elem := Z;
  kwargs_t := unit;
  result := list Z;
  exc := string;
  env := Z;
  timepoint := spec_float;
  pymodule := unit;
  junk := 0%Z;
  junk_time := S754_nan;
  import_module := fun _ => None;
  can_allocate := fun n => (n <=? 2 ^ 32)%Z;
  itime := fun _ s => (F64.of_Z s, s);
  itime_delta_in_seconds := fun _ t0 t1 => F64.sub t1 t0;
  default_timer := fun _ s => (F64.of_Z s, s);
  time_time := fun _ s => (F64.of_Z s, s);
  timepoint_sub := F64.sub
|}.

Definition identity : pyfunc (H := host) := fun seen _ s => (inr seen, seen, s).

Definition start : world (H := host) :=
  World (H := host) {[ 1%positive := [3; 1; 4]%Z ]} true 0%Z [].

End NoClock.

(** A world of [Demo.host] in which the caller holds a second array. *)
Module Bystander.

Definition y_loc : loc := 2%positive.

Definition ys : list (@elem Demo.host) := [2; 7]%Z.

Definition start : world (H := Demo.host) :=
  World (H := Demo.host) (<[ y_loc := ys ]> {[ Demo.x_loc := Demo.xs ]})
    true 0%Z [].

End Bystander.

(** A machine without [mkl-service], with MKL in [numpy] and eight
    processors; MKL's state is its number of threads. *)
Module ThreadsDemo.

Definition host : Threads.machine := Threads.Machine false true true 8 (Some 8%Z).

Definition set_num_threads (n : Z) (m : Z) : option string * Z := (None, n).

Definition get_max_threads (m : Z) : Z := m.

End ThreadsDemo.

(** A library for the bridge to pyFFTW: arrays of 8-byte numbers in one
    dimension; a plan is the name of its function and running it returns
    the input; the builders count the plans they make and refuse a [norm]
    that they do not know. *)
Module PyFFTWDemo.
Import PyFFTW.

Definition kwargs_norm (kw : fftw_kwargs) : option string :=
  match kw with
  | AxisKwargs norm _ _ _ _ | AxesKwargs norm _ _ _ _ => norm
  end.

#[export] Instance library : Library := {|
  ndarray := list Z;
  dtype := unit;
  dtype_eq_dec := unit_eq_dec;
  plan := string;
  output := list Z;
  exc := string;
  lib := nat;
  shape := fun a => [Z.of_nat (length a)];
  dtype_of := fun _ => tt;
  strides := fun _ => [8%Z];
  nbytes := fun a => (8 * Z.of_nat (length a))%Z;
  builders := fun func_name a kw l =>
    match kwargs_norm kw with
    | Some norm =>
        if String.eqb norm "ortho" then (inr func_name, S l)
        else (inl "invalid norm"%string, l)
    | None => (inr func_name, S l)
    end;
  run_plan := fun p a l => (inr a, l)
|}.

(** [fft(a)] and [fft(a, norm='bogus')] for [a] of three entries, and the
    state of a bridge after the first of them. *)
Definition plain_call : method_call :=
  MethodCall "fft" [1; 2; 3]%Z SizeNone (DimInt (-1)) None false None.

Definition bogus_call : method_call :=
  MethodCall "fft" [1; 2; 3]%Z SizeNone (DimInt (-1)) (Some "bogus"%string)
    false None.

(** A new bridge object. *)
Definition start : state := init 0.

Definition after_plain_call : state := (invoke_call plain_call start).2.

End PyFFTWDemo.

(** * Facts about binary64 arithmetic *)

Section FloatFacts.
Local Open Scope Z_scope.

Lemma digits2_pos_lt (p : positive) : Zpos p < 2 ^ Zpos (digits2_pos p).
Proof.
  induction p as [p IH|p IH|]; simpl digits2_pos;
    rewrite ?Pos2Z.inj_succ, ?Z.pow_succ_r by lia; lia.
Qed.

Lemma digits2_pos_ge (p : positive) : 2 ^ (Zpos (digits2_pos p) - 1) <= Zpos p.
Proof.
  induction p as [p IH|p IH|]; simpl digits2_pos; [| |simpl; lia];
    rewrite Pos2Z.inj_succ;
    replace (Z.succ (Zpos (digits2_pos p)) - 1)
      with (Z.succ (Zpos (digits2_pos p) - 1)) by lia;
    rewrite Z.pow_succ_r by lia; lia.
Qed.

Lemma Zdigits2_nonneg (m : Z) : 0 <= Zdigits2 m.
Proof. destruct m; simpl; lia. Qed.

Lemma Zdigits2_lt (m : Z) : 0 <= m -> m < 2 ^ Zdigits2 m.
Proof.
  destruct m as [|p|p]; simpl; intros; [lia | apply digits2_pos_lt | lia].
Qed.

Lemma Zdigits2_le (m k : Z) : 0 <= k -> 0 <= m < 2 ^ k -> Zdigits2 m <= k.
Proof.
  intros Hk [Hm Hlt]. destruct m as [|p|p]; simpl; [lia | | lia].
  destruct (Z_le_gt_dec (Zpos (digits2_pos p)) k) as [|Hgt]; [assumption|].
  pose proof (digits2_pos_ge p) as Hge.
  assert (2 ^ k <= 2 ^ (Zpos (digits2_pos p) - 1))
    by (apply Z.pow_le_mono_r; lia).
  lia.
Qed.

Lemma Zdigits2_div (m j : Z) :
  0 <= m -> 0 <= j -> Zdigits2 (m / 2 ^ j) <= Z.max 0 (Zdigits2 m - j).
Proof.
  intros Hm Hj. pose proof (Zdigits2_lt m Hm) as Hlt.
  pose proof (Zdigits2_nonneg m) as Hd.
  assert (0 < 2 ^ j) by (apply Z.pow_pos_nonneg; lia).
  destruct (Z_le_gt_dec j (Zdigits2 m)) as [Hle|Hgt].
  - apply Zdigits2_le; [lia|]. split; [apply Z.div_pos; lia|].
    apply Z.div_lt_upper_bound; [lia|].
    rewrite <- Z.pow_add_r by lia.
    replace (j + Z.max 0 (Zdigits2 m - j)) with (Zdigits2 m) by lia. exact Hlt.
  - assert (2 ^ Zdigits2 m <= 2 ^ j) by (apply Z.pow_le_mono_r; lia).
    rewrite Z.div_small by lia. simpl. lia.
Qed.

Lemma Zdigits2_succ_le (m mr : Z) :
  0 <= m -> m <= mr <= m + 1 -> Zdigits2 mr <= Zdigits2 m + 1.
Proof.
  intros Hm Hmr. pose proof (Zdigits2_lt m Hm). pose proof (Zdigits2_nonneg m).
  apply Zdigits2_le; [lia|]. rewrite Z.pow_add_r by lia. lia.
Qed.

Lemma Zdigits2_mul (a b : positive) :
  Zpos (digits2_pos (a * b)) <= Zpos (digits2_pos a) + Zpos (digits2_pos b).
Proof.
  apply (Zdigits2_le (Zpos (a * b))); [lia|].
  rewrite Z.pow_add_r, Pos2Z.inj_mul by lia.
  pose proof (digits2_pos_lt a). pose proof (digits2_pos_lt b). nia.
Qed.

Lemma shr_1_div2 (mrs : shr_record) :
  0 <= shr_m mrs -> shr_m (shr_1 mrs) = shr_m mrs / 2.
Proof.
  destruct mrs as [m r s]. simpl. intros Hm.
  destruct m as [|[p|p|]|p]; simpl shr_m; [reflexivity| | |reflexivity|lia].
  - apply Z.div_unique with (r := 1); lia.
  - apply Z.div_unique with (r := 0); lia.
Qed.

Lemma shr_m_iter (p : positive) (mrs : shr_record) :
  0 <= shr_m mrs ->
  shr_m (SpecFloat.iter_pos shr_1 p mrs) = shr_m mrs / 2 ^ Zpos p.
Proof.
  revert mrs. induction p as [p IH|p IH|]; intros mrs Hm; simpl SpecFloat.iter_pos.
  - assert (0 <= shr_m (shr_1 mrs))
      by (rewrite shr_1_div2 by lia; apply Z.div_pos; lia).
    assert (0 < 2 ^ Zpos p) by (apply Z.pow_pos_nonneg; lia).
    rewrite IH by (rewrite IH by lia; apply Z.div_pos; lia).
    rewrite IH, shr_1_div2 by lia.
    rewrite !Z.div_div by lia. f_equal.
    replace (Zpos p~1) with (1 + (Zpos p + Zpos p)) by lia.
    rewrite !Z.pow_add_r by lia. change (2 ^ 1) with 2. ring.
  - assert (0 < 2 ^ Zpos p) by (apply Z.pow_pos_nonneg; lia).
    rewrite IH by (rewrite IH by lia; apply Z.div_pos; lia).
    rewrite IH by lia. rewrite Z.div_div by lia. f_equal.
    replace (Zpos p~0) with (Zpos p + Zpos p) by lia.
    rewrite Z.pow_add_r by lia. reflexivity.
  - rewrite shr_1_div2 by lia. reflexivity.
Qed.

Lemma shr_fexp_spec (m e : Z) (l : location) :
  0 <= m ->
  snd (shr_fexp F64.prec F64.emax m e l)
    = Z.max e (fexp F64.prec F64.emax (Zdigits2 m + e)) /\
  shr_m (fst (shr_fexp F64.prec F64.emax m e l))
    = m / 2 ^ (Z.max e (fexp F64.prec F64.emax (Zdigits2 m + e)) - e).
Proof.
  intros Hm. unfold shr_fexp, shr.
  assert (Hrec : shr_m (shr_record_of_loc m l) = m)
    by (destruct l as [|[]]; reflexivity).
  destruct (fexp F64.prec F64.emax (Zdigits2 m + e) - e) as [|p|p] eqn:Hs;
    simpl fst; simpl snd.
  - replace (Z.max e _ - e) with 0 by lia.
    rewrite Hrec, Z.pow_0_r, Z.div_1_r. split; [lia | reflexivity].
  - replace (Z.max e _ - e) with (Zpos p) by lia.
    rewrite shr_m_iter by lia. rewrite Hrec. split; [lia | reflexivity].
  - replace (Z.max e _ - e) with 0 by lia.
    rewrite Hrec, Z.pow_0_r, Z.div_1_r. split; [lia | reflexivity].
Qed.

Lemma round_nearest_even_bounds (mx : Z) (lx : location) :
  mx <= round_nearest_even mx lx <= mx + 1.
Proof.
  destruct lx as [|[]]; simpl; try lia. destruct (Z.even mx); lia.
Qed.

End FloatFacts.

Section RoundFacts.
Local Open Scope Z_scope.

(** The value [binary_round_aux] returns once the mantissa [m2] and the
    exponent [e2] of the rounded number are known. *)
Lemma binary_round_aux_spec (s : bool) (m e : Z) (l : location) :
  0 <= m ->
  exists mr : Z,
    let e1 := Z.max e (fexp64 (Zdigits2 m + e)) in
    let e2 := Z.max e1 (fexp64 (Zdigits2 mr + e1)) in
    m / 2 ^ (e1 - e) <= mr <= m / 2 ^ (e1 - e) + 1 /\
    binary_round_aux F64.prec F64.emax s m e l =
      match mr / 2 ^ (e2 - e1) with
      | Z0 => S754_zero s
      | Zpos p =>
          if e2 <=? F64.emax - F64.prec then S754_finite s p e2
          else S754_infinity s
      | Zneg _ => S754_nan
      end.
Proof.
  intros Hm. unfold binary_round_aux.
  destruct (shr_fexp_spec m e l Hm) as [He1 Hm1].
  destruct (shr_fexp F64.prec F64.emax m e l) as [mrs1 e1] eqn:Hshr1.
  simpl in He1, Hm1. subst e1.
  set (e1 := Z.max e (fexp64 (Zdigits2 m + e))) in *.
  set (mr := round_nearest_even (shr_m mrs1) (loc_of_shr_record mrs1)).
  assert (Hb : shr_m mrs1 <= mr <= shr_m mrs1 + 1)
    by apply round_nearest_even_bounds.
  assert (0 <= shr_m mrs1)
    by (rewrite Hm1; apply Z.div_pos; [lia | apply Z.pow_pos_nonneg; lia]).
  destruct (shr_fexp_spec mr e1 loc_Exact ltac:(lia)) as [He2 Hm2].
  destruct (shr_fexp F64.prec F64.emax mr e1 loc_Exact) as [mrs2 e2] eqn:Hshr2.
  simpl in He2, Hm2. subst e2.
  exists mr. cbv zeta. rewrite <- Hm1, <- Hm2.
  split; [exact Hb | reflexivity].
Qed.

(** Sign, size and overflow of a rounded number, from a bound [B] on the
    binary order of magnitude of the exact one. *)
Lemma binary_round_aux_bound (s : bool) (m e B : Z) (l : location) :
  0 <= m -> Zdigits2 m + e <= B -> e <= B ->
  let r := binary_round_aux F64.prec F64.emax s m e l in
  r = S754_zero s \/
  (exists p e2, r = S754_finite s p e2 /\
     Zpos (digits2_pos p) + e2 <= Z.max (B + 1) (emin64 + 1) /\
     e2 <= F64.emax - F64.prec) \/
  (r = S754_infinity s /\ F64.emax - F64.prec < Z.max e (fexp64 (B + 1))).
Proof.
  intros Hm HB HeB r. subst r.
  destruct (binary_round_aux_spec s m e l Hm) as (mr & Hmr & ->).
  set (e1 := Z.max e (fexp64 (Zdigits2 m + e))) in *.
  set (e2 := Z.max e1 (fexp64 (Zdigits2 mr + e1))) in *.
  assert (0 <= e1 - e) by lia.
  assert (0 < 2 ^ (e1 - e)) by (apply Z.pow_pos_nonneg; lia).
  assert (Hm1 : 0 <= m / 2 ^ (e1 - e)) by (apply Z.div_pos; lia).
  pose proof (Zdigits2_div m (e1 - e) Hm ltac:(lia)) as Hd1.
  pose proof (Zdigits2_succ_le _ mr Hm1 Hmr) as Hdr.
  pose proof (Zdigits2_nonneg m) as Hdm.
  assert (0 <= e2 - e1) by lia.
  pose proof (Zdigits2_div mr (e2 - e1) ltac:(lia) ltac:(lia)) as Hd2.
  assert (He1 : e1 <= Z.max e (fexp64 B))
    by (unfold e1, fexp, emin, F64.prec, F64.emax in *; lia).
  assert (Hmag : Zdigits2 mr + e1 <= Z.max (B + 1) (emin64 + 1))
    by (unfold e1, fexp, emin, F64.prec, F64.emax in *; lia).
  destruct (mr / 2 ^ (e2 - e1)) as [|p|p] eqn:Hq.
  - left. reflexivity.
  - right. destruct (e2 <=? F64.emax - F64.prec) eqn:Hle.
    + left. exists p, e2. split; [reflexivity|].
      apply Z.leb_le in Hle. split; [|exact Hle].
      simpl Zdigits2 in Hd2.
      unfold e2, e1, fexp, emin, F64.prec, F64.emax in *; lia.
    + right. split; [reflexivity|]. apply Z.leb_gt in Hle.
      unfold e2, e1, fexp, emin, F64.prec, F64.emax in *; lia.
  - exfalso.
    assert (0 <= mr / 2 ^ (e2 - e1))
      by (apply Z.div_pos; [lia | apply Z.pow_pos_nonneg; lia]).
    lia.
Qed.

(** A number that is not below the smallest exponent does not round to
    zero. *)
Lemma shift_keeps_positive (m e : Z) :
  1 <= m -> emin64 <= e ->
  1 <= m / 2 ^ (Z.max e (fexp64 (Zdigits2 m + e)) - e).
Proof.
  intros Hm He.
  destruct (Z_le_gt_dec (fexp64 (Zdigits2 m + e)) e) as [Hle|Hgt].
  - replace (Z.max e _ - e) with 0 by lia. rewrite Z.pow_0_r, Z.div_1_r. lia.
  - destruct m as [|p|p]; try lia. simpl Zdigits2 in *.
    pose proof (digits2_pos_ge p) as Hge.
    set (d := Zpos (digits2_pos p)) in *.
    assert (Hs : Z.max e (fexp64 (d + e)) - e = d - F64.prec)
      by (unfold fexp, emin, F64.prec, F64.emax in *; lia).
    rewrite Hs.
    assert (0 <= d - F64.prec) by (unfold fexp, emin, F64.prec, F64.emax in *; lia).
    assert (0 < 2 ^ (d - F64.prec)) by (apply Z.pow_pos_nonneg; lia).
    apply Z.div_le_lower_bound; [lia|].
    assert (2 ^ (d - F64.prec) <= 2 ^ (d - 1))
      by (apply Z.pow_le_mono_r; unfold F64.prec; lia).
    lia.
Qed.

Lemma binary_round_aux_nonzero (s : bool) (m e : Z) (l : location) :
  1 <= m -> emin64 <= e ->
  forall s', binary_round_aux F64.prec F64.emax s m e l <> S754_zero s'.
Proof.
  intros Hm He s'.
  destruct (binary_round_aux_spec s m e l ltac:(lia)) as (mr & Hmr & ->).
  set (e1 := Z.max e (fexp64 (Zdigits2 m + e))) in *.
  pose proof (shift_keeps_positive m e Hm He) as H1. fold e1 in H1.
  pose proof (shift_keeps_positive mr e1 ltac:(lia) ltac:(lia)) as H2.
  destruct (mr / 2 ^ _) as [|p|p]; [lia| |lia].
  destruct (_ <=? _); discriminate.
Qed.

End RoundFacts.

Section ArithFacts.
Local Open Scope Z_scope.

Lemma Pos_iter_xO (p d : positive) :
  Zpos (Pos.iter xO p d) = Zpos p * 2 ^ Zpos d.
Proof.
  induction d as [|d IH] using Pos.peano_ind.
  - simpl. lia.
  - rewrite Pos.iter_succ, Pos2Z.inj_xO, IH, Pos2Z.inj_succ, Z.pow_succ_r by lia.
    ring.
Qed.

Lemma shl_align_spec (p : positive) (e e' : Z) :
  snd (shl_align p e e') = Z.min e e' /\
  Zpos (fst (shl_align p e e')) = Zpos p * 2 ^ (e - Z.min e e').
Proof.
  unfold shl_align. destruct (e' - e) as [|d|d] eqn:Hd; simpl fst; simpl snd.
  - replace (e - Z.min e e') with 0 by lia. split; lia.
  - replace (e - Z.min e e') with 0 by lia. split; lia.
  - replace (e - Z.min e e') with (Zpos d) by lia.
    rewrite Pos_iter_xO. split; lia.
Qed.

(** [float(n)] of a positive int below [2 ^ B]. *)
Lemma of_Z_pos_bound (n B : Z) :
  1 <= n < 2 ^ B -> B <= 1000 ->
  exists m e, F64.of_Z n = S754_finite false m e /\
              Zpos (digits2_pos m) + e <= B + 1.
Proof.
  intros [Hn HnB] HB.
  assert (0 <= B).
  { destruct (Z_lt_le_dec B 0) as [Hneg|]; [|assumption].
    rewrite Z.pow_neg_r in HnB by assumption. lia. }
  destruct n as [|p|p]; try lia.
  unfold F64.of_Z, binary_normalize, binary_round.
  pose proof (shl_align_spec p 0 (fexp64 (Zpos (digits2_pos p) + 0)))
    as [Hez Hmz].
  destruct (shl_align p 0 _) as [mz ez]. cbn [fst snd] in Hez, Hmz.
  rewrite <- Hez in Hmz.
  assert (Hdp : Zpos (digits2_pos p) <= B)
    by (apply (Zdigits2_le (Zpos p)); lia).
  pose proof (digits2_pos_lt p) as Hlt.
  assert (Hez0 : ez <= 0) by lia.
  assert (Hemin : emin64 <= ez)
    by (unfold fexp, emin, F64.prec, F64.emax in *; lia).
  assert (0 < 2 ^ (0 - ez)) by (apply Z.pow_pos_nonneg; lia).
  assert (Hdz : Zpos (digits2_pos mz) <= Zpos (digits2_pos p) + (0 - ez)).
  { apply (Zdigits2_le (Zpos mz)); [lia|].
    rewrite Z.pow_add_r by lia. nia. }
  pose proof (binary_round_aux_bound false (Zpos mz) ez B loc_Exact
                ltac:(lia) ltac:(simpl Zdigits2; lia) ltac:(lia)) as Hr.
  pose proof (binary_round_aux_nonzero false (Zpos mz) ez loc_Exact
                ltac:(lia) Hemin false) as Hnz.
  cbv zeta in Hr. destruct Hr as [Hr|[(m & e & Hr & Hmag & _)|[_ Hr]]].
  - contradiction.
  - exists m, e. split; [exact Hr|].
    unfold emin, F64.prec, F64.emax in *; lia.
  - exfalso. unfold fexp, emin, F64.prec, F64.emax in *; lia.
Qed.

(** The sign of [float(n)] for a positive int of any size. *)
Lemma of_Z_pos_sign (n : Z) :
  1 <= n ->
  F64.of_Z n = S754_infinity false \/
  exists m e, F64.of_Z n = S754_finite false m e.
Proof.
  intros Hn. destruct n as [|p|p]; try lia.
  unfold F64.of_Z, binary_normalize, binary_round.
  pose proof (shl_align_spec p 0 (fexp64 (Zpos (digits2_pos p) + 0)))
    as [Hez Hmz].
  destruct (shl_align p 0 _) as [mz ez]. cbn [fst snd] in Hez, Hmz.
  assert (Hemin : emin64 <= ez)
    by (unfold fexp, emin, F64.prec, F64.emax in *; lia).
  pose proof (binary_round_aux_bound false (Zpos mz) ez
                (Z.max ez (Zdigits2 (Zpos mz) + ez)) loc_Exact
                ltac:(lia) ltac:(lia) ltac:(lia)) as Hr.
  pose proof (binary_round_aux_nonzero false (Zpos mz) ez loc_Exact
                ltac:(lia) Hemin false) as Hnz.
  cbv zeta in Hr. destruct Hr as [Hr|[(m & e & Hr & _)|[Hr _]]].
  - contradiction.
  - right. exists m, e. exact Hr.
  - left. exact Hr.
Qed.

Lemma gt_five_finite (s : bool) (p : positive) (e : Z) :
  PyNum.gt_five (S754_finite s p e) = true -> s = false /\ -50 <= e.
Proof.
  unfold PyNum.gt_five, F64.ltb, SFltb, F64.five, SFcompare.
  destruct s; [discriminate|].
  destruct (Z.compare_spec (-50) e); intros; split; try reflexivity;
    try lia; discriminate.
Qed.

(** The guard [time_tot * batch_size > 5], for a positive finite
    [float(batch_size)] of order of magnitude at most [Bb]. *)
Lemma gt_five_mul (L : spec_float) (mb : positive) (eb Bb : Z) :
  Zpos (digits2_pos mb) + eb <= Bb ->
  PyNum.gt_five (F64.mul L (S754_finite false mb eb)) = true ->
  L = S754_infinity false \/
  exists mL eL, L = S754_finite false mL eL /\
                -50 <= Zpos (digits2_pos mL) + eL + Bb.
Proof.
  intros Hb Hgt. destruct L as [s|s| |s mL eL]; simpl in Hgt.
  - discriminate.
  - destruct s; [discriminate | left; reflexivity].
  - discriminate.
  - right. rewrite xorb_false_r in Hgt.
    pose proof (Zdigits2_mul mL mb) as Hdm.
    pose proof (binary_round_aux_bound s (Zpos (mL * mb)) (eL + eb)
                  (Zpos (digits2_pos mL) + eL + Bb) loc_Exact
                  ltac:(lia) ltac:(simpl Zdigits2; lia) ltac:(lia)) as Hr.
    cbv zeta in Hr. destruct Hr as [Hr|[(p & e2 & Hr & Hmag & _)|[Hr Hbig]]];
      rewrite Hr in Hgt.
    + discriminate.
    + apply gt_five_finite in Hgt as [-> He2].
      exists mL, eL. split; [reflexivity|].
      unfold emin, F64.prec, F64.emax in *; lia.
    + destruct s; [discriminate|].
      exists mL, eL. split; [reflexivity|].
      unfold fexp, emin, F64.prec, F64.emax in *; lia.
Qed.

(** [5/time_tot] does not overflow unless [time_tot] is tiny. *)
Lemma div_five_bound (mL : positive) (eL : Z) :
  -1019 <= Zpos (digits2_pos mL) + eL ->
  F64.div F64.five (S754_finite false mL eL) = S754_zero false \/
  exists p e, F64.div F64.five (S754_finite false mL eL)
                = S754_finite false p e /\
              Zpos (digits2_pos p) + e
                <= Z.max (5 - (Zpos (digits2_pos mL) + eL)) (emin64 + 1).
Proof.
  intros HE. unfold F64.div, F64.five, SFdiv, SFdiv_core_binary.
  change (Zdigits2 5629499534213120) with 53.
  simpl Zdigits2. simpl xorb.
  set (dL := Zpos (digits2_pos mL)) in *.
  set (e' := Z.min (fexp F64.prec F64.emax (53 + -50 - (dL + eL))) (-50 - eL)).
  set (s := -50 - eL - e').
  assert (Hs : 0 <= s) by (unfold s, e'; lia).
  set (m' := match s with
             | 0 => 5629499534213120
             | Zpos _ => Z.shiftl 5629499534213120 s
             | Zneg _ => 0
             end).
  assert (Hm' : m' = 5629499534213120 * 2 ^ s).
  { unfold m'. destruct s as [|q|q]; [reflexivity| |lia].
    apply Z.shiftl_mul_pow2. lia. }
  pose proof (Z_div_mod m' (Zpos mL) ltac:(lia)) as Hdiv.
  destruct (Z.div_eucl m' (Zpos mL)) as [q r]. destruct Hdiv as [Hq Hr].
  assert (0 < 2 ^ s) by (apply Z.pow_pos_nonneg; lia).
  assert (Hq0 : 0 <= q) by nia.
  pose proof (digits2_pos_ge mL) as HgeL. fold dL in HgeL.
  assert (1 <= dL) by (unfold dL; lia).
  assert (Hdq : Zdigits2 q <= Z.max 0 (54 + s - dL)).
  { destruct (Z_le_gt_dec 0 (54 + s - dL)) as [Hj|Hj].
    - apply Zdigits2_le; [lia|]. split; [lia|].
      replace (Z.max 0 (54 + s - dL)) with (54 + s - dL) by lia.
      assert (Hpow : 2 ^ (53 + s) = 2 ^ (54 + s - dL) * 2 ^ (dL - 1))
        by (rewrite <- Z.pow_add_r by lia; f_equal; lia).
      assert (Hpow2 : 2 ^ (53 + s) = 9007199254740992 * 2 ^ s)
        by (rewrite Z.pow_add_r by lia; reflexivity).
      assert (0 < 2 ^ (54 + s - dL)) by (apply Z.pow_pos_nonneg; lia).
      nia.
    - assert (2 ^ (53 + s) <= 2 ^ (dL - 1))
        by (apply Z.pow_le_mono_r; lia).
      assert (Hpow2 : 2 ^ (53 + s) = 9007199254740992 * 2 ^ s)
        by (rewrite Z.pow_add_r by lia; reflexivity).
      assert (q = 0) by nia. subst q. simpl. lia. }
  pose proof (binary_round_aux_bound false q e'
                (Z.max e' (4 - (dL + eL))) (new_location (Zpos mL) r)
                Hq0 ltac:(unfold s in *; lia) ltac:(lia)) as Hres.
  cbv zeta in Hres.
  destruct Hres as [Hres|[(p & e2 & Hres & Hmag & _)|[_ Hbig]]].
  - left. exact Hres.
  - right. exists p, e2. split; [exact Hres|].
    unfold e', fexp, emin, F64.prec, F64.emax in *; lia.
  - exfalso. unfold e', fexp, emin, F64.prec, F64.emax in *; lia.
Qed.

(** [int(x)] of a positive finite float below [2 ^ K]; it is the floor. *)
Lemma trunc_finite_bound (p : positive) (e K : Z) :
  0 <= K -> Zpos (digits2_pos p) + e <= K ->
  exists z, F64.trunc (S754_finite false p e) = Some z /\
            F64.floor (S754_finite false p e) = Some z /\ 0 <= z < 2 ^ K.
Proof.
  intros HK Hmag. pose proof (digits2_pos_lt p) as Hlt.
  set (d := Zpos (digits2_pos p)) in *.
  assert (1 <= d) by (unfold d; lia). clearbody d.
  destruct e as [|q|q]; simpl F64.trunc; simpl F64.floor.
  - exists (Zpos p). rewrite Z.pow_0_r, Z.mul_1_r.
    repeat split; try reflexivity; try lia.
    assert (2 ^ d <= 2 ^ K) by (apply Z.pow_le_mono_r; lia). lia.
  - exists (Zpos p * 2 ^ Zpos q).
    rewrite Z.shiftl_mul_pow2 by lia. repeat split; try reflexivity; try lia.
    assert (2 ^ (d + Zpos q) <= 2 ^ K) by (apply Z.pow_le_mono_r; lia).
    rewrite Z.pow_add_r in * by lia.
    assert (0 < 2 ^ Zpos q) by (apply Z.pow_pos_nonneg; lia). nia.
  - exists (Zpos p / 2 ^ Zpos q).
    rewrite Z.shiftr_div_pow2 by lia.
    assert (0 < 2 ^ Zpos q) by (apply Z.pow_pos_nonneg; lia).
    assert (0 < 2 ^ K) by (apply Z.pow_pos_nonneg; lia).
    repeat split; try reflexivity.
    + apply Z.div_pos; lia.
    + apply Z.div_lt_upper_bound; [lia|].
      rewrite <- Z.pow_add_r by lia.
      assert (2 ^ d <= 2 ^ (Zpos q + K)) by (apply Z.pow_le_mono_r; lia). lia.
Qed.

End ArithFacts.

Section CalibrateFacts.
Local Open Scope Z_scope.

Lemma binary_round_aux_nonneg (m e : Z) (l : location) :
  0 <= m -> F64.nonneg (binary_round_aux F64.prec F64.emax false m e l) = true.
Proof.
  intros Hm.
  pose proof (binary_round_aux_bound false m e (Z.max e (Zdigits2 m + e)) l
                Hm ltac:(lia) ltac:(lia)) as Hr.
  cbv zeta in Hr. destruct Hr as [->|[(p & e2 & -> & _)|[-> _]]]; reflexivity.
Qed.

Lemma nonneg_cases (x : spec_float) :
  F64.nonneg x = true ->
  (exists s, x = S754_zero s) \/ x = S754_infinity false \/
  exists m e, x = S754_finite false m e.
Proof.
  destruct x as [s|[]| |[] m e]; try discriminate; intros _; eauto.
Qed.

Lemma add_nonneg (a b : spec_float) :
  F64.nonneg a = true -> F64.nonneg b = true -> F64.nonneg (F64.add a b) = true.
Proof.
  intros Ha Hb.
  destruct (nonneg_cases a Ha) as [[sa ->]|[->|(ma & ea & ->)]];
    destruct (nonneg_cases b Hb) as [[sb ->]|[->|(mb & eb & ->)]];
    try reflexivity.
  - destruct sa, sb; reflexivity.
  - unfold F64.add, SFadd, cond_Zopp. rewrite <- Pos2Z.inj_add.
    unfold binary_normalize, binary_round.
    destruct (shl_align (_ + _) _ _) as [mz ez].
    apply binary_round_aux_nonneg. lia.
Qed.

Lemma div_eucl_nonneg (a : Z) (b : positive) :
  0 <= a -> 0 <= fst (Z.div_eucl a (Zpos b)).
Proof.
  intros Ha. pose proof (Z_div_mod a (Zpos b) ltac:(lia)) as Hd.
  destruct (Z.div_eucl a (Zpos b)) as [q r]. simpl. nia.
Qed.

Lemma div_finite_nonneg (mx my : positive) (ex ey : Z) :
  F64.nonneg (F64.div (S754_finite false mx ex) (S754_finite false my ey))
    = true.
Proof.
  unfold F64.div, SFdiv, SFdiv_core_binary. simpl xorb.
  set (s := ex - ey - _).
  set (m' := match s with
             | 0 => Zpos mx
             | Zpos _ => Z.shiftl (Zpos mx) s
             | Zneg _ => 0
             end).
  assert (Hm' : 0 <= m').
  { unfold m'. destruct s; try lia. apply Z.shiftl_nonneg. lia. }
  pose proof (div_eucl_nonneg m' my Hm') as Hq.
  destruct (Z.div_eucl m' (Zpos my)) as [q r]. simpl in Hq.
  apply binary_round_aux_nonneg. exact Hq.
Qed.

(** A non-negative time divided by a positive count is non-negative. *)
Lemma div_nonneg (t : spec_float) (m : positive) (e : Z) :
  F64.nonneg t = true -> F64.nonneg (F64.div t (S754_finite false m e)) = true.
Proof.
  intros Ht. destruct (nonneg_cases t Ht) as [[s ->]|[->|(mt & et & ->)]].
  - reflexivity.
  - reflexivity.
  - apply div_finite_nonneg.
Qed.

Lemma float_of_int_pos (n : Z) :
  1 <= n ->
  PyNum.float_of_int n = inl OverflowError \/
  exists m e, PyNum.float_of_int n = inr (S754_finite false m e).
Proof.
  intros Hn. unfold PyNum.float_of_int.
  destruct (of_Z_pos_sign n Hn) as [->|(m & e & ->)]; eauto.
Qed.

Lemma float_of_int_small (n B : Z) :
  1 <= n < 2 ^ B -> B <= 1000 ->
  exists m e, PyNum.float_of_int n = inr (S754_finite false m e) /\
              Zpos (digits2_pos m) + e <= B + 1.
Proof.
  intros Hn HB. unfold PyNum.float_of_int.
  destruct (of_Z_pos_bound n B Hn HB) as (m & e & -> & Hmag). eauto.
Qed.

(** [t / n] for a positive count [n]: it raises only when [n] does not
    fit a float, and keeps the sign of [t]. *)
Lemma div_float_int_pos (t : spec_float) (n : Z) :
  1 <= n ->
  PyNum.div_float_int t n = inl OverflowError \/
  exists v, PyNum.div_float_int t n = inr v /\
            (F64.nonneg t = true -> F64.nonneg v = true).
Proof.
  intros Hn. unfold PyNum.div_float_int.
  destruct (float_of_int_pos n Hn) as [->|(m & e & ->)]; [left; reflexivity|].
  right. simpl. eexists. split; [reflexivity|]. intros Ht.
  apply div_nonneg. exact Ht.
Qed.

Lemma div_float_int_small (t : spec_float) (n : Z) :
  1 <= n < 2 ^ 1000 ->
  exists v, PyNum.div_float_int t n = inr v /\
            (F64.nonneg t = true -> F64.nonneg v = true).
Proof.
  intros Hn. unfold PyNum.div_float_int.
  destruct (float_of_int_small n 1000 Hn ltac:(lia)) as (m & e & -> & _).
  simpl. eexists. split; [reflexivity|]. intros Ht.
  apply div_nonneg. exact Ht.
Qed.

Lemma gt_five_pos (L f : spec_float) (m : positive) (e : Z) :
  f = S754_finite false m e ->
  PyNum.gt_five (F64.mul L f) = true ->
  F64.pos L = true /\ F64.is_zero L = false.
Proof.
  intros -> Hgt.
  destruct (gt_five_mul L m e _ (Z.le_refl _) Hgt) as [->|(mL & eL & -> & _)];
    split; reflexivity.
Qed.

Lemma div_five_sign (L : spec_float) :
  F64.pos L = true ->
  F64.div F64.five L = S754_infinity false \/
  (exists s, F64.div F64.five L = S754_zero s) \/
  exists p e, F64.div F64.five L = S754_finite false p e.
Proof.
  intros HL. destruct L as [s|[]| |[] mL eL]; try discriminate.
  - right. left. exists false. reflexivity.
  - pose proof (div_finite_nonneg 5629499534213120 mL (-50) eL) as Hn.
    apply nonneg_cases in Hn. fold F64.five in Hn.
    destruct Hn as [?|[?|?]]; eauto.
Qed.

Lemma trunc_finite_nonneg (p : positive) (e : Z) :
  exists z, F64.trunc (S754_finite false p e) = Some z /\ 0 <= z.
Proof.
  destruct (trunc_finite_bound p e (Z.max 0 (Zpos (digits2_pos p) + e))
              ltac:(lia) ltac:(lia)) as (z & Hz & _ & Hz0 & _).
  eauto.
Qed.

Lemma float_of_int_five : PyNum.float_of_int 5 = inr F64.five.
Proof. reflexivity. Qed.

(** What [calibrate] returns for a positive batch size within the range
    of a machine word. *)
Lemma calibrate_adaptive_gen (L : spec_float) (batch_size : Z) :
  1 <= batch_size < 2 ^ 63 ->
  (PyNum.gt_five (F64.mul L (F64.of_Z batch_size)) = true ->
   exists k, F64.floor (F64.div F64.five L) = Some k /\ 0 <= k < 2 ^ 200 /\
             calibrate L batch_size = inr (1 + k)) /\
  (PyNum.gt_five (F64.mul L (F64.of_Z batch_size)) = false ->
   calibrate L batch_size = inr batch_size).
Proof.
  intros Hb.
  destruct (of_Z_pos_bound batch_size 63 Hb ltac:(lia)) as (mb & eb & Hf & Hmag).
  unfold calibrate, PyNum.mul_float_int, PyNum.float_of_int.
  rewrite Hf. cbn [PyNum.bind]. split; intros Hgt; rewrite Hgt; [|reflexivity].
  assert (0 < 2 ^ 200) by (apply Z.pow_pos_nonneg; lia).
  destruct (gt_five_mul L mb eb 64 Hmag Hgt) as [->|(mL & eL & -> & HE)].
  - exists 0. repeat split; try reflexivity; try lia.
  - unfold PyNum.div_int_float. rewrite float_of_int_five.
    cbn [PyNum.bind F64.is_zero].
    destruct (div_five_bound mL eL ltac:(lia)) as [->|(p & e & -> & Hq)].
    + exists 0. repeat split; try reflexivity; try lia.
    + destruct (trunc_finite_bound p e 200 ltac:(lia)
                  ltac:(unfold emin, F64.prec, F64.emax in *; lia))
        as (z & Hz & Hfl & Hz0).
      exists z. split; [exact Hfl|]. split; [exact Hz0|].
      unfold PyNum.int_of_float. rewrite Hz. reflexivity.
Qed.

(** [calibrate] never divides by zero and never yields a batch size
    below one. *)
Lemma calibrate_safe_gen (L : spec_float) (batch_size : Z) :
  1 <= batch_size ->
  calibrate L batch_size = inl OverflowError \/
  exists n, calibrate L batch_size = inr n /\ 1 <= n.
Proof.
  intros Hb. unfold calibrate, PyNum.mul_float_int.
  destruct (float_of_int_pos batch_size Hb) as [->|(m & e & ->)];
    [left; reflexivity|].
  cbn [PyNum.bind].
  destruct (PyNum.gt_five _) eqn:Hgt; [|right; eauto].
  destruct (gt_five_pos L _ m e eq_refl Hgt) as [Hpos Hnz].
  unfold PyNum.div_int_float. rewrite float_of_int_five.
  cbn [PyNum.bind]. rewrite Hnz. cbn [PyNum.bind].
  destruct (div_five_sign L Hpos) as [->|[[s ->]|(p & e' & ->)]].
  - left. reflexivity.
  - right. exists 1. split; [reflexivity | lia].
  - destruct (trunc_finite_nonneg p e') as (z & Hz & Hz0).
    right. exists (1 + z). unfold PyNum.int_of_float. rewrite Hz.
    split; [reflexivity | lia].
Qed.

Lemma calibrate_total (L : spec_float) (bs : Z) :
  (1 <= bs < 2 ^ 63)%Z ->
  exists n, calibrate L bs = inr n /\ (1 <= n < 2 ^ 1000)%Z.
Proof.
  intros Hb. destruct (calibrate_adaptive_gen L bs Hb) as [Hyes Hno].
  assert (2 ^ 200 < 2 ^ 1000)%Z by (apply Z.pow_lt_mono_r; lia).
  assert (2 ^ 63 < 2 ^ 200)%Z by (apply Z.pow_lt_mono_r; lia).
  destruct (PyNum.gt_five _) eqn:Hgt.
  - destruct (Hyes eq_refl) as (k & _ & Hk & ->). exists (1 + k)%Z.
    split; [reflexivity | lia].
  - rewrite (Hno eq_refl). exists bs. split; [reflexivity | lia].
Qed.

End CalibrateFacts.

(** * Facts about the harness *)

Section Exec.
Context `{H : Host}.

(** *** Running the harness step by step *)

Lemma bind_run {X Y} (c : M X) (k : X -> M Y) (w : world) :
  (c ≫= k) w = match c w with
               | (inl e, w') => (inl e, w')
               | (inr x, w') => k x w'
               end.
Proof. reflexivity. Qed.

Lemma run_ret {X Y} (x : X) (k : X -> M Y) (w : world) :
  (mret x ≫= k) w = k x w.
Proof. reflexivity. Qed.

Lemma run_gc_collect {Y} (k : unit -> M Y) (w : world) :
  (gc_collect ≫= k) w = k tt (emit EvGcCollect w).
Proof. reflexivity. Qed.

Lemma run_gc_disable {Y} (k : unit -> M Y) (w : world) :
  (gc_disable ≫= k) w
  = k tt (emit EvGcDisable (World (heap w) false (host_env w) (log w))).
Proof. reflexivity. Qed.

Lemma run_gc_enable {Y} (k : unit -> M Y) (w : world) :
  (gc_enable ≫= k) w
  = k tt (emit EvGcEnable (World (heap w) true (host_env w) (log w))).
Proof. reflexivity. Qed.

Lemma run_print {Y} (k : unit -> M Y) (w : world) :
  (print ≫= k) w = k tt (emit EvPrint w).
Proof. reflexivity. Qed.

Lemma run_verbose_print {Y} (verbose : bool) (k : unit -> M Y) (w : world) :
  ((if verbose then print else mret tt) ≫= k) w
  = k tt (if verbose then emit EvPrint w else w).
Proof. destruct verbose; reflexivity. Qed.

Lemma run_timer_now {Y} (tm : Timer) (k : timepoint -> M Y) (w : world) :
  (timer_now tm ≫= k) w
  = k (now tm (host_env w)).1
      (emit (EvNow (now tm (host_env w)).1)
         (World (heap w) (gc_enabled w) (now tm (host_env w)).2 (log w))).
Proof.
  unfold mbind, M_bind, timer_now. destruct (now tm (host_env w)); reflexivity.
Qed.

Lemma run_call {Y} (func : pyfunc) (buf : loc) (kw : kwargs_t)
    (k : result -> M Y) (w : world) :
  (call func buf kw ≫= k) w
  = let r := func (read buf w) kw (host_env w) in
    let w' := emit (EvCall buf (read buf w) r.1.1)
                (World (<[buf := r.1.2]> (heap w)) (gc_enabled w) r.2
                       (log w)) in
    match r.1.1 with
    | inl e => (inl (Raised e), w')
    | inr v => k v w'
    end.
Proof.
  unfold mbind, M_bind, call.
  destruct (func (read buf w) kw (host_env w)) as [[[e|v] after] s];
    reflexivity.
Qed.

Lemma run_copyto {Y} (dst src : loc) (k : unit -> M Y) (w : world) :
  (np_copyto dst src ≫= k) w
  = if Nat.eqb (length (read dst w)) (length (read src w)) then
      k tt (emit (EvCopy dst src)
              (World (<[dst := read src w]> (heap w)) (gc_enabled w)
                     (host_env w) (log w)))
    else (inl (Builtin ValueError), w).
Proof.
  unfold mbind, M_bind, np_copyto.
  destruct (Nat.eqb _ _); reflexivity.
Qed.

Lemma run_lift {X Y} (r : PyNum.res X) (k : X -> M Y) (w : world) :
  (lift r ≫= k) w = match r with
                    | inl b => (inl (Builtin b), w)
                    | inr x => k x w
                    end.
Proof. destruct r; reflexivity. Qed.

Lemma run_setitem {Y} (times : list spec_float) (i : nat) (v : spec_float)
    (k : list spec_float -> M Y) (w : world) :
  (setitem times i v ≫= k) w
  = if Nat.ltb i (length times) then k (<[i := v]> times) w
    else (inl (Builtin IndexError), w).
Proof. unfold setitem. destruct (Nat.ltb _ _); reflexivity. Qed.

Lemma ret_run {X} (x : X) (w : world) : mret (M := M) x w = (inr x, w).
Proof. reflexivity. Qed.

Lemma returned_run {X} (c : M X) (w : world) :
  returned (c w) = true -> exists r, c w = (inr r, (c w).2).
Proof.
  unfold returned. destruct (c w) as [[e|r] w']; [discriminate|]. eauto.
Qed.

(** Loop invariants: [J] holds between iterations, [E] at a raise. *)
Lemma for_range_inv {X} (J : nat -> X -> world -> Prop)
    (E : exn -> world -> Prop) (body : nat -> X -> M X) (n : nat) :
  forall (i0 : nat) (acc : X) (w : world),
    J i0 acc w ->
    (forall i a w1, i0 <= i < i0 + n -> J i a w1 ->
       match body i a w1 with
       | (inr a', w2) => J (S i) a' w2
       | (inl e, w2) => E e w2
       end) ->
    match for_range n i0 body acc w with
    | (inr a', w') => J (i0 + n) a' w'
    | (inl e, w') => E e w'
    end.
Proof.
  induction n as [|n IH]; intros i0 acc w HJ Hbody; simpl for_range.
  - rewrite ret_run, Nat.add_0_r. exact HJ.
  - rewrite bind_run.
    pose proof (Hbody i0 acc w ltac:(lia) HJ) as Hb.
    destruct (body i0 acc w) as [[e|a'] w1]; [exact Hb|].
    replace (i0 + S n) with (S i0 + n) by lia.
    apply IH; [exact Hb|]. intros i a w2 Hi. apply Hbody. lia.
Qed.

End Exec.

Section Events.
Context `{H : Host}.
Variables (func : pyfunc) (tm : Timer) (buf x : loc) (kw : kwargs_t)
          (xs : list elem).
Hypothesis buf_fresh : buf <> x.

Lemma keeps_refl (r : bool) (w : world) :
  heap w !! x = Some xs -> keeps buf x xs r w w.
Proof.
  intros Hx. split; [exact Hx|]. exists []. rewrite app_nil_r. auto.
Qed.

Lemma keeps_emit (r : bool) (w0 w : world) (ev : event)
    (h : gmap loc (list elem)) (g : bool) (s : env) :
  keeps buf x xs r w0 w -> allowed buf x xs r ev -> h !! x = Some xs ->
  keeps buf x xs r w0 (emit ev (World h g s (log w))).
Proof.
  intros [_ (new & Hlog & Hall)] Hev Hx. split; [exact Hx|].
  exists (new ++ [ev]). cbn. rewrite Hlog, app_assoc. split; [reflexivity|].
  apply Forall_app. split; [exact Hall|]. constructor; [exact Hev | constructor].
Qed.

Lemma keeps_print (r verbose : bool) (w0 w : world) :
  keeps buf x xs r w0 w ->
  keeps buf x xs r w0 (if verbose then emit EvPrint w else w).
Proof.
  intros Hk. destruct verbose; [|exact Hk]. destruct w as [h g s l].
  apply (keeps_emit r w0 (World h g s l)); [exact Hk | exact I | apply Hk].
Qed.

Lemma refresh_step_keeps (st : spec_float * result) (w0 w : world) :
  keeps buf x xs true w0 w ->
  keeps buf x xs true w0 (refresh_step func tm buf x kw st w).2.
Proof.
  intros Hk. pose proof Hk as [Hx _]. unfold refresh_step.
  rewrite run_copyto. destruct (Nat.eqb _ _); [|exact Hk].
  assert (Hrx : read x w = xs) by (unfold read; rewrite Hx; reflexivity).
  rewrite Hrx.
  rewrite run_timer_now, run_call. cbv zeta.
  set (w1 := emit (EvCopy buf x) _).
  assert (H1 : keeps buf x xs true w0 w1).
  { apply keeps_emit; [exact Hk | repeat split | ].
    rewrite lookup_insert_ne by exact buf_fresh. exact Hx. }
  set (w2 := emit (EvNow _) _).
  assert (H2 : keeps buf x xs true w0 w2)
    by (apply (keeps_emit true w0 w1); [exact H1 | exact I | apply H1]).
  assert (Hrb : read buf w2 = xs).
  { unfold read, w2, w1. cbn. rewrite lookup_insert_eq. reflexivity. }
  rewrite Hrb.
  set (f := func xs kw (host_env w2)).
  set (w3 := emit (EvCall buf xs f.1.1) _).
  assert (H3 : keeps buf x xs true w0 w3).
  { apply (keeps_emit true w0 w2); [exact H2 | split; auto | ].
    rewrite lookup_insert_ne by exact buf_fresh. apply H2. }
  destruct f.1.1 as [e|v]; [exact H3|].
  rewrite run_timer_now, ret_run. cbn [snd].
  apply (keeps_emit true w0 w3); [exact H3 | exact I | apply H3].
Qed.

Lemma call_keeps (w0 w : world) :
  keeps buf x xs false w0 w ->
  keeps buf x xs false w0 (call func buf kw w).2.
Proof.
  intros Hk. unfold call.
  destruct (func (read buf w) kw (host_env w)) as [[out after] s].
  assert (keeps buf x xs false w0
            (emit (EvCall buf (read buf w) out)
               (World (<[buf := after]> (heap w)) (gc_enabled w) s (log w)))).
  { apply keeps_emit; [exact Hk | split; [reflexivity | discriminate] | ].
    rewrite lookup_insert_ne by exact buf_fresh. apply Hk. }
  destruct out; assumption.
Qed.

Lemma batch_keeps (r : bool) (actual : Z) (res : result) (w0 w : world) :
  keeps buf x xs r w0 w ->
  keeps buf x xs r w0 (batch func tm buf x kw r actual res w).2.
Proof.
  intros Hk. unfold batch. destruct r.
  - pose proof (for_range_inv
                  (fun _ _ w1 => keeps buf x xs true w0 w1)
                  (fun _ w1 => keeps buf x xs true w0 w1)
                  (fun _ st => refresh_step func tm buf x kw st)
                  (Z.to_nat actual) 0 (F64.zero, res) w Hk) as Hloop.
    destruct (for_range _ _ _ _ w) as [[e|a] w1]; apply Hloop;
      intros i a' w2 _ Hk2;
      pose proof (refresh_step_keeps a' w0 w2 Hk2) as Hs;
      destruct (refresh_step _ _ _ _ _ a' w2) as [[?|?] ?]; exact Hs.
  - rewrite run_timer_now, bind_run.
    set (w1 := emit (EvNow _) _).
    assert (H1 : keeps buf x xs false w0 w1)
      by (apply keeps_emit; [exact Hk | exact I | apply Hk]).
    pose proof (for_range_inv
                  (fun _ _ w2 => keeps buf x xs false w0 w2)
                  (fun _ w2 => keeps buf x xs false w0 w2)
                  (fun _ _ => call func buf kw)
                  (Z.to_nat actual) 0 res w1 H1) as Hloop.
    destruct (for_range _ _ _ _ w1) as [[e|a] w2].
    + apply Hloop. intros i a' w3 _ Hk3.
      pose proof (call_keeps w0 w3 Hk3) as Hs.
      destruct (call _ _ _ w3) as [[?|?] ?]; exact Hs.
    + rewrite run_timer_now, ret_run. cbn [snd].
      apply keeps_emit; [|exact I|].
      * apply Hloop. intros i a' w3 _ Hk3.
        pose proof (call_keeps w0 w3 Hk3) as Hs.
        destruct (call _ _ _ w3) as [[?|?] ?]; exact Hs.
      * assert (Hk2 : keeps buf x xs false w0 w2).
        { apply Hloop. intros i a' w3 _ Hk3.
          pose proof (call_keeps w0 w3 Hk3) as Hs.
          destruct (call _ _ _ w3) as [[?|?] ?]; exact Hs. }
        apply Hk2.
Qed.

Lemma repetition_keeps (r : bool) (actual : Z) (i : nat)
    (st : list spec_float * result) (w0 w : world) :
  keeps buf x xs r w0 w ->
  keeps buf x xs r w0 (repetition func tm buf x kw r actual i st w).2.
Proof.
  intros Hk. unfold repetition. rewrite bind_run.
  pose proof (batch_keeps r actual st.2 w0 w Hk) as Hb.
  destruct (batch _ _ _ _ _ _ _ _ w) as [[e|[time_tot res]] w1]; [exact Hb|].
  cbn [snd] in Hb. rewrite run_lift.
  destruct (PyNum.div_float_int _ _) as [b|v]; [exact Hb|].
  rewrite run_setitem. destruct (Nat.ltb _ _); exact Hb.
Qed.

(** Whatever the timed region does and however it ends, [x] keeps its
    contents and the log grows by allowed events only. *)
Lemma measure_keeps (bs reps : Z) (r verbose : bool)
    (times : list spec_float) (w : world) :
  heap w !! x = Some xs -> heap w !! buf = Some xs ->
  keeps buf x xs r w (measure func tm buf x kw bs reps r verbose times w).2.
Proof.
  intros Hx Hb. pose proof (keeps_refl r w Hx) as Hk.
  unfold measure.
  rewrite run_gc_collect, run_gc_disable, run_timer_now, run_call. cbv zeta.
  set (w1 := emit EvGcCollect w).
  assert (H1 : keeps buf x xs r w w1).
  { destruct w as [h g s l].
    apply (keeps_emit r _ (World h g s l)); [exact Hk | exact I | exact Hx]. }
  set (w2 := emit EvGcDisable _).
  assert (H2 : keeps buf x xs r w w2)
    by (apply (keeps_emit r w w1); [exact H1 | exact I | apply H1]).
  set (w3 := emit (EvNow _) _).
  assert (H3 : keeps buf x xs r w w3)
    by (apply (keeps_emit r w w2); [exact H2 | exact I | apply H2]).
  assert (Hrb : read buf w3 = xs) by (unfold read; cbn; rewrite Hb; reflexivity).
  rewrite Hrb.
  set (f := func xs kw (host_env w3)).
  set (w4 := emit (EvCall buf xs f.1.1) _).
  assert (H4 : keeps buf x xs r w w4).
  { apply (keeps_emit r w w3); [exact H3 | split; auto | ].
    rewrite lookup_insert_ne by exact buf_fresh. apply H3. }
  destruct f.1.1 as [e|res]; [exact H4|].
  rewrite run_timer_now.
  set (w5 := emit (EvNow _) _).
  assert (H5 : keeps buf x xs r w w5)
    by (apply (keeps_emit r w w4); [exact H4 | exact I | apply H4]).
  rewrite run_lift. destruct (calibrate _ _) as [b|actual]; [exact H5|].
  rewrite run_verbose_print, bind_run.
  pose proof (keeps_print r verbose w w5 H5) as H6.
  set (w6 := if verbose then _ else _) in *.
  pose proof (for_range_inv
                (fun _ _ w' => keeps buf x xs r w w')
                (fun _ w' => keeps buf x xs r w w')
                (repetition func tm buf x kw r actual)
                (Z.to_nat reps) 0 (times, res) w6 H6) as Hloop.
  assert (Hbody : forall i a w1', 0 <= i < 0 + Z.to_nat reps ->
            keeps buf x xs r w w1' ->
            match repetition func tm buf x kw r actual i a w1' with
            | (inl _, w2') | (inr _, w2') => keeps buf x xs r w w2'
            end).
  { intros i a w1' _ Hk1.
    pose proof (repetition_keeps r actual i a w w1' Hk1) as Hs.
    destruct (repetition _ _ _ _ _ _ _ _ _ w1') as [[?|?] ?]; exact Hs. }
  specialize (Hloop Hbody).
  destruct (for_range _ _ _ _ w6) as [[e|st] w7]; [exact Hloop|].
  rewrite run_gc_enable, ret_run. cbn [snd].
  apply (keeps_emit r w w7); [exact Hloop | exact I | apply Hloop].
Qed.

End Events.

Section Prelude.
Context `{H : Host}.

Lemma run_resolve {Y} (timer : option Timer) (verbose : bool)
    (k : Timer -> M Y) (w : world) :
  (match timer with
   | Some t => mret t
   | None =>
       t ← lift (get_timer default_time_modules);
       (if verbose then print else mret tt);;
       mret t
   end ≫= k) w
  = match timer with
    | Some t => k t w
    | None =>
        match get_timer default_time_modules with
        | inl b => (inl (Builtin b), w)
        | inr t => k t (if verbose then emit EvPrint w else w)
        end
    end.
Proof.
  destruct timer as [t|]; [reflexivity|].
  rewrite bind_run, run_lift.
  destruct (get_timer default_time_modules) as [b|t]; [reflexivity|].
  rewrite run_verbose_print, ret_run. reflexivity.
Qed.

(** [np.empty] returns for a length that numpy accepts and that the host
    has the memory for; the world is as it was. *)
Lemma np_empty_returns (n : Z) (w : world) :
  (0 <= n < 2 ^ 60)%Z -> can_allocate (8 * n) = true ->
  np_empty n w = (inr (replicate (Z.to_nat n) junk_time), w).
Proof.
  intros Hn Hmem. unfold np_empty.
  destruct (Z.ltb_spec n 0) as [|_]; [lia|].
  destruct (Z.leb_spec (2 ^ 60) n) as [|_]; [lia|].
  rewrite Hmem. reflexivity.
Qed.

(** For any other length it raises, whatever the world, and leaves the
    world as it was. *)
Lemma np_empty_cases (n : Z) :
  (exists b, forall w : world, np_empty n w = (inl (Builtin b), w)) \/
  ((0 <= n < 2 ^ 60)%Z /\ can_allocate (8 * n) = true).
Proof.
  unfold np_empty.
  destruct (Z.ltb_spec n 0) as [|Hn]; [left; exists ValueError; reflexivity|].
  destruct (Z.leb_spec (2 ^ 60) n) as [|Hbig];
    [left; exists ValueError; reflexivity|].
  destruct (can_allocate (8 * n));
    [right; split; [lia | reflexivity] | left; exists MemoryError; reflexivity].
Qed.

(** A run that passes the checks of the arguments and has its series
    allocated is a run of the timed region, from a world in which the
    buffer is allocated and filled. *)
Lemma time_func_prelude (func : pyfunc) (xl : loc) (xs : list elem)
    (kw : kwargs_t) (timer : option Timer) (tm : Timer) (bs reps : Z)
    (refresh verbose : bool) (w : world) :
  timer_resolves timer tm -> (0 <= reps < 2 ^ 60)%Z ->
  can_allocate (8 * reps) = true -> heap w !! xl = Some xs ->
  let buf := fresh (dom (heap w)) in
  buf <> xl /\
  time_func func (Ndarray xl) (Dict kw) timer bs reps refresh verbose w
  = measure func tm buf xl kw bs reps refresh verbose
      (replicate (Z.to_nat reps) junk_time)
      (World (<[buf := xs]> (heap w)) (gc_enabled w) (host_env w)
         (log w ++ prelude_prints timer verbose
                ++ [EvAlloc buf; EvCopy buf xl])).
Proof.
  intros Htm Hreps Hmem Hx buf.
  assert (Hne : buf <> xl).
  { intros Heq. apply (is_fresh (dom (heap w))). fold buf. rewrite Heq.
    apply elem_of_dom. eauto. }
  split; [exact Hne|].
  unfold time_func. rewrite !run_ret, run_resolve.
  assert (Hrun : forall w0 : world,
            heap w0 = heap w -> gc_enabled w0 = gc_enabled w ->
            host_env w0 = host_env w ->
            (times_list ← np_empty reps;
             b ← np_empty_like xl;
             np_copyto b xl;;
             measure func tm b xl kw bs reps refresh verbose times_list) w0
            = measure func tm buf xl kw bs reps refresh verbose
                (replicate (Z.to_nat reps) junk_time)
                (World (<[buf := xs]> (heap w)) (gc_enabled w) (host_env w)
                   (log w0 ++ [EvAlloc buf; EvCopy buf xl]))).
  { intros w0 Hh Hg Hs. rewrite bind_run, (np_empty_returns _ _ Hreps Hmem).
    rewrite bind_run. unfold np_empty_like. rewrite Hh. fold buf.
    rewrite run_copyto. unfold read, emit. cbn [heap log gc_enabled host_env].
    rewrite lookup_insert_eq, lookup_insert_ne by exact Hne.
    rewrite Hh, Hx. cbn [default from_option id].
    rewrite length_fmap, Nat.eqb_refl.
    rewrite insert_insert_eq, Hg, Hs, <- app_assoc. reflexivity. }
  destruct timer as [t|]; simpl in Htm.
  - subst t. rewrite Hrun by reflexivity. simpl prelude_prints. reflexivity.
  - rewrite Htm. destruct verbose.
    + rewrite Hrun by reflexivity. cbn [log emit prelude_prints].
      rewrite <- !app_assoc. reflexivity.
    + rewrite Hrun by reflexivity. reflexivity.
Qed.

(** A run that returns is a run of the timed region that returns. *)
Lemma time_func_returns (func : pyfunc) (x kwargs : pyval)
    (timer : option Timer) (bs reps : Z) (refresh verbose : bool)
    (w w' : world) (r : list spec_float * result) :
  time_func func x kwargs timer bs reps refresh verbose w = (inr r, w') ->
  exists xl kw tm buf w1,
    x = Ndarray xl /\ kwargs = Dict kw /\ timer_resolves timer tm /\
    (0 <= reps)%Z /\
    log w1 = log w ++ prelude_prints timer verbose
                   ++ [EvAlloc buf; EvCopy buf xl] /\
    measure func tm buf xl kw bs reps refresh verbose
      (replicate (Z.to_nat reps) junk_time) w1 = (inr r, w').
Proof.
  unfold time_func. intros Hrun.
  destruct x as [xl| |]; [|discriminate..].
  destruct kwargs as [|kw|]; [discriminate| |discriminate].
  rewrite !run_ret, run_resolve in Hrun.
  assert (Hrest : forall (tm : Timer) (w0 : world),
            (times_list ← np_empty reps;
             b ← np_empty_like xl;
             np_copyto b xl;;
             measure func tm b xl kw bs reps refresh verbose times_list) w0
            = (inr r, w') ->
            exists buf w1,
              (0 <= reps)%Z /\
              log w1 = log w0 ++ [EvAlloc buf; EvCopy buf xl] /\
              measure func tm buf xl kw bs reps refresh verbose
                (replicate (Z.to_nat reps) junk_time) w1 = (inr r, w')).
  { intros tm w0. rewrite bind_run.
    destruct (np_empty_cases reps) as [[b Hb]|[Hreps Hmem]];
      [rewrite Hb; discriminate|].
    rewrite (np_empty_returns _ _ Hreps Hmem), bind_run.
    unfold np_empty_like.
    rewrite run_copyto. destruct (Nat.eqb _ _); [|discriminate].
    intros Hm. eexists _, _. split; [lia|]. split; [|exact Hm].
    cbn [log emit]. rewrite <- app_assoc. reflexivity. }
  destruct timer as [t|].
  - destruct (Hrest t w Hrun) as (buf & w1 & Hreps & Hlog & Hm).
    exists xl, kw, t, buf, w1. repeat split; auto.
  - destruct (get_timer default_time_modules) as [b|t] eqn:Hget;
      [discriminate|].
    destruct (Hrest t _ Hrun) as (buf & w1 & Hreps & Hlog & Hm).
    exists xl, kw, t, buf, w1. repeat split; auto.
    rewrite Hlog. destruct verbose; cbn [log emit prelude_prints];
      rewrite <- ?app_assoc; reflexivity.
Qed.

(** A run that returns had its series allocated. *)
Lemma time_func_returns_allocated (func : pyfunc) (x kwargs : pyval)
    (timer : option Timer) (bs reps : Z) (refresh verbose : bool)
    (w w' : world) (r : list spec_float * result) :
  time_func func x kwargs timer bs reps refresh verbose w = (inr r, w') ->
  (0 <= reps < 2 ^ 60)%Z /\ can_allocate (8 * reps) = true.
Proof.
  unfold time_func. intros Hrun.
  destruct (np_empty_cases reps) as [[b Hb]|Hok]; [exfalso|exact Hok].
  destruct x as [xl| |]; [|discriminate..].
  destruct kwargs as [|kw|]; [discriminate| |discriminate].
  rewrite !run_ret, run_resolve in Hrun.
  destruct timer as [t|].
  - rewrite bind_run, Hb in Hrun. discriminate.
  - destruct (get_timer default_time_modules) as [b'|t]; [discriminate|].
    rewrite bind_run, Hb in Hrun. discriminate.
Qed.

End Prelude.

Section Counts.
Context `{H : Host}.
Variables (func : pyfunc) (tm : Timer) (buf x : loc) (kw : kwargs_t).

Lemma count_calls_snoc (l : list event) (ev : event) :
  count_calls (l ++ [ev]) = count_calls l + (if is_call ev then 1 else 0).
Proof.
  unfold count_calls. rewrite List.filter_app, length_app. simpl.
  destruct (is_call ev); reflexivity.
Qed.

Lemma count_calls_app (l1 l2 : list event) :
  count_calls (l1 ++ l2) = count_calls l1 + count_calls l2.
Proof. unfold count_calls. rewrite List.filter_app, length_app. reflexivity. Qed.

Lemma last_call_snoc (l : list event) (ev : event) :
  last_call (l ++ [ev])
  = match ev with EvCall _ _ out => Some out | _ => last_call l end.
Proof.
  unfold last_call. rewrite omap_app.
  destruct ev; simpl; rewrite ?app_nil_r, ?last_snoc; reflexivity.
Qed.

Lemma counted_now (n : nat) (res : result) (w w1 : world)
    (h : gmap loc (list elem)) (g : bool) (s : env) (ev : event) :
  counted n res w w1 -> is_call ev = false ->
  counted n res w (emit ev (World h g s (log w1))).
Proof.
  intros (Hc & Hl & Hp) Hev. unfold counted. cbn [log emit].
  rewrite count_calls_snoc, last_call_snoc, Hev.
  split; [lia|]. split.
  - destruct ev; try exact Hl; discriminate.
  - etrans; [exact Hp | apply prefix_app_r; reflexivity].
Qed.

Lemma refresh_step_counts (st : spec_float * result) (w : world) :
  match refresh_step func tm buf x kw st w with
  | (inr st', w') => counted 1 st'.2 w w'
  | (inl _, _) => True
  end.
Proof.
  unfold refresh_step. rewrite run_copyto.
  destruct (Nat.eqb _ _); [|exact I].
  rewrite run_timer_now, run_call. cbv zeta.
  set (w1 := emit (EvCopy buf x) _). set (w2 := emit (EvNow _) _).
  set (f := func _ _ _). set (w3 := emit (EvCall _ _ _) _).
  destruct f.1.1 as [e|v] eqn:Hout; [exact I|].
  rewrite run_timer_now, ret_run. cbn [snd].
  apply (counted_now 1 v w w3); [|reflexivity].
  unfold counted, w3, w2, w1. cbn [log emit].
  rewrite !count_calls_snoc, !last_call_snoc. cbn [is_call].
  split; [lia|]. split; [reflexivity|].
  rewrite <- !app_assoc. apply prefix_app_r. reflexivity.
Qed.

Lemma call_counts (w : world) :
  match call func buf kw w with
  | (inr res, w') => counted 1 res w w'
  | (inl _, _) => True
  end.
Proof.
  unfold call.
  destruct (func (read buf w) kw (host_env w)) as [[[e|v] after] s];
    [exact I|].
  unfold counted. cbn [log emit].
  rewrite count_calls_snoc, last_call_snoc. cbn [is_call].
  split; [lia|]. split; [reflexivity|]. apply prefix_app_r. reflexivity.
Qed.

Lemma counted_trans (n m : nat) (r1 r2 : result) (w w1 w2 : world) :
  counted n r1 w w1 -> counted m r2 w1 w2 -> counted (n + m) r2 w w2.
Proof.
  intros (Hc1 & _ & Hp1) (Hc2 & Hl2 & Hp2). unfold counted.
  split; [lia|]. split; [exact Hl2|]. etrans; eassumption.
Qed.

Lemma batch_counts (r : bool) (actual : Z) (res : result) (w : world) :
  last_call (log w) = Some (inr res) ->
  match batch func tm buf x kw r actual res w with
  | (inr st', w') => counted (Z.to_nat actual) st'.2 w w'
  | (inl _, _) => True
  end.
Proof.
  intros Hlast. unfold batch.
  assert (H0 : counted 0 res w w)
    by (unfold counted; rewrite Nat.add_0_r; auto).
  destruct r.
  - pose proof (for_range_inv
                  (fun i st w1 => counted i st.2 w w1) (fun _ _ => True)
                  (fun _ st => refresh_step func tm buf x kw st)
                  (Z.to_nat actual) 0 (F64.zero, res) w H0) as Hloop.
    destruct (for_range _ _ _ _ w) as [[e|st'] w1]; [exact I|].
    apply Hloop. intros i a w1' _ Hc.
    pose proof (refresh_step_counts a w1') as Hs.
    destruct (refresh_step _ _ _ _ _ a w1') as [[?|st''] w2]; [exact I|].
    replace (S i) with (i + 1) by lia. eapply counted_trans; eassumption.
  - rewrite run_timer_now, bind_run.
    set (w1 := emit (EvNow _) _).
    assert (H1 : counted 0 res w w1).
    { destruct w as [h g s l].
      apply (counted_now 0 res _ (World h g s l)); [exact H0 | reflexivity]. }
    pose proof (for_range_inv
                  (fun i res' w2 => counted i res' w w2) (fun _ _ => True)
                  (fun _ _ => call func buf kw)
                  (Z.to_nat actual) 0 res w1 H1) as Hloop.
    destruct (for_range _ _ _ _ w1) as [[e|res'] w2]; [exact I|].
    rewrite run_timer_now, ret_run. cbn [snd].
    apply counted_now; [|reflexivity].
    apply Hloop. intros i a w1' _ Hc.
    pose proof (call_counts w1') as Hs.
    destruct (call _ _ _ w1') as [[?|res''] w3]; [exact I|].
    replace (S i) with (i + 1) by lia. eapply counted_trans; eassumption.
Qed.

Lemma repetition_counts (r : bool) (actual : Z) (i : nat)
    (st : list spec_float * result) (w : world) :
  last_call (log w) = Some (inr st.2) ->
  match repetition func tm buf x kw r actual i st w with
  | (inr st', w') =>
      counted (Z.to_nat actual) st'.2 w w' /\ length st'.1 = length st.1
  | (inl _, _) => True
  end.
Proof.
  intros Hlast. unfold repetition. rewrite bind_run.
  pose proof (batch_counts r actual st.2 w Hlast) as Hb.
  destruct (batch _ _ _ _ _ _ _ _ w) as [[e|[time_tot res]] w1]; [exact I|].
  rewrite run_lift. destruct (PyNum.div_float_int _ _) as [b|v]; [exact I|].
  rewrite run_setitem. destruct (Nat.ltb _ _); [|exact I].
  rewrite ret_run. cbn [fst snd] in *. split; [exact Hb|].
  apply length_insert.
Qed.

(** The calls of a timed region that returns. *)
Lemma measure_counts (bs reps : Z) (r verbose : bool)
    (times0 times : list spec_float) (res : result) (w w' : world) :
  measure func tm buf x kw bs reps r verbose times0 w = (inr (times, res), w') ->
  exists t0 t1 actual r0,
    calibrate (time_delta tm t0 t1) bs = inr actual /\
    count_calls (log w')
      = count_calls (log w) + 1 + Z.to_nat reps * Z.to_nat actual /\
    length times = length times0 /\
    last_call (log w') = Some (inr res) /\
    gc_enabled w' = true /\
    (Z.to_nat reps = 0 -> times = times0 /\ res = r0) /\
    (log w ++ [EvGcCollect; EvGcDisable; EvNow t0;
               EvCall buf (read buf w) (inr r0); EvNow t1])
      `prefix_of` log w'.
Proof.
  unfold measure.
  rewrite run_gc_collect, run_gc_disable, run_timer_now, run_call. cbv zeta.
  set (w1 := emit EvGcCollect w). set (w2 := emit EvGcDisable _).
  set (w3 := emit (EvNow _) _).
  set (t0 := (now tm (host_env w2)).1).
  set (f := func _ _ _). clearbody f. set (w4 := emit (EvCall _ _ _) _).
  destruct f.1.1 as [e|r0] eqn:Hout; [discriminate|].
  rewrite run_timer_now.
  set (w5 := emit (EvNow _) _). set (t1 := (now tm (host_env w4)).1).
  rewrite run_lift. destruct (calibrate _ _) as [b|actual] eqn:Hcal;
    [discriminate|].
  rewrite run_verbose_print, bind_run.
  set (w6 := if verbose then _ else _).
  assert (Hlog5 : log w5 = log w ++ [EvGcCollect; EvGcDisable; EvNow t0;
                                      EvCall buf (read buf w) (inr r0);
                                      EvNow t1]).
  { unfold w5, w4, w3, w2, w1. cbn [log emit].
    rewrite <- !app_assoc. reflexivity. }
  clearbody w5 t0 t1.
  assert (H6 : counted 1 r0 w w6).
  { assert (H5 : counted 1 r0 w w5).
    { unfold counted. rewrite Hlog5. rewrite count_calls_app.
      split; [reflexivity|]. split; [|apply prefix_app_r; reflexivity].
      unfold last_call. rewrite omap_app. simpl omap.
      apply (last_snoc (inr r0)). }
    unfold w6. destruct verbose; [|exact H5].
    destruct w5 as [h g s l].
    apply (counted_now 1 r0 w (World h g s l)); [exact H5 | reflexivity]. }
  assert (Hp6 : log w5 `prefix_of` log w6).
  { unfold w6. destruct verbose; [|reflexivity]. cbn [log emit].
    apply prefix_app_r. reflexivity. }
  pose proof (for_range_inv
                (fun i st w7 =>
                   counted (1 + i * Z.to_nat actual) st.2 w w7 /\
                   length st.1 = length times0 /\
                   log w6 `prefix_of` log w7 /\
                   (i = 0 -> st = (times0, r0)))
                (fun _ _ => True)
                (repetition func tm buf x kw r actual)
                (Z.to_nat reps) 0 (times0, r0) w6) as Hloop.
  destruct (for_range _ _ _ _ w6) as [[e|st] w7]; [discriminate|].
  rewrite run_gc_enable, ret_run. intros [= -> <-].
  destruct Hloop as (Hc & Hlen & Hp & Hzero).
  { cbn [fst snd]. rewrite Nat.add_0_r. auto. }
  { intros i a w1' _ (Hc & Hlen & Hp & _).
    pose proof (repetition_counts r actual i a w1' (proj1 (proj2 Hc))) as Hs.
    destruct (repetition _ _ _ _ _ _ _ _ _ w1') as [[?|st'] w2']; [exact I|].
    destruct Hs as [Hs Hlen']. split.
    - replace (1 + S i * Z.to_nat actual)
        with (1 + i * Z.to_nat actual + Z.to_nat actual) by lia.
      eapply counted_trans; eassumption.
    - split; [congruence|]. split; [|lia].
      etrans; [exact Hp | apply Hs]. }
  exists t0, t1, actual, r0. destruct Hc as (Hc & Hl & _).
  cbn [log emit gc_enabled fst snd] in *.
  rewrite count_calls_snoc, last_call_snoc. cbn [is_call].
  split; [exact Hcal|]. split; [lia|]. split; [exact Hlen|].
  split; [exact Hl|]. split; [reflexivity|]. split.
  - intros Hz. rewrite Hz in Hzero. simpl in Hzero.
    specialize (Hzero eq_refl). injection Hzero as -> ->. auto.
  - rewrite <- Hlog5. etrans; [exact Hp6|]. etrans; [exact Hp|].
    apply prefix_app_r. reflexivity.
Qed.

End Counts.

Section Total.
Context `{H : Host}.
Variables (func : pyfunc) (tm : Timer) (buf x : loc) (kw : kwargs_t)
          (xs : list elem).
Hypothesis buf_fresh : buf <> x.
Hypothesis func_returns : func_total func.

Lemma shaped_emit (w : world) (ev : event) (g : bool) (s : env) :
  shaped buf x xs w ->
  shaped buf x xs (emit ev (World (heap w) g s (log w))).
Proof. intros Hs. exact Hs. Qed.

Lemma shaped_write (w : world) (ev : event) (g : bool) (s : env)
    (c : list elem) :
  shaped buf x xs w -> length c = length xs ->
  shaped buf x xs (emit ev (World (<[buf := c]> (heap w)) g s (log w))).
Proof.
  intros [Hx _] Hc. split; cbn [heap emit].
  - rewrite lookup_insert_ne by exact buf_fresh. exact Hx.
  - exists c. rewrite lookup_insert_eq. auto.
Qed.

Lemma read_shaped (w : world) :
  shaped buf x xs w -> read x w = xs /\ length (read buf w) = length xs.
Proof.
  intros [Hx (c & Hb & Hc)]. unfold read. rewrite Hx, Hb. auto.
Qed.

Lemma call_total (w : world) :
  shaped buf x xs w ->
  match call func buf kw w with
  | (inr _, w') => shaped buf x xs w'
  | (inl _, _) => False
  end.
Proof.
  intros Hs. unfold call.
  destruct (func_returns (read buf w) kw (host_env w))
    as (v & after & s' & -> & Hlen).
  apply shaped_write; [exact Hs|]. rewrite Hlen. apply (read_shaped w Hs).
Qed.

Lemma refresh_step_total (st : spec_float * result) (w : world) :
  shaped buf x xs w ->
  match refresh_step func tm buf x kw st w with
  | (inr _, w') => shaped buf x xs w'
  | (inl _, _) => False
  end.
Proof.
  intros Hs. destruct (read_shaped w Hs) as [Hrx Hrb].
  unfold refresh_step. rewrite run_copyto, Hrx, Hrb, Nat.eqb_refl.
  rewrite run_timer_now, bind_run.
  set (w1 := emit (EvCopy buf x) _).
  assert (H1 : shaped buf x xs w1) by (apply shaped_write; auto).
  set (w2 := emit (EvNow _) _).
  assert (H2 : shaped buf x xs w2) by (apply (shaped_emit w1); exact H1).
  pose proof (call_total w2 H2) as Hc.
  destruct (call func buf kw w2) as [[e|v] w3]; [exact Hc|].
  rewrite run_timer_now, ret_run. apply (shaped_emit w3). exact Hc.
Qed.

Lemma batch_total (r : bool) (actual : Z) (res : result) (w : world) :
  shaped buf x xs w ->
  match batch func tm buf x kw r actual res w with
  | (inr _, w') => shaped buf x xs w'
  | (inl _, _) => False
  end.
Proof.
  intros Hs. unfold batch. destruct r.
  - apply (for_range_inv (fun _ _ w1 => shaped buf x xs w1)
             (fun _ _ => False)); [exact Hs|].
    intros i a w1 _ H1. apply refresh_step_total. exact H1.
  - rewrite run_timer_now, bind_run.
    set (w1 := emit (EvNow _) _).
    assert (H1 : shaped buf x xs w1) by (apply (shaped_emit w); exact Hs).
    pose proof (for_range_inv (fun _ _ w2 => shaped buf x xs w2)
                  (fun _ _ => False) (fun _ _ => call func buf kw)
                  (Z.to_nat actual) 0 res w1 H1) as Hloop.
    destruct (for_range _ _ _ _ w1) as [[e|res'] w2].
    + apply Hloop. intros i a w3 _ H3. apply call_total. exact H3.
    + rewrite run_timer_now, ret_run. apply (shaped_emit w2).
      apply Hloop. intros i a w3 _ H3. apply call_total. exact H3.
Qed.

Lemma repetition_total (r : bool) (actual : Z) (i : nat)
    (st : list spec_float * result) (w : world) :
  (1 <= actual < 2 ^ 1000)%Z -> i < length st.1 ->
  shaped buf x xs w ->
  match repetition func tm buf x kw r actual i st w with
  | (inr st', w') => shaped buf x xs w' /\ length st'.1 = length st.1
  | (inl _, _) => False
  end.
Proof.
  intros Hact Hi Hs. unfold repetition. rewrite bind_run.
  pose proof (batch_total r actual st.2 w Hs) as Hb.
  destruct (batch _ _ _ _ _ _ _ _ w) as [[e|[time_tot res]] w1]; [exact Hb|].
  rewrite run_lift.
  destruct (div_float_int_small time_tot actual Hact) as (v & -> & _).
  rewrite run_setitem.
  destruct (Nat.ltb_spec i (length st.1)) as [_|]; [|lia].
  rewrite ret_run. cbn [fst]. split; [exact Hb | apply length_insert].
Qed.

(** With a function that always returns, the timed region returns. *)
Lemma measure_total (bs reps : Z) (r verbose : bool)
    (times0 : list spec_float) (w : world) :
  (1 <= bs < 2 ^ 63)%Z -> length times0 = Z.to_nat reps ->
  shaped buf x xs w ->
  exists st w', measure func tm buf x kw bs reps r verbose times0 w
                = (inr st, w').
Proof.
  intros Hbs Hlen Hs. unfold measure.
  rewrite run_gc_collect, run_gc_disable, run_timer_now, bind_run.
  set (w3 := emit (EvNow _) _).
  assert (H3 : shaped buf x xs w3) by exact Hs.
  pose proof (call_total w3 H3) as Hc.
  destruct (call func buf kw w3) as [[e|r0] w4]; [contradiction|].
  rewrite run_timer_now.
  set (w5 := emit (EvNow _) _).
  assert (H5 : shaped buf x xs w5) by (apply (shaped_emit w4); exact Hc).
  rewrite run_lift.
  match goal with
  | |- context [calibrate ?L bs] =>
      destruct (calibrate_total L bs Hbs) as (actual & -> & Hact)
  end.
  rewrite run_verbose_print, bind_run.
  set (w6 := if verbose then _ else _).
  assert (H6 : shaped buf x xs w6) by (unfold w6; destruct verbose; exact H5).
  pose proof (for_range_inv
                (fun _ st w7 =>
                   shaped buf x xs w7 /\ length st.1 = length times0)
                (fun _ _ => False)
                (repetition func tm buf x kw r actual)
                (Z.to_nat reps) 0 (times0, r0) w6 (conj H6 eq_refl)) as Hloop.
  destruct (for_range _ _ _ _ w6) as [[e|st] w7].
  - exfalso. apply Hloop. intros i a w1' Hi [Hs1 Hl1].
    pose proof (repetition_total r actual i a w1' Hact ltac:(lia) Hs1) as Hr.
    destruct (repetition _ _ _ _ _ _ _ _ _ w1') as [[?|st'] w2'];
      [exact Hr|].
    split; [apply Hr|]. destruct Hr as [_ ->]. exact Hl1.
  - rewrite run_gc_enable, ret_run. eauto.
Qed.

End Total.

Section Nonneg.
Context `{H : Host}.
Variables (func : pyfunc) (tm : Timer) (buf x : loc) (kw : kwargs_t).

Lemma nows_app (l1 l2 : list event) : nows (l1 ++ l2) = nows l1 ++ nows l2.
Proof. apply omap_app. Qed.

Lemma in_order_nonneg_app_l (a b : list timepoint) :
  in_order_nonneg tm (a ++ b) = true -> in_order_nonneg tm a = true.
Proof.
  induction a as [|t a IH]; simpl; [reflexivity|].
  rewrite !andb_true_iff, forallb_app, andb_true_iff. intros [[Ha _] Hr].
  auto.
Qed.

Lemma in_order_nonneg_pair (a b c : list timepoint) (t0 t1 : timepoint) :
  in_order_nonneg tm (a ++ t0 :: b ++ t1 :: c) = true ->
  F64.nonneg (time_delta tm t0 t1) = true.
Proof.
  induction a as [|t a IH]; simpl.
  - rewrite !andb_true_iff, forallb_app, andb_true_iff. simpl.
    rewrite andb_true_iff. intros [[_ [Hd _]] _]. exact Hd.
  - rewrite andb_true_iff. intros [_ Hr]. auto.
Qed.

Lemma guarded_extend (l0 : list event) (P P' : Prop) (w w' : world)
    (evs : list event) :
  guarded tm l0 P w -> log w' = log w ++ evs ->
  (forall new, P -> in_order_nonneg tm (nows (new ++ evs)) = true -> P') ->
  guarded tm l0 P' w'.
Proof.
  intros (new & Hlog & HP) Hlog' Hstep. exists (new ++ evs).
  rewrite Hlog', Hlog, app_assoc. split; [reflexivity|]. intros Hok.
  apply (Hstep new); [|exact Hok]. apply HP.
  rewrite nows_app in Hok. eapply in_order_nonneg_app_l. exact Hok.
Qed.

Lemma guarded_weaken (l0 : list event) (P P' : Prop) (w : world) :
  guarded tm l0 P w -> (P -> P') -> guarded tm l0 P' w.
Proof.
  intros (new & Hlog & HP) Himp. exists new. split; [exact Hlog|]. auto.
Qed.

Lemma refresh_step_nonneg (l0 : list event) (P : Prop)
    (st : spec_float * result) (w : world) :
  guarded tm l0 (P /\ F64.nonneg st.1 = true) w ->
  match refresh_step func tm buf x kw st w with
  | (inr st', w') => guarded tm l0 (P /\ F64.nonneg st'.1 = true) w'
  | (inl _, _) => True
  end.
Proof.
  intros Hg. unfold refresh_step. rewrite run_copyto.
  destruct (Nat.eqb _ _); [|exact I].
  rewrite run_timer_now, run_call. cbv zeta.
  set (w1 := emit (EvCopy buf x) _). set (w2 := emit (EvNow _) _).
  set (t0 := (now tm (host_env w1)).1).
  set (f := func _ _ _). clearbody f. set (w3 := emit (EvCall _ _ _) _).
  destruct f.1.1 as [e|v] eqn:Hout; [exact I|].
  rewrite run_timer_now, ret_run.
  set (t1 := (now tm (host_env w3)).1). cbn [fst snd].
  eapply (guarded_extend l0 _ _ w _
            [EvCopy buf x; EvNow t0; EvCall buf (read buf w2) (inr v);
             EvNow t1]); [exact Hg | |].
  - unfold w3, w2, w1. cbn [log emit]. rewrite <- !app_assoc. reflexivity.
  - intros new [HP Hst] Hok. split; [exact HP|].
    apply add_nonneg; [exact Hst|].
    rewrite nows_app in Hok. simpl in Hok.
    apply (in_order_nonneg_pair (nows new) [] [] t0 t1). exact Hok.
Qed.

Lemma call_extends (w : world) :
  log w `prefix_of` log (call func buf kw w).2.
Proof.
  unfold call.
  destruct (func (read buf w) kw (host_env w)) as [[[e|v] after] s];
    cbn [snd log emit]; apply prefix_app_r; reflexivity.
Qed.

Lemma batch_nonneg (l0 : list event) (P : Prop) (r : bool) (actual : Z)
    (res : result) (w : world) :
  guarded tm l0 P w ->
  match batch func tm buf x kw r actual res w with
  | (inr st', w') => guarded tm l0 (P /\ F64.nonneg st'.1 = true) w'
  | (inl _, _) => True
  end.
Proof.
  intros Hg. unfold batch. destruct r.
  - apply (for_range_inv
             (fun _ st w1 => guarded tm l0 (P /\ F64.nonneg st.1 = true) w1)
             (fun _ _ => True)).
    + eapply guarded_weaken; [exact Hg|]. intros HP. split; auto.
    + intros i a w1 _ H1. apply refresh_step_nonneg. exact H1.
  - rewrite run_timer_now, bind_run.
    set (w1 := emit (EvNow _) _). set (t0 := (now tm (host_env w)).1).
    assert (Hrefl : log w1 `prefix_of` log w1) by reflexivity.
    pose proof (for_range_inv
                  (fun _ _ w2 => log w1 `prefix_of` log w2)
                  (fun _ _ => True) (fun _ _ => call func buf kw)
                  (Z.to_nat actual) 0 res w1 Hrefl) as Hloop.
    destruct (for_range _ _ _ _ w1) as [[e|res'] w2]; [exact I|].
    rewrite run_timer_now, ret_run. cbn [fst snd].
    set (t1 := (now tm (host_env w2)).1).
    destruct Hloop as [cs Hcs].
    { intros i a w3 _ Hp. pose proof (call_extends w3) as Hc.
      destruct (call _ _ _ w3) as [[?|?] w4]; [exact I|].
      etrans; eassumption. }
    eapply (guarded_extend l0 _ _ w _ (EvNow t0 :: cs ++ [EvNow t1]));
      [exact Hg | |].
    + cbn [log emit]. rewrite Hcs. unfold w1. cbn [log emit].
      rewrite <- !app_assoc. reflexivity.
    + intros new HP Hok. split; [exact HP|].
      apply add_nonneg; [reflexivity|].
      rewrite nows_app in Hok. simpl in Hok. rewrite nows_app in Hok.
      simpl in Hok.
      apply (in_order_nonneg_pair (nows new) (nows cs) [] t0 t1). exact Hok.
Qed.

Lemma repetition_nonneg (l0 : list event) (r : bool) (actual : Z) (i : nat)
    (st : list spec_float * result) (w : world) :
  (1 <= actual)%Z ->
  guarded tm l0 (nonneg_upto i st.1) w ->
  match repetition func tm buf x kw r actual i st w with
  | (inr st', w') => guarded tm l0 (nonneg_upto (S i) st'.1) w'
  | (inl _, _) => True
  end.
Proof.
  intros Hact Hg. unfold repetition. rewrite bind_run.
  pose proof (batch_nonneg l0 _ r actual st.2 w Hg) as Hb.
  destruct (batch _ _ _ _ _ _ _ _ w) as [[e|[time_tot res]] w1]; [exact I|].
  rewrite run_lift.
  destruct (div_float_int_pos time_tot actual Hact) as [->|(v & -> & Hv)];
    [exact I|].
  rewrite run_setitem.
  destruct (Nat.ltb_spec i (length st.1)) as [Hi|]; [|exact I].
  rewrite ret_run. cbn [fst snd] in *.
  eapply guarded_weaken; [exact Hb|]. intros [Hup Htt] j u Hj Hlook.
  destruct (decide (j = i)) as [->|Hne].
  - rewrite list_lookup_insert_eq in Hlook by exact Hi.
    injection Hlook as <-. auto.
  - rewrite list_lookup_insert_ne in Hlook by auto.
    apply (Hup j u); [lia | exact Hlook].
Qed.

(** The measurements of a timed region that returns are non-negative,
    provided the clock behaved. *)
Lemma measure_nonneg (bs reps : Z) (r verbose : bool)
    (times0 times : list spec_float) (res : result) (w w' : world) :
  (1 <= bs)%Z ->
  measure func tm buf x kw bs reps r verbose times0 w = (inr (times, res), w') ->
  guarded tm (log w) (nonneg_upto (Z.to_nat reps) times) w'.
Proof.
  intros Hbs. unfold measure.
  rewrite run_gc_collect, run_gc_disable, run_timer_now, run_call. cbv zeta.
  set (w1 := emit EvGcCollect w). set (w2 := emit EvGcDisable _).
  set (w3 := emit (EvNow _) _).
  set (f := func _ _ _). clearbody f. set (w4 := emit (EvCall _ _ _) _).
  destruct f.1.1 as [e|r0] eqn:Hout; [discriminate|].
  rewrite run_timer_now.
  set (w5 := emit (EvNow _) _).
  rewrite run_lift. destruct (calibrate _ _) as [b|actual] eqn:Hcal;
    [discriminate|].
  assert (Hact : (1 <= actual)%Z).
  { match type of Hcal with
    | calibrate ?L bs = _ =>
        destruct (calibrate_safe_gen L bs Hbs) as [Hov|(n & Hn & Hact)]
    end; [congruence|].
    rewrite Hcal in Hn. injection Hn as <-. exact Hact. }
  rewrite run_verbose_print, bind_run.
  set (w6 := if verbose then _ else _).
  assert (H6 : guarded tm (log w) (nonneg_upto 0 times0) w6).
  { exists (drop (length (log w)) (log w6)). split.
    - unfold w6, w5, w4, w3, w2, w1. destruct verbose; cbn [log emit];
        rewrite <- !app_assoc, drop_app_length; reflexivity.
    - intros _ j v Hj. lia. }
  pose proof (for_range_inv
                (fun i st w7 => guarded tm (log w) (nonneg_upto i st.1) w7)
                (fun _ _ => True)
                (repetition func tm buf x kw r actual)
                (Z.to_nat reps) 0 (times0, r0) w6 H6) as Hloop.
  destruct (for_range _ _ _ _ w6) as [[e|st] w7]; [discriminate|].
  rewrite run_gc_enable, ret_run. intros [= -> <-].
  eapply (guarded_extend (log w) _ _ w7 _ [EvGcEnable]).
  - apply Hloop. intros i a w1' _ Hg. apply repetition_nonneg; assumption.
  - reflexivity.
  - intros new HP _. exact HP.
Qed.

End Nonneg.

Section Brackets.
Context `{H : Host}.
Variables (func : pyfunc) (tm : Timer) (buf x : loc) (kw : kwargs_t).

Lemma call_shape (w : world) :
  exists ev, is_call ev = true /\ log (call func buf kw w).2 = log w ++ [ev].
Proof.
  unfold call.
  destruct (func (read buf w) kw (host_env w)) as [[[e|v] after] s];
    eexists; (split; [|reflexivity]); reflexivity.
Qed.

Lemma batch_bracket (actual : Z) (res : result) (w : world) :
  match batch func tm buf x kw false actual res w with
  | (inr st', w') =>
      exists b, bracket_of (Z.to_nat actual) b /\
                log w' = log w ++ bracket_events b /\
                st'.1 = F64.add F64.zero (time_delta tm b.1.1 b.2)
  | (inl _, _) => True
  end.
Proof.
  unfold batch. rewrite run_timer_now, bind_run.
  set (w1 := emit (EvNow _) _). set (t0 := (now tm (host_env w)).1).
  assert (H0 : exists cs, log w1 = log w1 ++ cs /\
                          Forall (fun ev => is_call ev = true) cs /\
                          length cs = 0)
    by (exists []; rewrite app_nil_r; auto).
  pose proof (for_range_inv
                (fun i _ w2 =>
                   exists cs, log w2 = log w1 ++ cs /\
                              Forall (fun ev => is_call ev = true) cs /\
                              length cs = i)
                (fun _ _ => True) (fun _ _ => call func buf kw)
                (Z.to_nat actual) 0 res w1 H0) as Hloop.
  destruct (for_range _ _ _ _ w1) as [[e|res'] w2]; [exact I|].
  rewrite run_timer_now, ret_run. cbn [fst snd].
  set (t1 := (now tm (host_env w2)).1).
  destruct Hloop as (cs & Hlog & Hcs & Hlen).
  { intros i a w3 _ (cs & Hlog & Hcs & Hlen).
    destruct (call_shape w3) as (ev & Hev & Hlog3).
    destruct (call _ _ _ w3) as [[?|?] w4]; [exact I|]. cbn [snd] in Hlog3.
    exists (cs ++ [ev]). rewrite Hlog3, Hlog, app_assoc.
    split; [reflexivity|]. split.
    - apply Forall_app. auto.
    - rewrite length_app. simpl. lia. }
  exists (t0, cs, t1). split; [split; assumption|]. split; [|reflexivity].
  cbn [log emit]. rewrite Hlog. unfold w1, bracket_events. cbn [log emit fst snd].
  rewrite <- !app_assoc. reflexivity.
Qed.

Lemma repetition_bracket (actual : Z) (i : nat)
    (st : list spec_float * result) (w : world) :
  match repetition func tm buf x kw false actual i st w with
  | (inr st', w') =>
      exists b v, bracket_of (Z.to_nat actual) b /\
                  log w' = log w ++ bracket_events b /\
                  measured tm actual b v /\
                  i < length st.1 /\ st'.1 = <[i := v]> st.1
  | (inl _, _) => True
  end.
Proof.
  unfold repetition. rewrite bind_run.
  pose proof (batch_bracket actual st.2 w) as Hb.
  destruct (batch _ _ _ _ _ _ _ _ w) as [[e|[time_tot res]] w1]; [exact I|].
  destruct Hb as (b & Hb & Hlog & Htt). cbn [fst] in Htt.
  rewrite run_lift. destruct (PyNum.div_float_int _ _) as [e|v] eqn:Hdiv;
    [exact I|].
  rewrite run_setitem.
  destruct (Nat.ltb_spec i (length st.1)) as [Hi|]; [|exact I].
  rewrite ret_run. exists b, v. unfold measured. rewrite <- Htt.
  repeat split; try assumption; apply Hb.
Qed.

(** The log of a timed region without refresh that returns. *)
Lemma measure_brackets (bs reps : Z) (verbose : bool)
    (times0 times : list spec_float) (res : result) (w w' : world) :
  length times0 = Z.to_nat reps ->
  measure func tm buf x kw bs reps false verbose times0 w
    = (inr (times, res), w') ->
  exists t0 out t1 actual bl,
    log w' = log w
             ++ [EvGcCollect; EvGcDisable; EvNow t0;
                 EvCall buf (read buf w) out; EvNow t1]
             ++ (if verbose then [EvPrint] else [])
             ++ concat (bracket_events <$> bl) ++ [EvGcEnable] /\
    calibrate (time_delta tm t0 t1) bs = inr actual /\
    Forall (bracket_of (Z.to_nat actual)) bl /\
    Forall2 (measured tm actual) bl times.
Proof.
  intros Hlen0. unfold measure.
  rewrite run_gc_collect, run_gc_disable, run_timer_now, run_call. cbv zeta.
  set (w1 := emit EvGcCollect w). set (w2 := emit EvGcDisable _).
  set (w3 := emit (EvNow _) _). set (t0 := (now tm (host_env w2)).1).
  set (f := func _ _ _). clearbody f. set (w4 := emit (EvCall _ _ _) _).
  destruct f.1.1 as [e|r0] eqn:Hout; [discriminate|].
  rewrite run_timer_now.
  set (w5 := emit (EvNow _) _). set (t1 := (now tm (host_env w4)).1).
  rewrite run_lift. destruct (calibrate _ _) as [b|actual] eqn:Hcal;
    [discriminate|].
  rewrite run_verbose_print, bind_run.
  set (w6 := if verbose then _ else _).
  assert (Hlog6 : log w6 = log w ++ [EvGcCollect; EvGcDisable; EvNow t0;
                                      EvCall buf (read buf w) (inr r0);
                                      EvNow t1]
                            ++ (if verbose then [EvPrint] else [])).
  { unfold w6, w5, w4, w3, w2, w1. destruct verbose; cbn [log emit];
      rewrite <- !app_assoc; reflexivity. }
  clearbody w6 t0 t1.
  assert (H6 : exists bl, length bl = 0 /\
                log w6 = log w6 ++ concat (bracket_events <$> bl) /\
                Forall (bracket_of (Z.to_nat actual)) bl /\
                Forall2 (measured tm actual) bl (take 0 times0) /\
                length times0 = length times0).
  { exists []. simpl. rewrite app_nil_r. repeat split; constructor. }
  pose proof (for_range_inv
                (fun i st w7 =>
                   exists bl, length bl = i /\
                     log w7 = log w6 ++ concat (bracket_events <$> bl) /\
                     Forall (bracket_of (Z.to_nat actual)) bl /\
                     Forall2 (measured tm actual) bl (take i st.1) /\
                     length st.1 = length times0)
                (fun _ _ => True)
                (repetition func tm buf x kw false actual)
                (Z.to_nat reps) 0 (times0, r0) w6 H6) as Hloop.
  destruct (for_range _ _ _ _ w6) as [[e|st] w7]; [discriminate|].
  rewrite run_gc_enable, ret_run. intros [= -> <-].
  destruct Hloop as (bl & Hbl & Hlog & Hok & Hms & Hlen).
  { intros i a w1' _ (bl & Hbl & Hlog & Hok & Hms & Hlen).
    pose proof (repetition_bracket actual i a w1') as Hr.
    destruct (repetition _ _ _ _ _ _ _ _ _ w1') as [[?|st'] w2']; [exact I|].
    destruct Hr as (b & v & Hb & Hlog' & Hv & Hi & Hst').
    exists (bl ++ [b]). rewrite length_app. simpl.
    split; [lia|]. split.
    - rewrite Hlog', Hlog, fmap_app, concat_app. simpl.
      rewrite app_nil_r, <- app_assoc. reflexivity.
    - split; [apply Forall_app; auto|]. rewrite Hst', length_insert.
      split; [|exact Hlen].
      rewrite (take_S_r _ i v) by (apply list_lookup_insert_eq; exact Hi).
      rewrite take_insert_ge by lia.
      apply Forall2_app; [exact Hms|]. constructor; [exact Hv | constructor]. }
  cbn [fst snd] in *. rewrite take_ge in Hms by lia.
  exists t0, (inr r0), t1, actual, bl. split.
  - cbn [log emit]. rewrite Hlog, Hlog6, <- !app_assoc. reflexivity.
  - auto.
Qed.

End Brackets.

Section Whole.
Context `{H : Host}.

(** *** [get_timer] *)

Lemma get_timer_loop_none (time_modules : list string) :
  Forall (fun m => import_module m = None) time_modules ->
  get_timer_loop time_modules = None.
Proof.
  induction 1 as [|m rest Hm _ IH]; simpl; [reflexivity|].
  rewrite Hm. exact IH.
Qed.

Lemma get_timer_loop_first (pre post : list string) (m : string)
    (tmod : pymodule) :
  Forall (fun m' => import_module m' = None) pre ->
  import_module m = Some tmod ->
  get_timer_loop (pre ++ m :: post) = Some (m, tmod).
Proof.
  intros Hpre Hm. induction Hpre as [|m' rest Hm' _ IH]; simpl.
  - rewrite Hm. reflexivity.
  - rewrite Hm'. exact IH.
Qed.

(** *** Every exit of [time_func] *)

Lemma allowed_no_copy (buf x : loc) (xs : list elem) (l : list event) :
  Forall (allowed buf x xs false) l -> count_copies l = 0.
Proof.
  induction 1 as [|ev l Hev _ IH]; [reflexivity|].
  unfold count_copies in *. simpl.
  destruct ev; simpl in *; try exact IH. destruct Hev as (_ & _ & [=]).
Qed.

Lemma allowed_harness (buf x : loc) (xs : list elem) (r : bool) (ev : event) :
  allowed buf x xs r ev -> harness_event buf x ev.
Proof. destruct ev; simpl; tauto. Qed.

Lemma allowed_saw (buf x : loc) (xs : list elem) (ev : event) :
  allowed buf x xs true ev -> saw xs ev.
Proof. destruct ev; simpl; tauto. Qed.

(** A run on valid arguments, however it ends. *)
Lemma time_func_valid_exit (func : pyfunc) (xl : loc) (xs : list elem)
    (kw : kwargs_t) (timer : option Timer) (tm : Timer) (bs reps : Z)
    (refresh verbose : bool) (w : world) :
  timer_resolves timer tm -> (0 <= reps < 2 ^ 60)%Z ->
  can_allocate (8 * reps) = true -> heap w !! xl = Some xs ->
  let run := time_func func (Ndarray xl) (Dict kw) timer bs reps refresh
               verbose w in
  let buf := fresh (dom (heap w)) in
  buf <> xl /\ heap run.2 !! xl = Some xs /\
  exists post,
    log run.2 = log w ++ prelude_prints timer verbose
                      ++ [EvAlloc buf; EvCopy buf xl] ++ post /\
    Forall (allowed buf xl xs refresh) post.
Proof.
  intros Htm Hreps Hmem Hx run buf. subst run.
  destruct (time_func_prelude func xl xs kw timer tm bs reps refresh verbose
              w Htm Hreps Hmem Hx) as [Hne ->]. fold buf.
  split; [exact Hne|].
  set (w1 := World _ _ _ _).
  destruct (measure_keeps func tm buf xl kw xs Hne bs reps refresh verbose
              (replicate (Z.to_nat reps) junk_time) w1) as [Hx' (post & Hlog & Hall)].
  { unfold w1. cbn [heap]. rewrite lookup_insert_ne by exact Hne. exact Hx. }
  { unfold w1. cbn [heap]. apply lookup_insert_eq. }
  split; [exact Hx'|]. exists post. split; [|exact Hall].
  rewrite Hlog. unfold w1. cbn [log]. rewrite <- !app_assoc. reflexivity.
Qed.

(** A run on an array and any other arguments, however it ends: either
    it stops before the buffer is allocated, or it is as above. *)
Lemma time_func_any_exit (func : pyfunc) (xl : loc) (xs : list elem)
    (kwargs : pyval) (timer : option Timer) (bs reps : Z)
    (refresh verbose : bool) (w : world) :
  heap w !! xl = Some xs ->
  let run := time_func func (Ndarray xl) kwargs timer bs reps refresh
               verbose w in
  let buf := fresh (dom (heap w)) in
  buf <> xl /\ heap run.2 !! xl = Some xs /\
  exists pre post,
    log run.2 = log w ++ pre ++ post /\
    Forall (fun ev => ev = EvPrint \/ ev = EvAlloc buf \/
                      ev = EvCopy buf xl) pre /\
    Forall (allowed buf xl xs refresh) post.
Proof.
  intros Hx run buf.
  assert (Hne : buf <> xl).
  { intros Heq. apply (is_fresh (dom (heap w))). fold buf. rewrite Heq.
    apply elem_of_dom. eauto. }
  assert (Hearly : forall (e : exn) (w0 : world),
            heap w0 = heap w ->
            (log w0 = log w \/ log w0 = log w ++ [EvPrint]) ->
            run = (inl e, w0) ->
            buf <> xl /\ heap run.2 !! xl = Some xs /\
            exists pre post,
              log run.2 = log w ++ pre ++ post /\
              Forall (fun ev => ev = EvPrint \/ ev = EvAlloc buf \/
                                ev = EvCopy buf xl) pre /\
              Forall (allowed buf xl xs refresh) post).
  { intros e w0 Hh Hl ->. cbn [snd]. rewrite Hh.
    split; [exact Hne|]. split; [exact Hx|].
    destruct Hl as [->| ->].
    - exists [], []. rewrite !app_nil_r. auto.
    - exists [EvPrint], []. rewrite app_nil_r. repeat constructor. }
  destruct kwargs as [l|kw|]; [ apply (Hearly (Builtin ValueError) w); auto | |
                              apply (Hearly (Builtin ValueError) w); auto ].
  pose (rest := fun t : Timer =>
                  (times_list ← np_empty reps;
                   b ← np_empty_like xl;
                   np_copyto b xl;;
                   measure func t b xl kw bs reps refresh verbose times_list)).
  assert (Hrun : run = match timer with
                       | Some t => rest t w
                       | None =>
                           match get_timer default_time_modules with
                           | inl b => (inl (Builtin b), w)
                           | inr t =>
                               rest t (if verbose then emit EvPrint w else w)
                           end
                       end).
  { unfold run, time_func. rewrite !run_ret, run_resolve. reflexivity. }
  assert (Hnone : forall b, timer = None ->
            get_timer default_time_modules = inl b ->
            run = (inl (Builtin b), w))
    by (intros b -> Hget; rewrite Hrun, Hget; reflexivity).
  destruct (np_empty_cases reps) as [[bad Hbad]|[Hreps Hmem]].
  - (* [np.empty] raises *)
    assert (Hnp : forall t w0, rest t w0 = (inl (Builtin bad), w0)).
    { intros t w0. unfold rest. rewrite bind_run, Hbad. reflexivity. }
    destruct timer as [t|].
    + apply (Hearly (Builtin bad) w); auto.
      rewrite Hrun. apply Hnp.
    + destruct (get_timer default_time_modules) as [b|t] eqn:Hget.
      * apply (Hearly (Builtin b) w); auto.
      * apply (Hearly (Builtin bad)
                 (if verbose then emit EvPrint w else w)).
        -- destruct verbose; reflexivity.
        -- destruct verbose; auto.
        -- rewrite Hrun. apply Hnp.
  - assert (Hvalid : forall tm, timer_resolves timer tm ->
              buf <> xl /\ heap run.2 !! xl = Some xs /\
              exists pre post,
                log run.2 = log w ++ pre ++ post /\
                Forall (fun ev => ev = EvPrint \/ ev = EvAlloc buf \/
                                  ev = EvCopy buf xl) pre /\
                Forall (allowed buf xl xs refresh) post).
    { intros tm Htm.
      destruct (time_func_valid_exit func xl xs kw timer tm bs reps refresh
                  verbose w Htm Hreps Hmem Hx)
        as (_ & Hx' & post & Hlog & Hall).
      split; [exact Hne|]. split; [exact Hx'|].
      exists (prelude_prints timer verbose ++ [EvAlloc buf; EvCopy buf xl]),
             post.
      split; [rewrite <- !app_assoc; exact Hlog|]. split; [|exact Hall].
      apply Forall_app. split.
      - destruct timer, verbose; repeat constructor.
      - constructor; [right; left; reflexivity|].
        constructor; [right; right; reflexivity | constructor]. }
    destruct timer as [t|].
    + apply (Hvalid t). reflexivity.
    + destruct (get_timer default_time_modules) as [b|t] eqn:Hget.
      * apply (Hearly (Builtin b) w); auto.
      * apply (Hvalid t). exact Hget.
Qed.

End Whole.

(** * Further facts about the timed region *)

(** *** The timed region: garbage collection, failing calls, copies *)

Section RegionFacts.
Context `{H : Host}.
Variables (func : pyfunc) (tm : Timer) (buf x : loc) (kw : kwargs_t).

Lemma count_copies_snoc (l : list event) (ev : event) :
  count_copies (l ++ [ev]) = count_copies l + (if is_copy ev then 1 else 0).
Proof.
  unfold count_copies. rewrite List.filter_app, length_app. simpl.
  destruct (is_copy ev); reflexivity.
Qed.

Lemma count_copies_app (l1 l2 : list event) :
  count_copies (l1 ++ l2) = count_copies l1 + count_copies l2.
Proof.
  unfold count_copies. rewrite List.filter_app, length_app. reflexivity.
Qed.

Lemma in_region_emit (l0 mid : list event) (w : world) (ev : event)
    (h : gmap loc (list elem)) (s : env) :
  in_region l0 mid w -> quiet ev ->
  in_region l0 (mid ++ [ev]) (emit ev (World h (gc_enabled w) s (log w))).
Proof.
  intros (Hl & Hq & Hg) Hev. unfold in_region. cbn [log emit gc_enabled].
  split; [rewrite Hl, <- !app_assoc; reflexivity|].
  split; [|exact Hg].
  apply Forall_app. split; [exact Hq|]. constructor; [exact Hev|constructor].
Qed.

(** A quiet event that is neither a copy nor a call keeps the region. *)
Lemma region_ok_emit (r : bool) (l0 : list event) (w : world) (ev : event)
    (h : gmap loc (list elem)) (s : env) :
  region_ok r l0 w -> quiet ev -> is_copy ev = false -> is_call ev = false ->
  region_ok r l0 (emit ev (World h (gc_enabled w) s (log w))).
Proof.
  intros (mid & Hin & Hp) Hq Hc Hk. exists (mid ++ [ev]).
  split; [apply in_region_emit; assumption|].
  intros Hr. rewrite count_copies_snoc, count_calls_snoc, Hc, Hk.
  specialize (Hp Hr). lia.
Qed.

Lemma region_ok_print (r verbose : bool) (l0 : list event) (w : world) :
  region_ok r l0 w -> region_ok r l0 (if verbose then emit EvPrint w else w).
Proof.
  intros Hk. destruct verbose; [|exact Hk]. destruct w as [h g s l].
  apply (region_ok_emit r l0 (World h g s l)); auto. exact I.
Qed.

(** One refreshed call: the copy and the call come together. *)
Lemma refresh_step_region (l0 : list event) (st : spec_float * result)
    (w : world) :
  region_ok true l0 w ->
  region_exit true l0 (refresh_step func tm buf x kw st w).
Proof.
  intros (mid & Hin & Hp). specialize (Hp eq_refl).
  unfold refresh_step. rewrite run_copyto.
  destruct (Nat.eqb _ _).
  2:{ exists mid. split; [exact Hin|]. intros _. exact Hp. }
  rewrite run_timer_now, run_call. cbv zeta.
  set (w1 := emit (EvCopy buf x) _).
  assert (H1 : in_region l0 (mid ++ [EvCopy buf x]) w1)
    by (apply in_region_emit; [exact Hin | exact I]).
  set (w2 := emit (EvNow _) _).
  assert (H2 : in_region l0 ((mid ++ [EvCopy buf x]) ++ [EvNow (now tm (host_env w1)).1]) w2)
    by (apply (in_region_emit l0 _ w1); [exact H1 | exact I]).
  set (f := func _ _ _). clearbody f.
  set (w3 := emit (EvCall _ _ _) _).
  destruct f.1.1 as [e|v] eqn:Hout.
  - unfold region_exit. cbn [fst snd]. eexists _, buf, (read buf w2).
    destruct H2 as (Hl2 & Hq2 & Hg2).
    split; [|split; [exact Hq2|split; [exact Hg2|]]].
    + unfold w3. cbn [log emit]. rewrite Hl2, <- !app_assoc. reflexivity.
    + intros _. rewrite !count_copies_snoc, !count_calls_snoc.
      cbn [is_copy is_call]. lia.
  - rewrite run_timer_now, ret_run. unfold region_exit. cbn [fst snd].
    assert (H3 : in_region l0
                   (((mid ++ [EvCopy buf x])
                       ++ [EvNow (now tm (host_env w1)).1])
                      ++ [EvCall buf (read buf w2) (inr v)]) w3)
      by (apply (in_region_emit l0 _ w2); [exact H2 | exact I]).
    eexists. split.
    + eapply (in_region_emit l0 _ w3); [exact H3 | exact I].
    + intros _. rewrite !count_copies_snoc, !count_calls_snoc.
      cbn [is_copy is_call]. lia.
Qed.

(** One call without refresh. *)
Lemma call_region (l0 : list event) (w : world) :
  region_ok false l0 w -> region_exit false l0 (call func buf kw w).
Proof.
  intros (mid & Hin & _). unfold call.
  destruct (func (read buf w) kw (host_env w)) as [[[e|v] after] s];
    unfold region_exit; cbn [fst snd].
  - exists mid, buf, (read buf w). destruct Hin as (Hl & Hq & Hg).
    split; [|split; [exact Hq|split; [exact Hg|discriminate]]].
    cbn [log emit]. rewrite Hl, <- !app_assoc. reflexivity.
  - eexists. split; [|discriminate].
    apply in_region_emit; [exact Hin | exact I].
Qed.

Lemma batch_region (r : bool) (l0 : list event) (actual : Z) (res : result)
    (w : world) :
  region_ok r l0 w ->
  region_exit r l0 (batch func tm buf x kw r actual res w).
Proof.
  intros Hk. unfold batch. destruct r.
  - pose proof (for_range_inv
                  (fun _ _ w1 => region_ok true l0 w1)
                  (fun e w1 => region_exit true l0 (inl e : exn + unit, w1))
                  (fun _ st => refresh_step func tm buf x kw st)
                  (Z.to_nat actual) 0 (F64.zero, res) w Hk) as Hloop.
    assert (Hbody : forall i a w1, 0 <= i < 0 + Z.to_nat actual ->
              region_ok true l0 w1 ->
              match refresh_step func tm buf x kw a w1 with
              | (inr _, w2) => region_ok true l0 w2
              | (inl e, w2) => region_exit true l0 (inl e : exn + unit, w2)
              end).
    { intros i a w1 _ Hk1. pose proof (refresh_step_region l0 a w1 Hk1) as Hs.
      destruct (refresh_step _ _ _ _ _ a w1) as [[e|?] ?]; exact Hs. }
    specialize (Hloop Hbody).
    destruct (for_range _ _ _ _ w) as [[e|a] w1]; exact Hloop.
  - rewrite run_timer_now, bind_run.
    set (w1 := emit (EvNow _) _).
    assert (H1 : region_ok false l0 w1)
      by (apply region_ok_emit; [exact Hk | exact I | reflexivity..]).
    pose proof (for_range_inv
                  (fun _ _ w2 => region_ok false l0 w2)
                  (fun e w2 => region_exit false l0 (inl e : exn + unit, w2))
                  (fun _ _ => call func buf kw)
                  (Z.to_nat actual) 0 res w1 H1) as Hloop.
    assert (Hbody : forall i (a : result) w2, 0 <= i < 0 + Z.to_nat actual ->
              region_ok false l0 w2 ->
              match call func buf kw w2 with
              | (inr _, w3) => region_ok false l0 w3
              | (inl e, w3) => region_exit false l0 (inl e : exn + unit, w3)
              end).
    { intros i a w2 _ Hk2. pose proof (call_region l0 w2 Hk2) as Hs.
      destruct (call _ _ _ w2) as [[e|?] ?]; exact Hs. }
    specialize (Hloop Hbody).
    destruct (for_range _ _ _ _ w1) as [[e|a] w2]; [exact Hloop|].
    rewrite run_timer_now, ret_run. unfold region_exit. cbn [fst snd].
    apply region_ok_emit; [exact Hloop | exact I | reflexivity..].
Qed.

Lemma repetition_region (r : bool) (l0 : list event) (actual : Z) (i : nat)
    (st : list spec_float * result) (w : world) :
  region_ok r l0 w ->
  region_exit r l0 (repetition func tm buf x kw r actual i st w).
Proof.
  intros Hk. unfold repetition. rewrite bind_run.
  pose proof (batch_region r l0 actual st.2 w Hk) as Hb.
  destruct (batch _ _ _ _ _ _ _ _ w) as [[e|[time_tot res]] w1]; [exact Hb|].
  unfold region_exit in Hb. cbn [fst snd] in Hb. rewrite run_lift.
  destruct (PyNum.div_float_int _ _) as [b|v]; [exact Hb|].
  rewrite run_setitem. destruct (Nat.ltb _ _); exact Hb.
Qed.

(** Every exit of the timed region: the collector is switched off before
    the first call and on again only after the last; a call that raises
    ends the region there. *)
Lemma measure_region (bs reps : Z) (r verbose : bool)
    (times : list spec_float) (w : world) :
  measure_exit r (log w)
    (measure func tm buf x kw bs reps r verbose times w).
Proof.
  unfold measure.
  rewrite run_gc_collect, run_gc_disable, run_timer_now, run_call. cbv zeta.
  set (w2 := emit EvGcDisable _).
  assert (H2 : in_region (log w) [] w2).
  { unfold in_region, w2. cbn [log emit gc_enabled].
    rewrite <- !app_assoc. auto. }
  set (w3 := emit (EvNow _) _).
  assert (H3 : in_region (log w) ([] ++ [EvNow (now tm (host_env w2)).1]) w3)
    by (apply (in_region_emit (log w) [] w2); [exact H2 | exact I]).
  set (f := func _ _ _). clearbody f.
  set (w4 := emit (EvCall _ _ _) _).
  destruct f.1.1 as [e|res] eqn:Hout.
  - unfold measure_exit. cbn [fst snd]. eexists _, buf, (read buf w3).
    destruct H3 as (Hl3 & Hq3 & Hg3).
    split; [|split; [exact Hq3|split; [exact Hg3|]]].
    + unfold w4. cbn [log emit]. rewrite Hl3, <- !app_assoc. reflexivity.
    + intros _. reflexivity.
  - rewrite run_timer_now.
    assert (H4 : region_ok r (log w) w4).
    { eexists. split.
      - eapply (in_region_emit (log w) _ w3); [exact H3 | exact I].
      - intros _. reflexivity. }
    set (w5 := emit (EvNow _) _).
    assert (H5 : region_ok r (log w) w5)
      by (apply (region_ok_emit r (log w) w4);
          [exact H4 | exact I | reflexivity..]).
    rewrite run_lift. destruct (calibrate _ _) as [b|actual]; [exact H5|].
    rewrite run_verbose_print, bind_run.
    pose proof (region_ok_print r verbose (log w) w5 H5) as H6.
    set (w6 := if verbose then _ else _) in *.
    pose proof (for_range_inv
                  (fun _ _ w' => region_ok r (log w) w')
                  (fun e w' => region_exit r (log w) (inl e : exn + unit, w'))
                  (repetition func tm buf x kw r actual)
                  (Z.to_nat reps) 0 (times, res) w6 H6) as Hloop.
    assert (Hbody : forall i a w1', 0 <= i < 0 + Z.to_nat reps ->
              region_ok r (log w) w1' ->
              match repetition func tm buf x kw r actual i a w1' with
              | (inr _, w2') => region_ok r (log w) w2'
              | (inl e, w2') =>
                  region_exit r (log w) (inl e : exn + unit, w2')
              end).
    { intros i a w1' _ Hk1.
      pose proof (repetition_region r (log w) actual i a w1' Hk1) as Hs.
      destruct (repetition _ _ _ _ _ _ _ _ _ w1') as [[?|?] ?]; exact Hs. }
    specialize (Hloop Hbody).
    destruct (for_range _ _ _ _ w6) as [[e|st] w7].
    + destruct e; exact Hloop.
    + rewrite run_gc_enable, ret_run. unfold measure_exit. cbn [fst snd].
      destruct Hloop as (mid & (Hl & Hq & Hg) & Hp). exists mid.
      cbn [log emit gc_enabled]. rewrite Hl, <- !app_assoc. auto.
Qed.

End RegionFacts.

Section RunFacts.
Context `{H : Host}.

(** The buffer has the shape of [x], so the first copy goes through. *)
Lemma first_copy_fits (xl : loc) (w : world) :
  let b := fresh (dom (heap w)) in
  let w1 := World (<[b := (fun _ => junk) <$> read xl w]> (heap w))
              (gc_enabled w) (host_env w) (log w ++ [EvAlloc b]) in
  Nat.eqb (length (read b w1)) (length (read xl w1)) = true.
Proof.
  intros b w1. apply Nat.eqb_eq. unfold read, w1. cbn [heap].
  rewrite lookup_insert_eq. cbn [default from_option id].
  destruct (decide (b = xl)) as [<-|Hne].
  - rewrite lookup_insert_eq. reflexivity.
  - rewrite lookup_insert_ne by exact Hne. apply length_fmap.
Qed.

(** Any run of [time_func] either stops at the checks of its arguments
    or at the allocation of the series, having at most printed, or is a
    run of the timed region. *)
Lemma time_func_cases (func : pyfunc) (x kwargs : pyval)
    (timer : option Timer) (bs reps : Z) (refresh verbose : bool)
    (w : world) :
  let run := time_func func x kwargs timer bs reps refresh verbose w in
  (exists b pre,
     run.1 = inl (Builtin b) /\ log run.2 = log w ++ pre /\
     Forall (fun ev => ev = EvPrint) pre /\
     gc_enabled run.2 = gc_enabled w /\ heap run.2 = heap w) \/
  (exists xl kw tm buf pre w1,
     x = Ndarray xl /\ kwargs = Dict kw /\ timer_resolves timer tm /\
     (0 <= reps)%Z /\
     log w1 = log w ++ pre ++ [EvAlloc buf; EvCopy buf xl] /\
     Forall (fun ev => ev = EvPrint) pre /\
     gc_enabled w1 = gc_enabled w /\
     run = measure func tm buf xl kw bs reps refresh verbose
             (replicate (Z.to_nat reps) junk_time) w1 /\
     buf = fresh (dom (heap w)) /\ frame buf w w1).
Proof.
  intros run.
  assert (Hearly : forall (b : builtin_exn) (w0 : world),
            run = (inl (Builtin b), w0) -> heap w0 = heap w ->
            gc_enabled w0 = gc_enabled w ->
            (log w0 = log w \/ log w0 = log w ++ [EvPrint]) ->
            exists b pre,
              run.1 = inl (Builtin b) /\ log run.2 = log w ++ pre /\
              Forall (fun ev => ev = EvPrint) pre /\
              gc_enabled run.2 = gc_enabled w /\ heap run.2 = heap w).
  { intros b w0 -> Hh Hg Hl. cbn [fst snd]. destruct Hl as [Hl|Hl].
    - exists b, []. rewrite app_nil_r. auto.
    - exists b, [EvPrint]. repeat split; auto. }
  destruct x as [xl| |];
    [|left; apply (Hearly ValueError w); auto; reflexivity..].
  destruct kwargs as [|kw|];
    [left; apply (Hearly ValueError w); auto; reflexivity | |
     left; apply (Hearly ValueError w); auto; reflexivity].
  pose (rest := fun t : Timer =>
                  (times_list ← np_empty reps;
                   b ← np_empty_like xl;
                   np_copyto b xl;;
                   measure func t b xl kw bs reps refresh verbose times_list)).
  assert (Hrun : run = match timer with
                       | Some t => rest t w
                       | None =>
                           match get_timer default_time_modules with
                           | inl b => (inl (Builtin b), w)
                           | inr t =>
                               rest t (if verbose then emit EvPrint w else w)
                           end
                       end).
  { unfold run, time_func. rewrite !run_ret, run_resolve. reflexivity. }
  destruct (np_empty_cases reps) as [[bad Hbad]|[Hreps Hmem]].
  - assert (Hnp : forall t w0, rest t w0 = (inl (Builtin bad), w0)).
    { intros t w0. unfold rest. rewrite bind_run, Hbad. reflexivity. }
    left. destruct timer as [t|].
    + apply (Hearly bad w); auto. rewrite Hrun. apply Hnp.
    + destruct (get_timer default_time_modules) as [b|t] eqn:Hget.
      * apply (Hearly b w); auto.
      * apply (Hearly bad (if verbose then emit EvPrint w else w));
          [rewrite Hrun; apply Hnp | destruct verbose; auto..].
  - assert (Hrest : forall t w0,
              exists w1,
                log w1 = log w0 ++ [EvAlloc (fresh (dom (heap w0)));
                                    EvCopy (fresh (dom (heap w0))) xl] /\
                gc_enabled w1 = gc_enabled w0 /\
                rest t w0 = measure func t (fresh (dom (heap w0))) xl kw bs
                              reps refresh verbose
                              (replicate (Z.to_nat reps) junk_time) w1 /\
                frame (fresh (dom (heap w0))) w0 w1).
    { intros t w0. unfold rest.
      rewrite bind_run, (np_empty_returns _ _ Hreps Hmem), bind_run.
      unfold np_empty_like.
      rewrite run_copyto. unfold emit at 1 2 3. cbn [heap gc_enabled host_env log].
      rewrite (first_copy_fits xl w0).
      eexists. split; [|split; [|split; [reflexivity|]]].
      - cbn [log emit]. rewrite <- app_assoc. reflexivity.
      - reflexivity.
      - intros l Hl. cbn [heap emit].
        rewrite !lookup_insert_ne by congruence. reflexivity. }
    destruct timer as [t|].
    + right. destruct (Hrest t w) as (w1 & Hl & Hg & Hm & Hf).
      exists xl, kw, t, (fresh (dom (heap w))), [], w1.
      rewrite Hrun, Hm. simpl. repeat split; auto; lia.
    + destruct (get_timer default_time_modules) as [b|t] eqn:Hget.
      * left. apply (Hearly b w); auto.
      * right.
        destruct (Hrest t (if verbose then emit EvPrint w else w))
          as (w1 & Hl & Hg & Hm & Hf).
        assert (Hheap : heap (if verbose then emit EvPrint w else w) = heap w)
          by (destruct verbose; reflexivity).
        rewrite Hheap in Hl, Hm, Hf.
        exists xl, kw, t, (fresh (dom (heap w))),
               (if verbose then [EvPrint] else []), w1.
        rewrite Hrun, Hm. repeat split; auto; try lia.
        -- rewrite Hl. destruct verbose; cbn [log emit];
             rewrite <- ?app_assoc; reflexivity.
        -- destruct verbose; repeat constructor.
        -- rewrite Hg. destruct verbose; reflexivity.
        -- intros l Hne. rewrite (Hf l Hne), Hheap. reflexivity.
Qed.

End RunFacts.

Section Refreshed.
Context `{H : Host}.
Variables (func : pyfunc) (tm : Timer) (buf x : loc) (kw : kwargs_t).

Lemma refreshed_batch_snoc (cs : list (timepoint * event * timepoint))
    (c : timepoint * event * timepoint) :
  refreshed_batch buf x (cs ++ [c])
  = refreshed_batch buf x cs ++ refreshed_call buf x c.
Proof.
  unfold refreshed_batch. rewrite fmap_app, concat_app. reflexivity.
Qed.

Lemma accumulated_snoc (cs : list (timepoint * event * timepoint))
    (c : timepoint * event * timepoint) :
  accumulated tm (cs ++ [c])
  = F64.add (accumulated tm cs) (time_delta tm c.1.1 c.2).
Proof. unfold accumulated. rewrite fold_left_app. reflexivity. Qed.

(** One pass of the inner loop that returns. *)
Lemma refresh_step_shape (st : spec_float * result) (w : world) :
  match refresh_step func tm buf x kw st w with
  | (inr st', w') =>
      exists c, is_call c.1.2 = true /\
                log w' = log w ++ refreshed_call buf x c /\
                st'.1 = F64.add st.1 (time_delta tm c.1.1 c.2)
  | (inl _, _) => True
  end.
Proof.
  unfold refresh_step. rewrite run_copyto.
  destruct (Nat.eqb _ _); [|exact I].
  rewrite run_timer_now, run_call. cbv zeta.
  set (w1 := emit (EvCopy buf x) _). set (w2 := emit (EvNow _) _).
  set (t0 := (now tm (host_env w1)).1).
  set (f := func _ _ _). clearbody f. set (w3 := emit (EvCall _ _ _) _).
  destruct f.1.1 as [e|v] eqn:Hout; [exact I|].
  rewrite run_timer_now, ret_run.
  exists (t0, EvCall buf (read buf w2) (inr v), (now tm (host_env w3)).1).
  split; [reflexivity|]. split; [|reflexivity].
  unfold w3, w2, w1, refreshed_call. cbn [log emit fst snd].
  rewrite <- !app_assoc. reflexivity.
Qed.

Lemma batch_refreshed (actual : Z) (res : result) (w : world) :
  match batch func tm buf x kw true actual res w with
  | (inr st', w') =>
      exists cs, batch_of (Z.to_nat actual) cs /\
                 log w' = log w ++ refreshed_batch buf x cs /\
                 st'.1 = accumulated tm cs
  | (inl _, _) => True
  end.
Proof.
  unfold batch.
  assert (H0 : exists cs, batch_of 0 cs /\
                          log w = log w ++ refreshed_batch buf x cs /\
                          F64.zero = accumulated tm cs).
  { exists []. unfold batch_of. simpl. rewrite app_nil_r. auto. }
  pose proof (for_range_inv
                (fun i st w2 =>
                   exists cs, batch_of i cs /\
                              log w2 = log w ++ refreshed_batch buf x cs /\
                              st.1 = accumulated tm cs)
                (fun _ _ => True)
                (fun _ st => refresh_step func tm buf x kw st)
                (Z.to_nat actual) 0 (F64.zero, res) w H0) as Hloop.
  destruct (for_range _ _ _ _ w) as [[e|st'] w1]; [exact I|].
  apply Hloop. intros i a w2 _ (cs & [Hlen Hcs] & Hlog & Hacc).
  pose proof (refresh_step_shape a w2) as Hs.
  destruct (refresh_step _ _ _ _ _ a w2) as [[?|st''] w3]; [exact I|].
  destruct Hs as (c & Hc & Hlog3 & Hst).
  exists (cs ++ [c]). split; [split|split].
  - rewrite length_app. simpl. lia.
  - apply Forall_app. auto.
  - rewrite Hlog3, Hlog, refreshed_batch_snoc, <- app_assoc. reflexivity.
  - rewrite Hst, Hacc, accumulated_snoc. reflexivity.
Qed.

Lemma repetition_refreshed (actual : Z) (i : nat)
    (st : list spec_float * result) (w : world) :
  match repetition func tm buf x kw true actual i st w with
  | (inr st', w') =>
      exists cs v, batch_of (Z.to_nat actual) cs /\
                   log w' = log w ++ refreshed_batch buf x cs /\
                   accumulated_measure tm actual cs v /\
                   i < length st.1 /\ st'.1 = <[i := v]> st.1
  | (inl _, _) => True
  end.
Proof.
  unfold repetition. rewrite bind_run.
  pose proof (batch_refreshed actual st.2 w) as Hb.
  destruct (batch _ _ _ _ _ _ _ _ w) as [[e|[time_tot res]] w1]; [exact I|].
  destruct Hb as (cs & Hcs & Hlog & Htt). cbn [fst] in Htt.
  rewrite run_lift. destruct (PyNum.div_float_int _ _) as [e|v] eqn:Hdiv;
    [exact I|].
  rewrite run_setitem.
  destruct (Nat.ltb_spec i (length st.1)) as [Hi|]; [|exact I].
  rewrite ret_run. exists cs, v. unfold accumulated_measure. rewrite <- Htt.
  auto.
Qed.

(** The log of a timed region with refresh that returns. *)
Lemma measure_refreshed (bs reps : Z) (verbose : bool)
    (times0 times : list spec_float) (res : result) (w w' : world) :
  length times0 = Z.to_nat reps ->
  measure func tm buf x kw bs reps true verbose times0 w
    = (inr (times, res), w') ->
  exists t0 out t1 actual bl,
    log w' = log w
             ++ [EvGcCollect; EvGcDisable; EvNow t0;
                 EvCall buf (read buf w) out; EvNow t1]
             ++ (if verbose then [EvPrint] else [])
             ++ concat (refreshed_batch buf x <$> bl) ++ [EvGcEnable] /\
    calibrate (time_delta tm t0 t1) bs = inr actual /\
    length bl = Z.to_nat reps /\
    Forall (batch_of (Z.to_nat actual)) bl /\
    Forall2 (accumulated_measure tm actual) bl times.
Proof.
  intros Hlen0. unfold measure.
  rewrite run_gc_collect, run_gc_disable, run_timer_now, run_call. cbv zeta.
  set (w1 := emit EvGcCollect w). set (w2 := emit EvGcDisable _).
  set (w3 := emit (EvNow _) _). set (t0 := (now tm (host_env w2)).1).
  set (f := func _ _ _). clearbody f. set (w4 := emit (EvCall _ _ _) _).
  destruct f.1.1 as [e|r0] eqn:Hout; [discriminate|].
  rewrite run_timer_now.
  set (w5 := emit (EvNow _) _). set (t1 := (now tm (host_env w4)).1).
  rewrite run_lift. destruct (calibrate _ _) as [b|actual] eqn:Hcal;
    [discriminate|].
  rewrite run_verbose_print, bind_run.
  set (w6 := if verbose then _ else _).
  assert (Hlog6 : log w6 = log w ++ [EvGcCollect; EvGcDisable; EvNow t0;
                                      EvCall buf (read buf w) (inr r0);
                                      EvNow t1]
                            ++ (if verbose then [EvPrint] else [])).
  { unfold w6, w5, w4, w3, w2, w1. destruct verbose; cbn [log emit];
      rewrite <- !app_assoc; reflexivity. }
  clearbody w6 t0 t1.
  assert (H6 : exists bl, length bl = 0 /\
                log w6 = log w6 ++ concat (refreshed_batch buf x <$> bl) /\
                Forall (batch_of (Z.to_nat actual)) bl /\
                Forall2 (accumulated_measure tm actual) bl (take 0 times0) /\
                length times0 = length times0).
  { exists []. simpl. rewrite app_nil_r. repeat split; constructor. }
  pose proof (for_range_inv
                (fun i st w7 =>
                   exists bl, length bl = i /\
                     log w7 = log w6 ++ concat (refreshed_batch buf x <$> bl) /\
                     Forall (batch_of (Z.to_nat actual)) bl /\
                     Forall2 (accumulated_measure tm actual) bl
                       (take i st.1) /\
                     length st.1 = length times0)
                (fun _ _ => True)
                (repetition func tm buf x kw true actual)
                (Z.to_nat reps) 0 (times0, r0) w6 H6) as Hloop.
  destruct (for_range _ _ _ _ w6) as [[e|st] w7]; [discriminate|].
  rewrite run_gc_enable, ret_run. intros [= -> <-].
  destruct Hloop as (bl & Hbl & Hlog & Hok & Hms & Hlen).
  { intros i a w1' _ (bl & Hbl & Hlog & Hok & Hms & Hlen).
    pose proof (repetition_refreshed actual i a w1') as Hr.
    destruct (repetition _ _ _ _ _ _ _ _ _ w1') as [[?|st'] w2']; [exact I|].
    destruct Hr as (cs & v & Hb & Hlog' & Hv & Hi & Hst').
    exists (bl ++ [cs]). rewrite length_app. simpl.
    split; [lia|]. split.
    - rewrite Hlog', Hlog, fmap_app, concat_app. simpl.
      rewrite app_nil_r, <- app_assoc. reflexivity.
    - split; [apply Forall_app; auto|]. rewrite Hst', length_insert.
      split; [|exact Hlen].
      rewrite (take_S_r _ i v) by (apply list_lookup_insert_eq; exact Hi).
      rewrite take_insert_ge by lia.
      apply Forall2_app; [exact Hms|]. constructor; [exact Hv | constructor]. }
  cbn [fst snd] in *. rewrite take_ge in Hms by lia.
  exists t0, (inr r0), t1, actual, bl. split.
  - cbn [log emit]. rewrite Hlog, Hlog6, <- !app_assoc. reflexivity.
  - auto.
Qed.

End Refreshed.

Section Frame.
Context `{H : Host}.
Variables (func : pyfunc) (tm : Timer) (buf x : loc) (kw : kwargs_t).

(** Logging, and writing to [buf], keep the frame. *)
Lemma frame_emit (w0 w : world) (ev : event) (g : bool) (s : env) :
  frame buf w0 w -> frame buf w0 (emit ev (World (heap w) g s (log w))).
Proof. intros Hf l Hl. apply Hf. exact Hl. Qed.

Lemma frame_write (w0 w : world) (ev : event) (c : list elem) (g : bool)
    (s : env) :
  frame buf w0 w ->
  frame buf w0 (emit ev (World (<[buf := c]> (heap w)) g s (log w))).
Proof.
  intros Hf l Hl. cbn [heap emit]. rewrite lookup_insert_ne by congruence.
  apply Hf. exact Hl.
Qed.

Lemma frame_print (verbose : bool) (w0 w : world) :
  frame buf w0 w -> frame buf w0 (if verbose then emit EvPrint w else w).
Proof. intros Hf. destruct verbose; [|exact Hf]. intros l Hl. apply Hf, Hl. Qed.

Lemma call_frame (w0 w : world) :
  frame buf w0 w -> frame buf w0 (call func buf kw w).2.
Proof.
  intros Hf. unfold call.
  destruct (func (read buf w) kw (host_env w)) as [[[e|v] after] s];
    apply frame_write; exact Hf.
Qed.

Lemma refresh_step_frame (st : spec_float * result) (w0 w : world) :
  frame buf w0 w -> frame buf w0 (refresh_step func tm buf x kw st w).2.
Proof.
  intros Hf. unfold refresh_step. rewrite run_copyto.
  destruct (Nat.eqb _ _); [|exact Hf].
  rewrite run_timer_now, bind_run.
  set (w1 := emit (EvCopy buf x) _).
  assert (H1 : frame buf w0 w1) by (apply frame_write; exact Hf).
  set (w2 := emit (EvNow _) _).
  assert (H2 : frame buf w0 w2) by (apply (frame_emit w0 w1); exact H1).
  pose proof (call_frame w0 w2 H2) as H3.
  destruct (call func buf kw w2) as [[e|v] w3]; [exact H3|].
  rewrite run_timer_now, ret_run. cbn [snd] in *.
  apply (frame_emit w0 w3). exact H3.
Qed.

Lemma batch_frame (r : bool) (actual : Z) (res : result) (w0 w : world) :
  frame buf w0 w -> frame buf w0 (batch func tm buf x kw r actual res w).2.
Proof.
  intros Hf. unfold batch. destruct r.
  - pose proof (for_range_inv
                  (fun _ _ w1 => frame buf w0 w1)
                  (fun _ w1 => frame buf w0 w1)
                  (fun _ st => refresh_step func tm buf x kw st)
                  (Z.to_nat actual) 0 (F64.zero, res) w Hf) as Hloop.
    destruct (for_range _ _ _ _ w) as [[e|a] w1]; apply Hloop;
      intros i a' w2 _ Hf2;
      pose proof (refresh_step_frame a' w0 w2 Hf2) as Hs;
      destruct (refresh_step _ _ _ _ _ a' w2) as [[?|?] ?]; exact Hs.
  - rewrite run_timer_now, bind_run.
    set (w1 := emit (EvNow _) _).
    assert (H1 : frame buf w0 w1) by (apply frame_emit; exact Hf).
    pose proof (for_range_inv
                  (fun _ _ w2 => frame buf w0 w2)
                  (fun _ w2 => frame buf w0 w2)
                  (fun _ _ => call func buf kw)
                  (Z.to_nat actual) 0 res w1 H1) as Hloop.
    assert (Hbody : forall i (a : result) w2, 0 <= i < 0 + Z.to_nat actual ->
              frame buf w0 w2 ->
              match call func buf kw w2 with
              | (inr _, w3) | (inl _, w3) => frame buf w0 w3
              end).
    { intros i a w2 _ Hf2. pose proof (call_frame w0 w2 Hf2) as Hs.
      destruct (call _ _ _ w2) as [[?|?] ?]; exact Hs. }
    specialize (Hloop Hbody).
    destruct (for_range _ _ _ _ w1) as [[e|a] w2]; [exact Hloop|].
    rewrite run_timer_now, ret_run. cbn [snd].
    apply (frame_emit w0 w2). exact Hloop.
Qed.

Lemma repetition_frame (r : bool) (actual : Z) (i : nat)
    (st : list spec_float * result) (w0 w : world) :
  frame buf w0 w ->
  frame buf w0 (repetition func tm buf x kw r actual i st w).2.
Proof.
  intros Hf. unfold repetition. rewrite bind_run.
  pose proof (batch_frame r actual st.2 w0 w Hf) as Hb.
  destruct (batch _ _ _ _ _ _ _ _ w) as [[e|[time_tot res]] w1]; [exact Hb|].
  cbn [snd] in Hb. rewrite run_lift.
  destruct (PyNum.div_float_int _ _) as [b|v]; [exact Hb|].
  rewrite run_setitem. destruct (Nat.ltb _ _); exact Hb.
Qed.

(** The timed region writes to no array but [buf]. *)
Lemma measure_frame (bs reps : Z) (r verbose : bool)
    (times : list spec_float) (w : world) :
  frame buf w (measure func tm buf x kw bs reps r verbose times w).2.
Proof.
  unfold measure.
  rewrite run_gc_collect, run_gc_disable, run_timer_now, bind_run.
  set (w3 := emit (EvNow _) _).
  assert (H3 : frame buf w w3) by (intros l _; reflexivity).
  pose proof (call_frame w w3 H3) as H4.
  destruct (call func buf kw w3) as [[e|res] w4]; [exact H4|].
  cbn [snd] in H4. rewrite run_timer_now.
  set (w5 := emit (EvNow _) _).
  assert (H5 : frame buf w w5) by (apply (frame_emit w w4); exact H4).
  rewrite run_lift. destruct (calibrate _ _) as [b|actual]; [exact H5|].
  rewrite run_verbose_print, bind_run.
  pose proof (frame_print verbose w w5 H5) as H6.
  set (w6 := if verbose then _ else _) in *.
  pose proof (for_range_inv
                (fun _ _ w' => frame buf w w')
                (fun _ w' => frame buf w w')
                (repetition func tm buf x kw r actual)
                (Z.to_nat reps) 0 (times, res) w6 H6) as Hloop.
  assert (Hbody : forall i a w1', 0 <= i < 0 + Z.to_nat reps ->
            frame buf w w1' ->
            match repetition func tm buf x kw r actual i a w1' with
            | (inl _, w2') | (inr _, w2') => frame buf w w2'
            end).
  { intros i a w1' _ Hf1.
    pose proof (repetition_frame r actual i a w w1' Hf1) as Hs.
    destruct (repetition _ _ _ _ _ _ _ _ _ w1') as [[?|?] ?]; exact Hs. }
  specialize (Hloop Hbody).
  destruct (for_range _ _ _ _ w6) as [[e|st] w7]; [exact Hloop|].
  rewrite run_gc_enable, ret_run. cbn [snd].
  apply (frame_emit w w7). exact Hloop.
Qed.

End Frame.

(** * The claims *)

Section Claims.
Context `{H : Host}.

Lemma last_call_after (l a b : list event) (arg : loc) (seen : list elem)
    (out : exc + result) (l' : list event) :
  l' = l ++ a ++ EvCall arg seen out :: b ->
  last_call l' = last_call (a ++ EvCall arg seen out :: b).
Proof.
  intros ->. unfold last_call. rewrite !omap_app. simpl omap.
  rewrite last_app. destruct (last (_ ++ out :: _)) eqn:Hl; [reflexivity|].
  apply last_None in Hl. destruct (omap _ a); discriminate.
Qed.

(** C1, as amended: whenever [time_func] returns normally, the garbage
    collector is enabled when control returns to the caller, whatever its
    state was before the call; so the state after the call equals the state
    before it whenever collection was enabled at entry. *)
Theorem time_func_enables_gc_on_return (func : pyfunc) (x kwargs : pyval)
    (timer : option Timer) (batch_size repetitions : Z)
    (refresh_buffer verbose : bool) (w w' : world)
    (r : list spec_float * result) :
  time_func func x kwargs timer batch_size repetitions refresh_buffer verbose w
    = (inr r, w') ->
  gc_enabled w' = true /\ (gc_enabled w = true -> gc_enabled w' = gc_enabled w).
Proof.
  intros Hrun. destruct r as [times res].
  destruct (time_func_returns _ _ _ _ _ _ _ _ _ _ _ Hrun)
    as (xl & kw & tm & buf & w1 & _ & _ & _ & _ & _ & Hm).
  destruct (measure_counts _ _ _ _ _ _ _ _ _ _ _ _ _ _ Hm)
    as (t0 & t1 & actual & r0 & _ & _ & _ & _ & Hgc & _).
  split; [exact Hgc | congruence].
Qed.


(** C3: with [refresh_buffer] set, on every call of a run (the warm-up and
    every call of every batch, also in a run that ends in an exception) the
    function is given a buffer whose contents are those of the input array
    [x], which itself holds its original contents throughout. *)
Theorem refresh_buffer_shows_input (func : pyfunc) (xl : loc)
    (xs : list elem) (kwargs : pyval) (timer : option Timer)
    (batch_size repetitions : Z) (verbose : bool) (w : world) :
  heap w !! xl = Some xs ->
  let run := time_func func (Ndarray xl) kwargs timer batch_size repetitions
               true verbose w in
  heap run.2 !! xl = Some xs /\
  exists new, log run.2 = log w ++ new /\ Forall (saw xs) new.
Proof.
  intros Hx run.
  destruct (time_func_any_exit func xl xs kwargs timer batch_size repetitions
              true verbose w Hx)
    as (_ & Hx' & pre & post & Hlog & Hpre & Hpost).
  split; [exact Hx'|]. exists (pre ++ post). split; [exact Hlog|].
  apply Forall_app. split.
  - eapply Forall_impl; [exact Hpre|]. intros ev [->|[->| ->]]; exact I.
  - eapply Forall_impl; [exact Hpost|]. intros ev. apply allowed_saw.
Qed.


(** C5: when [x] is not an array or [kwargs] is not a dict, [time_func]
    raises [ValueError] and leaves the world as it was: no buffer is
    allocated, the function is not called, no time is sampled. *)
Theorem invalid_argument_is_eager (func : pyfunc) (x kwargs : pyval)
    (timer : option Timer) (batch_size repetitions : Z)
    (refresh_buffer verbose : bool) (w : world) :
  is_ndarray x = false \/ is_dict kwargs = false ->
  time_func func x kwargs timer batch_size repetitions refresh_buffer verbose w
    = (inl (Builtin ValueError), w).
Proof.
  destruct x, kwargs; intros [Hbad|Hbad]; try discriminate; reflexivity.
Qed.


(** C7: [get_timer] goes through the names in order and takes the first
    module that can be imported; it builds the timer of that name when it
    is one of the clock sources it knows ([KeyError] for another name), and
    when no module of the list can be imported it fails (with
    [UnboundLocalError]) and builds no timer. *)
Theorem get_timer_first_available (time_modules : list string) :
  (Forall (fun m => import_module m = None) time_modules ->
   get_timer time_modules = inl UnboundLocalError) /\
  (forall pre m post tmod,
     time_modules = pre ++ m :: post ->
     Forall (fun m' => import_module m' = None) pre ->
     import_module m = Some tmod ->
     get_timer_loop time_modules = Some (m, tmod) /\
     (In m default_time_modules ->
      exists tm, get_timer time_modules = inr tm /\
                 name tm = m /\ module tm = tmod) /\
     (~ In m default_time_modules -> get_timer time_modules = inl KeyError)).
Proof.
  split.
  - intros Hnone. unfold get_timer.
    rewrite (get_timer_loop_none _ Hnone). reflexivity.
  - intros pre m post tmod -> Hpre Hm.
    pose proof (get_timer_loop_first pre post m tmod Hpre Hm) as Hloop.
    split; [exact Hloop|]. unfold get_timer. rewrite Hloop. split.
    + intros Hin. simpl in Hin. destruct Hin as [<-|[<-|[<-|[]]]];
        eexists; (split; [reflexivity|]); split; reflexivity.
    + intros Hout. simpl in Hout. cbn [dict_getitem].
      destruct (String.eqb_spec "itimer"%string m) as [Heq|_]; [tauto|].
      destruct (String.eqb_spec "timeit"%string m) as [Heq|_]; [tauto|].
      destruct (String.eqb_spec "time"%string m) as [Heq|_]; [tauto|].
      reflexivity.
Qed.

(** C8: the harness never changes the input array: after a run, however
    it ends and with or without [refresh_buffer], [x] holds what it held
    before; the function is only ever given the working buffer, a new
    array distinct from [x], and [x] is only ever the source of a copy. *)
Theorem input_array_never_mutated (func : pyfunc) (xl : loc)
    (xs : list elem) (kwargs : pyval) (timer : option Timer)
    (batch_size repetitions : Z) (refresh_buffer verbose : bool)
    (w : world) :
  heap w !! xl = Some xs ->
  let run := time_func func (Ndarray xl) kwargs timer batch_size repetitions
               refresh_buffer verbose w in
  heap run.2 !! xl = Some xs /\
  exists buf new, buf <> xl /\ log run.2 = log w ++ new /\
                  Forall (harness_event buf xl) new.
Proof.
  intros Hx run.
  destruct (time_func_any_exit func xl xs kwargs timer batch_size repetitions
              refresh_buffer verbose w Hx)
    as (Hne & Hx' & pre & post & Hlog & Hpre & Hpost).
  split; [exact Hx'|].
  exists (fresh (dom (heap w))), (pre ++ post).
  split; [exact Hne|]. split; [exact Hlog|].
  apply Forall_app. split.
  - eapply Forall_impl; [exact Hpre|].
    intros ev [->|[->| ->]]; simpl; auto.
  - eapply Forall_impl; [exact Hpost|]. intros ev. apply allowed_harness.
Qed.

(** C9: for a batch size of at least 1, the guard
    [time_tot * batch_size > 5] implies [time_tot > 0], so that [5/time_tot]
    never divides by zero, also when the warm-up took no time at all; and
    the batch size that comes out is at least 1. *)
Theorem calibrate_division_guarded (time_tot : spec_float) (batch_size : Z) :
  (1 <= batch_size)%Z ->
  (forall f, PyNum.float_of_int batch_size = inr f ->
             PyNum.gt_five (F64.mul time_tot f) = true ->
             F64.pos time_tot = true /\ F64.is_zero time_tot = false) /\
  calibrate time_tot batch_size <> inl ZeroDivisionError /\
  (forall n, calibrate time_tot batch_size = inr n -> (1 <= n)%Z) /\
  (forall s f, PyNum.float_of_int batch_size = inr f ->
               calibrate (S754_zero s) batch_size = inr batch_size) /\
  ((batch_size < 2 ^ 63)%Z ->
   exists n, calibrate time_tot batch_size = inr n /\ (1 <= n)%Z).
Proof.
  intros Hb. split; [|split; [|split; [|split]]].
  - intros f Hf Hgt.
    destruct (float_of_int_pos batch_size Hb) as [Hf'|(m & e & Hf')];
      rewrite Hf' in Hf; [discriminate|]. injection Hf as <-.
    apply (gt_five_pos time_tot _ m e eq_refl Hgt).
  - destruct (calibrate_safe_gen time_tot batch_size Hb) as [->|(n & -> & _)];
      discriminate.
  - intros n Hn.
    destruct (calibrate_safe_gen time_tot batch_size Hb)
      as [Hc|(n' & Hc & Hn')]; rewrite Hc in Hn; [discriminate|].
    injection Hn as <-. exact Hn'.
  - intros s f Hf. unfold calibrate, PyNum.mul_float_int. rewrite Hf.
    destruct (float_of_int_pos batch_size Hb) as [Hf'|(m & e & Hf')];
      rewrite Hf' in Hf; [discriminate|]. injection Hf as <-. reflexivity.
  - intros Hlt.
    destruct (calibrate_safe_gen time_tot batch_size Hb)
      as [Hc|(n & Hc & Hn)]; [|eauto].
    destruct (calibrate_total time_tot batch_size ltac:(lia))
      as (n & Hc' & _). congruence.
Qed.

(** C10, as amended: in a run that returns, the function is called
    [1 + repetitions * max 0 actual] times, where [actual] is the batch
    size chosen from the warm-up latency: once to warm up and [max 0 actual]
    times in each repetition; with no repetitions the function is called
    once, the series is empty and the result is that of the warm-up call. *)
Theorem time_func_calls_func (func : pyfunc) (x kwargs : pyval)
    (timer : option Timer) (batch_size repetitions : Z)
    (refresh_buffer verbose : bool) (w w' : world)
    (times : list spec_float) (res : result) :
  time_func func x kwargs timer batch_size repetitions refresh_buffer verbose w
    = (inr (times, res), w') ->
  exists tm t0 t1 actual buf seen r0 pre rest,
    timer_resolves timer tm /\
    log w' = log w ++ pre ++ [EvNow t0; EvCall buf seen (inr r0); EvNow t1]
                   ++ rest /\
    count_calls pre = 0 /\
    calibrate (time_delta tm t0 t1) batch_size = inr actual /\
    Z.of_nat (count_calls (log w'))
      = (Z.of_nat (count_calls (log w)) + 1
         + repetitions * Z.max 0 actual)%Z /\
    (repetitions = 0%Z -> times = [] /\ res = r0).
Proof.
  intros Hrun.
  destruct (time_func_returns _ _ _ _ _ _ _ _ _ _ _ Hrun)
    as (xl & kw & tm & buf & w1 & _ & _ & Htm & Hreps & Hlog1 & Hm).
  destruct (measure_counts _ _ _ _ _ _ _ _ _ _ _ _ _ _ Hm)
    as (t0 & t1 & actual & r0 & Hcal & Hcount & _ & _ & _ & Hzero
        & [rest Hpre]).
  exists tm, t0, t1, actual, buf, (read buf w1), r0,
    (prelude_prints timer verbose
       ++ [EvAlloc buf; EvCopy buf xl; EvGcCollect; EvGcDisable]), rest.
  split; [exact Htm|]. split.
  { rewrite Hpre, Hlog1, <- !app_assoc. reflexivity. }
  split; [destruct timer, verbose; reflexivity|].
  split; [exact Hcal|]. split.
  - rewrite Hcount, Hlog1, !count_calls_app.
    replace (count_calls (prelude_prints timer verbose)) with 0
      by (destruct timer, verbose; reflexivity).
    change (count_calls [EvAlloc buf; EvCopy buf xl]) with 0.
    rewrite !Nat2Z.inj_add, Nat2Z.inj_mul, Z2Nat.id by exact Hreps.
    replace (Z.of_nat (Z.to_nat actual)) with (Z.max 0 actual) by lia.
    simpl Z.of_nat. lia.
  - intros ->. destruct (Hzero eq_refl) as [-> ->]. auto.
Qed.

End Claims.

(** * The claims on the concrete host *)

Lemma negate_total : func_total Demo.negate.
Proof.
  intros seen kw s. eexists _, _, _. split; [reflexivity|].
  apply length_fmap.
Qed.

Lemma tick_total : func_total Demo.tick.
Proof. intros seen kw s. eexists _, _, _. split; reflexivity. Qed.

Lemma time_func_enables_gc_on_return_witness :
  gc_enabled
    (time_func Demo.identity Demo.x Demo.kwargs None 4 3 false false
       Demo.start_gc_off).2 = true.
Proof.
  destruct (returned_run
              (time_func Demo.identity Demo.x Demo.kwargs None 4 3 false false)
              Demo.start_gc_off) as [r Hrun]; [vm_compute; reflexivity|].
  exact (proj1 (time_func_enables_gc_on_return _ _ _ _ _ _ _ _ _ _ _ Hrun)).
Defined.

(** C1 fails on the code: a function that raises leaves the collector
    disabled, and a caller who had disabled it finds it enabled. *)
Lemma gc_state_not_restored :
  let raised := time_func Demo.failing Demo.x Demo.kwargs (Some Demo.clock)
                  16 24 true false Demo.start in
  let back := time_func Demo.identity Demo.x Demo.kwargs (Some Demo.clock)
                16 24 true false Demo.start_gc_off in
  (raised.1 = inl (Raised (H := Demo.host) "domain error"%string) /\
   gc_enabled Demo.start = true /\ gc_enabled raised.2 = false) /\
  (returned back = true /\
   gc_enabled Demo.start_gc_off = false /\ gc_enabled back.2 = true).
Proof.
  cbv zeta. split; (split; [|split]); try reflexivity; vm_compute; reflexivity.
Qed.


(** In that run the warm-up latency is 0.5, and the function is called
    once to warm up and 11 times in each of the two repetitions. *)
Lemma half_second_run :
  let run := time_func Demo.tick Demo.x Demo.kwargs (Some Demo.half_clock)
               20 2 false false Demo.start in
  returned run = true /\
  firstn 2 (nows (log run.2)) = [F64.zero; half] /\
  time_delta Demo.half_clock F64.zero half = half /\
  count_calls (log run.2) = 1 + 2 * 11.
Proof.
  cbv zeta. repeat split; vm_compute; reflexivity.
Qed.

Lemma refresh_buffer_shows_input_witness :
  exists new,
    log (time_func Demo.negate Demo.x Demo.kwargs None 4 2 true false
           Demo.start).2 = log Demo.start ++ new /\
    Forall (saw (H := Demo.host) Demo.xs) new.
Proof.
  apply (refresh_buffer_shows_input Demo.negate Demo.x_loc Demo.xs
           Demo.kwargs None 4 2 false Demo.start).
  reflexivity.
Defined.


Lemma invalid_argument_is_eager_witness :
  time_func Demo.negate OtherObject Demo.kwargs None 4 2 true false Demo.start
    = (inl (Builtin ValueError), Demo.start).
Proof.
  apply invalid_argument_is_eager. left. reflexivity.
Defined.


Lemma get_timer_first_available_witness :
  exists tm, get_timer (H := Demo.host) default_time_modules = inr tm /\
             name tm = "time"%string /\ module tm = tt.
Proof.
  apply (proj2 (get_timer_first_available (H := Demo.host)
                  default_time_modules)
           ["itimer"%string; "timeit"%string] "time"%string [] tt).
  - reflexivity.
  - repeat constructor.
  - reflexivity.
  - right. right. left. reflexivity.
Defined.

Lemma input_array_never_mutated_witness :
  heap (time_func Demo.negate Demo.x Demo.kwargs None 4 2 true false
          Demo.start).2 !! Demo.x_loc = Some Demo.xs.
Proof.
  apply (input_array_never_mutated Demo.negate Demo.x_loc Demo.xs
           Demo.kwargs None 4 2 true false Demo.start).
  reflexivity.
Defined.

Lemma calibrate_division_guarded_witness :
  calibrate (S754_zero false) 16 <> inl ZeroDivisionError /\
  exists n, calibrate (S754_zero false) 16 = inr n /\ (1 <= n)%Z.
Proof.
  pose proof (calibrate_division_guarded (S754_zero false) 16
                ltac:(discriminate)) as (_ & Hsafe & _ & _ & Htotal).
  split; [exact Hsafe|]. apply Htotal. reflexivity.
Defined.

Lemma time_func_calls_func_witness :
  exists actual,
    Z.of_nat (count_calls (log (time_func Demo.negate Demo.x Demo.kwargs None
                                  4 2 true false Demo.start).2))
    = (Z.of_nat (count_calls (log Demo.start)) + 1 + 2 * Z.max 0 actual)%Z.
Proof.
  destruct (returned_run
              (time_func Demo.negate Demo.x Demo.kwargs None 4 2 true false)
              Demo.start) as [[times res] Hrun]; [vm_compute; reflexivity|].
  destruct (time_func_calls_func _ _ _ _ _ _ _ _ _ _ _ _ Hrun)
    as (tm & t0 & t1 & actual & buf & seen & r0 & pre & rest & _ & _ & _ & _
        & Hcount & _).
  exists actual. exact Hcount.
Defined.

(** C10 fails on the code: with a batch size of -3 and one repetition the
    run returns, the batch size that is used is -3, and the function is
    called once, not [1 + 1 * -3] times. *)
Lemma negative_batch_size_calls_once :
  let run := time_func Demo.identity Demo.x Demo.kwargs (Some Demo.clock)
               (-3) 1 true false Demo.start in
  returned run = true /\
  calibrate (S754_zero false) (-3) = inr (-3)%Z /\
  count_calls (log run.2) = 1 /\
  Z.of_nat (count_calls (log run.2)) <> (1 + 1 * -3)%Z.
Proof.
  cbv zeta. repeat split; try (vm_compute; reflexivity).
  vm_compute. discriminate.
Qed.

(** * Further properties of [time_func] *)

Section HarnessProperties.
Context `{H : Host}.

Lemma quiet_call_returned (ev : event) : quiet ev -> call_returned ev.
Proof. destruct ev as [| | ? ? [?|?]| | | | |]; simpl; tauto. Qed.

Lemma quiet_no_switch (ev : event) : quiet ev -> is_gc_switch ev = false.
Proof. destruct ev as [| | ? ? [?|?]| | | | |]; simpl; tauto. Qed.

Lemma prints_no_calls (pre : list event) :
  Forall (fun ev => ev = EvPrint) pre ->
  count_calls pre = 0 /\ count_copies pre = 0 /\
  Forall call_returned pre /\ Forall (fun ev => is_gc_switch ev = false) pre.
Proof.
  induction 1 as [|ev l -> _ (IH1 & IH2 & IH3 & IH4)].
  - repeat split; constructor.
  - repeat split; try assumption; constructor; simpl; auto.
Qed.

(** X1. [time_func] never swallows an exception of the timed function and
    never calls it again after one: a run ends with the exception [e] of
    the timed function exactly when its last event is a call that raised
    [e], and in every run all calls before the last event returned. *)
Theorem func_exception_ends_the_run (func : pyfunc) (x kwargs : pyval)
    (timer : option Timer) (bs reps : Z) (refresh verbose : bool)
    (w : world) :
  let run := time_func func x kwargs timer bs reps refresh verbose w in
  match run.1 with
  | inl (Raised e) =>
      exists pre arg seen,
        log run.2 = log w ++ pre ++ [EvCall arg seen (inl e)] /\
        Forall call_returned pre
  | _ => exists new, log run.2 = log w ++ new /\ Forall call_returned new
  end.
Proof.
  intros run.
  pose proof (time_func_cases func x kwargs timer bs reps refresh verbose w) as Hcases.
  cbv zeta in Hcases. fold run in Hcases. clearbody run.
  destruct Hcases
    as [(b & pre & Hout & Hlog & Hpre & _)
       |(xl & kw & tm & buf & pre & w1 & _ & _ & _ & _ & Hl1 & Hpre & _ & Hrun & _)].
  - rewrite Hout. exists pre. split; [exact Hlog|].
    apply (prints_no_calls pre Hpre).
  - pose proof (measure_region func tm buf xl kw bs reps refresh verbose
                  (replicate (Z.to_nat reps) junk_time) w1) as Hexit.
    rewrite <- Hrun in Hexit. unfold measure_exit in Hexit.
    assert (Hhead : Forall call_returned
                      (pre ++ [EvAlloc buf; EvCopy buf xl]
                           ++ [EvGcCollect; EvGcDisable])).
    { apply Forall_app. split; [apply (prints_no_calls pre Hpre)|].
      repeat constructor. }
    destruct run.1 as [[b|e]|r].
    + destruct Hexit as (mid & (Hl & Hq & _) & _).
      exists ((pre ++ [EvAlloc buf; EvCopy buf xl]
                   ++ [EvGcCollect; EvGcDisable]) ++ mid).
      split; [rewrite Hl, Hl1, <- !app_assoc; reflexivity|].
      apply Forall_app. split; [exact Hhead|].
      eapply Forall_impl; [exact Hq | exact quiet_call_returned].
    + destruct Hexit as (mid & arg & seen & Hl & Hq & _).
      exists ((pre ++ [EvAlloc buf; EvCopy buf xl]
                   ++ [EvGcCollect; EvGcDisable]) ++ mid), arg, seen.
      split; [rewrite Hl, Hl1, <- !app_assoc; reflexivity|].
      apply Forall_app. split; [exact Hhead|].
      eapply Forall_impl; [exact Hq | exact quiet_call_returned].
    + destruct Hexit as (mid & Hl & Hq & _).
      exists ((pre ++ [EvAlloc buf; EvCopy buf xl]
                   ++ [EvGcCollect; EvGcDisable]) ++ mid ++ [EvGcEnable]).
      split; [rewrite Hl, Hl1, <- !app_assoc; reflexivity|].
      apply Forall_app. split; [exact Hhead|].
      apply Forall_app. split; [|repeat constructor].
      eapply Forall_impl; [exact Hq | exact quiet_call_returned].
Qed.

(** X2. Every call of the timed function happens with the collector
    switched off: [gc.disable()] comes before the first call and
    [gc.enable()], if at all, is the last thing done.  A run that raises
    after [gc.disable()] leaves the collector off; a run that raises
    earlier neither calls the function nor touches the collector. *)
Theorem calls_run_with_gc_disabled (func : pyfunc) (x kwargs : pyval)
    (timer : option Timer) (bs reps : Z) (refresh verbose : bool)
    (w : world) :
  let run := time_func func x kwargs timer bs reps refresh verbose w in
  let no_switch := Forall (fun ev => is_gc_switch ev = false) in
  match run.1 with
  | inr _ =>
      exists pre mid,
        log run.2 = log w ++ pre ++ EvGcDisable :: mid ++ [EvGcEnable] /\
        count_calls pre = 0 /\ no_switch pre /\ no_switch mid /\
        gc_enabled run.2 = true
  | inl _ =>
      (exists pre mid,
         log run.2 = log w ++ pre ++ EvGcDisable :: mid /\
         count_calls pre = 0 /\ no_switch pre /\ no_switch mid /\
         gc_enabled run.2 = false) \/
      (exists new,
         log run.2 = log w ++ new /\ count_calls new = 0 /\ no_switch new /\
         gc_enabled run.2 = gc_enabled w)
  end.
Proof.
  intros run no_switch.
  pose proof (time_func_cases func x kwargs timer bs reps refresh verbose w) as Hcases.
  cbv zeta in Hcases. fold run in Hcases. clearbody run.
  destruct Hcases
    as [(b & pre & Hout & Hlog & Hpre & Hg & _)
       |(xl & kw & tm & buf & pre & w1 & _ & _ & _ & _ & Hl1 & Hpre & _ & Hrun & _)].
  - rewrite Hout. right. exists pre.
    destruct (prints_no_calls pre Hpre) as (Hc & _ & _ & Hs). auto.
  - pose proof (measure_region func tm buf xl kw bs reps refresh verbose
                  (replicate (Z.to_nat reps) junk_time) w1) as Hexit.
    rewrite <- Hrun in Hexit. unfold measure_exit in Hexit.
    destruct (prints_no_calls pre Hpre) as (Hc & _ & _ & Hs).
    set (head := pre ++ [EvAlloc buf; EvCopy buf xl; EvGcCollect]).
    assert (Hhc : count_calls head = 0)
      by (unfold head; rewrite count_calls_app, Hc; reflexivity).
    assert (Hhs : no_switch head).
    { apply Forall_app. split; [exact Hs | repeat constructor]. }
    assert (Hquiet : forall mid, Forall quiet mid -> no_switch mid)
      by (intros mid Hq; eapply Forall_impl;
          [exact Hq | exact quiet_no_switch]).
    destruct run.1 as [[b|e]|r].
    + left. destruct Hexit as (mid & (Hl & Hq & Hg) & _). exists head, mid.
      split; [rewrite Hl, Hl1; unfold head; rewrite <- !app_assoc;
              reflexivity|]. repeat split; auto.
    + left. destruct Hexit as (mid & arg & seen & Hl & Hq & Hg & _).
      exists head, (mid ++ [EvCall arg seen (inl e)]).
      split; [rewrite Hl, Hl1; unfold head; rewrite <- !app_assoc;
              reflexivity|].
      repeat split; auto. apply Forall_app. split; [apply Hquiet; exact Hq|].
      repeat constructor.
    + destruct Hexit as (mid & Hl & Hq & Hg & _). exists head, mid.
      split; [rewrite Hl, Hl1; unfold head; rewrite <- !app_assoc;
              reflexivity|]. repeat split; auto.
Qed.

(** X3. With [refresh_buffer] set, every call of the timed function has
    its own copy of the input: however the run ends, it made as many
    copies as calls. *)
Theorem refresh_copies_once_per_call (func : pyfunc) (x kwargs : pyval)
    (timer : option Timer) (bs reps : Z) (verbose : bool) (w : world) :
  let run := time_func func x kwargs timer bs reps true verbose w in
  exists new,
    log run.2 = log w ++ new /\ count_copies new = count_calls new.
Proof.
  intros run.
  pose proof (time_func_cases func x kwargs timer bs reps true verbose w) as Hcases.
  cbv zeta in Hcases. fold run in Hcases. clearbody run.
  destruct Hcases
    as [(b & pre & Hout & Hlog & Hpre & _)
       |(xl & kw & tm & buf & pre & w1 & _ & _ & _ & _ & Hl1 & Hpre & _ & Hrun & _)].
  - exists pre. split; [exact Hlog|].
    destruct (prints_no_calls pre Hpre) as (Hc & Hk & _). congruence.
  - pose proof (measure_region func tm buf xl kw bs reps true verbose
                  (replicate (Z.to_nat reps) junk_time) w1) as Hexit.
    rewrite <- Hrun in Hexit. unfold measure_exit in Hexit.
    destruct (prints_no_calls pre Hpre) as (Hc & Hk & _).
    destruct run.1 as [[b|e]|r].
    + destruct Hexit as (mid & (Hl & _) & Hp). specialize (Hp eq_refl).
      eexists. split; [rewrite Hl, Hl1, <- !app_assoc; reflexivity|].
      rewrite !count_copies_app, !count_calls_app, Hc, Hk.
      change (count_copies [EvAlloc buf; EvCopy buf xl]) with 1.
      change (count_calls [EvAlloc buf; EvCopy buf xl]) with 0.
      change (count_copies [EvGcCollect; EvGcDisable]) with 0.
      change (count_calls [EvGcCollect; EvGcDisable]) with 0. lia.
    + destruct Hexit as (mid & arg & seen & Hl & _ & _ & Hp).
      specialize (Hp eq_refl).
      eexists. split; [rewrite Hl, Hl1, <- !app_assoc; reflexivity|].
      rewrite !count_copies_app, !count_calls_app, Hc, Hk.
      change (count_copies [EvAlloc buf; EvCopy buf xl]) with 1.
      change (count_calls [EvAlloc buf; EvCopy buf xl]) with 0.
      change (count_copies [EvGcCollect; EvGcDisable]) with 0.
      change (count_calls [EvGcCollect; EvGcDisable]) with 0.
      change (count_copies [EvCall arg seen (inl e)]) with 0.
      change (count_calls [EvCall arg seen (inl e)]) with 1. lia.
    + destruct Hexit as (mid & Hl & _ & _ & Hp). specialize (Hp eq_refl).
      eexists. split; [rewrite Hl, Hl1, <- !app_assoc; reflexivity|].
      rewrite !count_copies_app, !count_calls_app, Hc, Hk.
      change (count_copies [EvAlloc buf; EvCopy buf xl]) with 1.
      change (count_calls [EvAlloc buf; EvCopy buf xl]) with 0.
      change (count_copies [EvGcCollect; EvGcDisable]) with 0.
      change (count_calls [EvGcCollect; EvGcDisable]) with 0.
      change (count_copies [EvGcEnable]) with 0.
      change (count_calls [EvGcEnable]) with 0. lia.
Qed.

End HarnessProperties.

Section EdgeFacts.

(** A product with zero is never above five seconds. *)
Lemma calibrate_zero (L : spec_float) : calibrate L 0 = inr 0%Z.
Proof. destruct L as [[]|[]| |[] m e]; reflexivity. Qed.

Lemma div_float_int_zero (t : spec_float) :
  PyNum.div_float_int t 0 = inl ZeroDivisionError.
Proof. reflexivity. Qed.

End EdgeFacts.

Section Edges.
Context `{H : Host}.

(** A repetition with an empty batch. *)
Lemma repetition_zero (func : pyfunc) (tm : Timer) (buf x : loc)
    (kw : kwargs_t) (r : bool) (i : nat) (st : list spec_float * result)
    (w : world) :
  exists w',
    repetition func tm buf x kw r 0 i st w
    = (inl (Builtin ZeroDivisionError), w') /\
    count_calls (log w') = count_calls (log w) /\
    gc_enabled w' = gc_enabled w.
Proof.
  unfold repetition, batch. rewrite bind_run. destruct r.
  - simpl for_range. rewrite ret_run, run_lift, div_float_int_zero. eauto.
  - rewrite run_timer_now, bind_run. simpl for_range.
    rewrite ret_run, run_timer_now, ret_run, run_lift, div_float_int_zero.
    eexists. split; [reflexivity|]. cbn [log emit gc_enabled].
    rewrite !count_calls_snoc. cbn [is_call]. split; [lia|reflexivity].
Qed.


(** X5. A negative [repetitions] is refused by [np.empty] with
    [ValueError], after the timer has been found and before the buffer is
    allocated: nothing is copied or called and the collector is not
    touched. *)
Theorem negative_repetitions_raise (func : pyfunc) (xl : loc)
    (kw : kwargs_t) (timer : option Timer) (tm : Timer) (bs reps : Z)
    (refresh verbose : bool) (w : world) :
  timer_resolves timer tm -> (reps < 0)%Z ->
  time_func func (Ndarray xl) (Dict kw) timer bs reps refresh verbose w
  = (inl (Builtin ValueError),
     World (heap w) (gc_enabled w) (host_env w)
       (log w ++ prelude_prints timer verbose)).
Proof.
  intros Htm Hreps. unfold time_func. rewrite !run_ret, run_resolve.
  assert (Hnp : forall w0 : world,
            (times_list ← np_empty reps;
             b ← np_empty_like xl;
             np_copyto b xl;;
             measure func tm b xl kw bs reps refresh verbose times_list) w0
            = (inl (Builtin ValueError), w0)).
  { intros w0. unfold np_empty.
    destruct (Z.ltb_spec reps 0); [reflexivity | lia]. }
  destruct timer as [t|]; simpl in Htm.
  - subst t. rewrite Hnp. simpl. rewrite app_nil_r. destruct w; reflexivity.
  - rewrite Htm, Hnp. destruct verbose; simpl; rewrite ?app_nil_r;
      destruct w; reflexivity.
Qed.

(** X18. A [repetitions] of 2^60 or more is refused by [np.empty] with
    [ValueError] as well (the series would be larger than any array can
    be), after the timer has been found and before the buffer is
    allocated: nothing is copied or called and the collector is not
    touched. *)
Theorem oversized_repetitions_raise (func : pyfunc) (xl : loc)
    (kw : kwargs_t) (timer : option Timer) (tm : Timer) (bs reps : Z)
    (refresh verbose : bool) (w : world) :
  timer_resolves timer tm -> (2 ^ 60 <= reps)%Z ->
  time_func func (Ndarray xl) (Dict kw) timer bs reps refresh verbose w
  = (inl (Builtin ValueError),
     World (heap w) (gc_enabled w) (host_env w)
       (log w ++ prelude_prints timer verbose)).
Proof.
  intros Htm Hreps. unfold time_func. rewrite !run_ret, run_resolve.
  assert (Hnp : forall w0 : world,
            (times_list ← np_empty reps;
             b ← np_empty_like xl;
             np_copyto b xl;;
             measure func tm b xl kw bs reps refresh verbose times_list) w0
            = (inl (Builtin ValueError), w0)).
  { intros w0. unfold np_empty.
    destruct (Z.ltb_spec reps 0); [reflexivity|].
    destruct (Z.leb_spec (2 ^ 60) reps); [reflexivity | lia]. }
  destruct timer as [t|]; simpl in Htm.
  - subst t. rewrite Hnp. simpl. rewrite app_nil_r. destruct w; reflexivity.
  - rewrite Htm, Hnp. destruct verbose; simpl; rewrite ?app_nil_r;
      destruct w; reflexivity.
Qed.

(** X6. Without a timer and with none of the modules [itimer], [timeit],
    [time] importable, [time_func] raises [UnboundLocalError] out of
    [get_timer] and leaves the world as it found it. *)
Theorem no_clock_no_run (func : pyfunc) (xl : loc) (kw : kwargs_t)
    (bs reps : Z) (refresh verbose : bool) (w : world) :
  Forall (fun m => import_module m = None) default_time_modules ->
  time_func func (Ndarray xl) (Dict kw) None bs reps refresh verbose w
  = (inl (Builtin UnboundLocalError), w).
Proof.
  intros Hnone. unfold time_func, get_timer.
  rewrite (get_timer_loop_none _ Hnone). reflexivity.
Qed.

End Edges.

Section RefreshProperties.
Context `{H : Host}.

(** X7. With [refresh_buffer] set, a run on valid arguments that returns
    times every call on its own: each batch is a row of copies of [x]
    into the buffer, each followed by one call between two clock
    samples, so that no copy falls between the samples; and each
    measurement is the sum of the intervals of its batch, added up from
    zero in order, divided by the effective batch size. *)
Theorem refresh_times_each_call_alone (func : pyfunc) (xl : loc)
    (xs : list elem) (kw : kwargs_t) (timer : option Timer) (tm : Timer)
    (batch_size repetitions : Z) (verbose : bool) (w : world)
    (times : list spec_float) (res : result) :
  heap w !! xl = Some xs -> timer_resolves timer tm ->
  (0 <= repetitions)%Z ->
  let run := time_func func (Ndarray xl) (Dict kw) timer batch_size
               repetitions true verbose w in
  let buf := fresh (dom (heap w)) in
  run.1 = inr (times, res) ->
  exists t0 out t1 actual bl,
    log run.2 = log w ++ prelude_prints timer verbose
                      ++ [EvAlloc buf; EvCopy buf xl]
                      ++ [EvGcCollect; EvGcDisable; EvNow t0;
                          EvCall buf xs out; EvNow t1]
                      ++ (if verbose then [EvPrint] else [])
                      ++ concat (refreshed_batch buf xl <$> bl)
                      ++ [EvGcEnable] /\
    calibrate (time_delta tm t0 t1) batch_size = inr actual /\
    length bl = Z.to_nat repetitions /\
    Forall (batch_of (Z.to_nat actual)) bl /\
    Forall2 (accumulated_measure tm actual) bl times.
Proof.
  intros Hx Htm _ run buf Hret.
  destruct (time_func_returns_allocated func (Ndarray xl) (Dict kw) timer
              batch_size repetitions true verbose w run.2 (times, res))
    as [Hreps Hmem].
  { rewrite <- Hret. apply surjective_pairing. }
  destruct (time_func_prelude func xl xs kw timer tm batch_size repetitions
              true verbose w Htm Hreps Hmem Hx) as [Hne Hrun].
  fold buf run in Hrun. set (w1 := World _ _ _ _) in Hrun.
  assert (Hm : measure func tm buf xl kw batch_size repetitions true
                 verbose (replicate (Z.to_nat repetitions) junk_time) w1
               = (inr (times, res), run.2)).
  { rewrite <- Hrun, <- Hret. apply surjective_pairing. }
  destruct (measure_refreshed func tm buf xl kw batch_size repetitions
              verbose _ _ _ _ _ (length_replicate _ _) Hm)
    as (t0 & out & t1 & actual & bl & Hlog & Hcal & Hlen & Hbl & Hms).
  exists t0, out, t1, actual, bl.
  split; [|auto].
  rewrite Hlog. unfold w1, read. cbn [log heap].
  rewrite lookup_insert_eq. cbn [default from_option id].
  rewrite <- !app_assoc. reflexivity.
Qed.

(** X8. [time_func] writes to no array of its caller: whatever its
    arguments are and however it ends, every array that exists when it
    is called holds afterwards what it held before; the only array
    written is the buffer that [time_func] allocates. *)
Theorem time_func_writes_only_its_buffer (func : pyfunc) (x kwargs : pyval)
    (timer : option Timer) (bs reps : Z) (refresh verbose : bool)
    (w : world) (l : loc) :
  is_Some (heap w !! l) ->
  heap (time_func func x kwargs timer bs reps refresh verbose w).2 !! l
  = heap w !! l.
Proof.
  intros Hl.
  pose proof (time_func_cases func x kwargs timer bs reps refresh verbose w)
    as Hcases. cbv zeta in Hcases.
  destruct Hcases
    as [(b & pre & _ & _ & _ & _ & Hheap)
       |(xl & kw & tm & buf & pre & w1 & _ & _ & _ & _ & _ & _ & _ & Hrun
         & Hbuf & Hframe)].
  - rewrite Hheap. reflexivity.
  - assert (Hne : l <> buf).
    { intros ->. apply (is_fresh (dom (heap w))). rewrite <- Hbuf.
      apply elem_of_dom. exact Hl. }
    rewrite Hrun.
    rewrite (measure_frame func tm buf xl kw bs reps refresh verbose
               (replicate (Z.to_nat reps) junk_time) w1 l Hne).
    apply Hframe. exact Hne.
Qed.

End RefreshProperties.

(** * The shape argument of [fft_bench.py] *)

Section ShapeFacts.
Import FftBench.

Lemma digit_is_no_x (c : ascii) : is_digit c = true -> Ascii.eqb c "x" = false.
Proof.
  intros Hc. destruct (Ascii.eqb_spec c "x") as [->|]; [discriminate|reflexivity].
Qed.

(** *** The runs of digits *)

Lemma digit_runs_nil (s : list ascii) :
  digit_runs s = [] <-> Forall (fun c => is_digit c = false) s.
Proof.
  induction s as [|c s IH]; simpl.
  - split; auto.
  - destruct (is_digit c) eqn:Hc.
    + split.
      * destruct (digit_runs s); [discriminate|].
        destruct (starts_with_digit s); discriminate.
      * intros Hall. apply Forall_cons in Hall as [Hc' _]. congruence.
    + rewrite IH. split; [intros; constructor; assumption|].
      intros Hall. apply Forall_cons in Hall as [_ Hall]. exact Hall.
Qed.

Lemma digit_runs_are_runs (s : list ascii) : Forall is_run (digit_runs s).
Proof.
  induction s as [|c s IH]; simpl; [constructor|].
  destruct (is_digit c) eqn:Hc; [|exact IH].
  assert (Hone : is_run [c]) by (split; [discriminate | simpl; rewrite Hc; reflexivity]).
  destruct (digit_runs s) as [|run runs]; [repeat constructor; apply Hone|].
  apply Forall_cons in IH as [[Hne Hrun] Hruns].
  destruct (starts_with_digit s).
  - constructor; [|exact Hruns]. split; [discriminate|].
    simpl. rewrite Hc, Hrun. reflexivity.
  - constructor; [exact Hone|]. constructor; [split; assumption | exact Hruns].
Qed.

Lemma lead_start (s : list ascii) :
  s <> [] -> lead s = negb (starts_with_digit s).
Proof. destruct s; [congruence | reflexivity]. Qed.

Lemma trail_cons (c : ascii) (s : list ascii) :
  s <> [] -> trail (c :: s) = trail s.
Proof.
  intros Hne. unfold trail. rewrite last_cons.
  destruct (last s) eqn:Hl; [reflexivity|].
  apply last_None in Hl. congruence.
Qed.

Lemma trail_no_digits (s : list ascii) :
  s <> [] -> Forall (fun c => is_digit c = false) s -> trail s = true.
Proof.
  intros Hne Hall. unfold trail. destruct (last s) as [c|] eqn:Hl.
  - apply last_Some_elem_of in Hl.
    rewrite Forall_forall in Hall. rewrite (Hall c Hl). reflexivity.
  - apply last_None in Hl. congruence.
Qed.

(** *** What the substitution leaves *)

Lemma join_cons (sep run : list ascii) (r : list ascii) (runs : list (list ascii)) :
  join sep (run :: r :: runs) = run ++ sep ++ join sep (r :: runs).
Proof. reflexivity. Qed.

Lemma join_push (sep : list ascii) (c : ascii) (run : list ascii)
    (runs : list (list ascii)) :
  join sep ((c :: run) :: runs) = c :: join sep (run :: runs).
Proof. destruct runs; reflexivity. Qed.

Lemma sub_nondigits_form (s : list ascii) :
  forall in_run : bool,
    sub_nondigits in_run s
    = match digit_runs s with
      | [] => if in_run then [] else if lead s then ["x"%char] else []
      | runs =>
          (if lead s && negb in_run then ["x"%char] else [])
            ++ join ["x"%char] runs
            ++ (if trail s then ["x"%char] else [])
      end.
Proof.
  induction s as [|c s IH]; intros b; simpl sub_nondigits.
  - destruct b; reflexivity.
  - simpl digit_runs. unfold lead at 1 2. fold (lead s).
    destruct (is_digit c) eqn:Hc; cbn [negb andb].
    + rewrite (IH false). cbn [negb andb]. rewrite andb_true_r.
      destruct (digit_runs s) as [|run runs] eqn:Hruns.
      * (* the rest holds no digit *)
        apply digit_runs_nil in Hruns.
        destruct s as [|d s]; [simpl; unfold trail; simpl; rewrite Hc; reflexivity|].
        rewrite trail_cons by discriminate.
        rewrite (trail_no_digits (d :: s)) by (discriminate || assumption).
        apply Forall_cons in Hruns as [Hd _]. simpl. rewrite Hd. reflexivity.
      * assert (Hne : s <> []) by (intros ->; discriminate).
        rewrite trail_cons by exact Hne.
        rewrite (lead_start s Hne).
        destruct (starts_with_digit s); cbn [negb].
        -- rewrite join_push. reflexivity.
        -- rewrite join_cons. reflexivity.
    + rewrite (IH true). rewrite andb_false_r.
      destruct (digit_runs s) as [|run runs] eqn:Hruns.
      * destruct b; reflexivity.
      * assert (Hne : s <> []) by (intros ->; discriminate).
        rewrite trail_cons by exact Hne. destruct b; reflexivity.
Qed.

(** *** Stripping and splitting *)

Lemma lstrip_start (s : list ascii) :
  starts_with_digit s = true -> lstrip "x" s = s.
Proof.
  destruct s as [|c s]; simpl; [reflexivity|]. intros Hc.
  rewrite (digit_is_no_x c Hc). reflexivity.
Qed.

Lemma run_start (r : list ascii) : is_run r -> starts_with_digit r = true.
Proof.
  intros [Hne Hall]. destruct r as [|c r]; [congruence|].
  simpl in *. apply andb_true_iff in Hall. apply Hall.
Qed.

Lemma run_rev (r : list ascii) : is_run r -> is_run (rev r).
Proof.
  intros [Hne Hall]. split.
  - intros Hr. apply Hne. rewrite <- (rev_involutive r), Hr. reflexivity.
  - rewrite forallb_forall in *. intros c Hc. apply Hall.
    apply in_rev. exact Hc.
Qed.

Lemma starts_with_digit_app (a b : list ascii) :
  a <> [] -> starts_with_digit (a ++ b) = starts_with_digit a.
Proof. destruct a; [congruence | reflexivity]. Qed.

Lemma join_start (runs : list (list ascii)) :
  runs <> [] -> Forall is_run runs ->
  starts_with_digit (join ["x"%char] runs) = true.
Proof.
  destruct runs as [|r runs]; [congruence|]. intros _ Hall.
  apply Forall_cons in Hall as [Hr _]. destruct runs.
  - apply run_start. exact Hr.
  - rewrite join_cons, starts_with_digit_app by apply Hr.
    apply run_start. exact Hr.
Qed.

Lemma join_end (runs : list (list ascii)) :
  runs <> [] -> Forall is_run runs ->
  starts_with_digit (rev (join ["x"%char] runs)) = true.
Proof.
  induction runs as [|r runs IH]; [congruence|]. intros _ Hall.
  apply Forall_cons in Hall as [Hr Hall]. destruct runs as [|r' runs].
  - apply run_start, run_rev. exact Hr.
  - rewrite join_cons, !rev_app_distr.
    assert (Hne : rev (join ["x"%char] (r' :: runs)) <> []).
    { pose proof (IH ltac:(discriminate) Hall) as Hs.
      intros Hnil. rewrite Hnil in Hs. discriminate. }
    rewrite <- app_assoc, starts_with_digit_app by exact Hne.
    apply IH; [discriminate | exact Hall].
Qed.

(** Stripping removes what the substitution put at the two ends. *)
Lemma strip_join (runs : list (list ascii)) (front back : bool) :
  runs <> [] -> Forall is_run runs ->
  strip "x" ((if front then ["x"%char] else [])
               ++ join ["x"%char] runs
               ++ (if back then ["x"%char] else []))
  = join ["x"%char] runs.
Proof.
  intros Hne Hall. unfold strip.
  assert (Hl : lstrip "x" ((if front then ["x"%char] else [])
                             ++ join ["x"%char] runs
                             ++ (if back then ["x"%char] else []))
               = join ["x"%char] runs ++ (if back then ["x"%char] else [])).
  { assert (Hs : lstrip "x" (join ["x"%char] runs
                               ++ (if back then ["x"%char] else []))
                 = join ["x"%char] runs ++ (if back then ["x"%char] else [])).
    { apply lstrip_start. rewrite starts_with_digit_app.
      - apply join_start; assumption.
      - pose proof (join_start runs Hne Hall) as Hj. intros Hnil.
        rewrite Hnil in Hj. discriminate. }
    destruct front; [simpl; exact Hs | exact Hs]. }
  rewrite Hl, rev_app_distr.
  assert (Hr : lstrip "x" (rev (if back then ["x"%char] else [])
                             ++ rev (join ["x"%char] runs))
               = rev (join ["x"%char] runs)).
  { pose proof (lstrip_start _ (join_end runs Hne Hall)) as Hs.
    destruct back; [simpl; exact Hs | exact Hs]. }
  rewrite Hr. apply rev_involutive.
Qed.

Lemma split_no_sep (r : list ascii) :
  forallb is_digit r = true -> split "x" r = [r].
Proof.
  induction r as [|c r IH]; simpl; [reflexivity|]. intros Hall.
  apply andb_true_iff in Hall as [Hc Hall].
  rewrite (digit_is_no_x c Hc), (IH Hall). reflexivity.
Qed.

Lemma split_app_sep (r t : list ascii) :
  forallb is_digit r = true ->
  split "x" (r ++ "x"%char :: t) = r :: split "x" t.
Proof.
  induction r as [|c r IH]; simpl; [reflexivity|]. intros Hall.
  apply andb_true_iff in Hall as [Hc Hall].
  rewrite (digit_is_no_x c Hc), (IH Hall). reflexivity.
Qed.

(** Splitting undoes joining. *)
Lemma split_join (runs : list (list ascii)) :
  runs <> [] -> Forall is_run runs -> split "x" (join ["x"%char] runs) = runs.
Proof.
  induction runs as [|r runs IH]; [congruence|]. intros _ Hall.
  apply Forall_cons in Hall as [[_ Hr] Hall]. destruct runs as [|r' runs].
  - apply split_no_sep. exact Hr.
  - rewrite join_cons.
    change (split "x" (r ++ "x"%char :: join ["x"%char] (r' :: runs))
            = r :: r' :: runs).
    rewrite split_app_sep by exact Hr.
    rewrite IH; [reflexivity | discriminate | exact Hall].
Qed.

(** The pieces that [valid_shape] passes to [int]: the runs of digits,
    or one empty piece when there is no digit. *)
Lemma pieces_are_runs (s : list ascii) :
  split "x" (strip "x" (sub_nondigits false s))
  = match digit_runs s with
    | [] => [[]]
    | runs => runs
    end.
Proof.
  rewrite sub_nondigits_form.
  pose proof (digit_runs_are_runs s) as Hall.
  destruct (digit_runs s) as [|r runs] eqn:Hruns.
  - destruct (lead s); reflexivity.
  - rewrite andb_true_r, strip_join by (discriminate || assumption).
    apply split_join; [discriminate | exact Hall].
Qed.

(** *** Reading a run of digits *)

Lemma fold_of_uint_acc (d : Decimal.uint) :
  forall acc : positive,
    fold_left (fun a c => (10 * a + (Z.of_nat (nat_of_ascii c) - 48))%Z)
      (list_ascii_of_string (NilEmpty.string_of_uint d)) (Zpos acc)
    = Zpos (Pos.of_uint_acc d acc).
Proof.
  induction d; intros acc; cbn [NilEmpty.string_of_uint list_ascii_of_string
                                 fold_left Pos.of_uint_acc];
    [reflexivity|..];
    match goal with
    | |- fold_left _ _ ?z = Zpos (Pos.of_uint_acc _ ?q) =>
        replace z with (Zpos q)
          by (match goal with
              | |- context [Z.of_nat (nat_of_ascii ?c)] =>
                  let v := eval vm_compute in (Z.of_nat (nat_of_ascii c)) in
                  change (Z.of_nat (nat_of_ascii c)) with v
              end; lia)
    end; apply IHd.
Qed.

Lemma digits_value_of_uint (d : Decimal.uint) :
  digits_value (list_ascii_of_string (NilEmpty.string_of_uint d))
  = Z.of_uint d.
Proof.
  unfold digits_value, Z.of_uint.
  induction d; cbn [NilEmpty.string_of_uint list_ascii_of_string fold_left
                     Pos.of_uint]; [reflexivity| exact IHd |..];
    match goal with
    | |- fold_left _ _ ?z = Z.of_N (Npos (Pos.of_uint_acc _ ?q)) =>
        change z with (Zpos q)
    end; apply fold_of_uint_acc.
Qed.

Lemma run_parses (r : list ascii) :
  forallb is_digit r = true ->
  exists d, NilEmpty.uint_of_string (string_of_list_ascii r) = Some d.
Proof.
  induction r as [|c r IH]; simpl; [eauto|]. intros Hall.
  apply andb_true_iff in Hall as [Hc Hall].
  destruct (IH Hall) as [d ->].
  destruct c as [[] [] [] [] [] [] [] []]; try discriminate; simpl; eauto.
Qed.

(** [int] of a run of digits: its value, unless it is too long. *)
Lemma int_of_digits_run (m : nat) (r : list ascii) :
  is_run r ->
  int_of_digits m r
  = if too_long m r then inl ValueError else inr (digits_value r).
Proof.
  intros [Hne Hall]. unfold int_of_digits.
  destruct r as [|c r]; [congruence|].
  destruct (run_parses _ Hall) as [d Hd]. rewrite Hd.
  destruct (too_long m (c :: r)); [reflexivity|].
  apply NilEmpty.sus in Hd.
  rewrite <- (list_ascii_of_string_of_list_ascii (c :: r)), <- Hd.
  rewrite digits_value_of_uint. reflexivity.
Qed.

Lemma tuple_of_runs (m : nat) (runs : list (list ascii)) :
  Forall is_run runs ->
  tuple_of (int_of_digits m) runs
  = if existsb (too_long m) runs then inl ValueError
    else inr (digits_value <$> runs).
Proof.
  induction 1 as [|r runs Hr _ IH]; [reflexivity|].
  cbn [tuple_of existsb]. rewrite (int_of_digits_run m r Hr), IH.
  destruct (too_long m r); [reflexivity|].
  destruct (existsb (too_long m) runs); reflexivity.
Qed.

Lemma digit_value_range (c : ascii) :
  is_digit c = true ->
  (0 <= Z.of_nat (nat_of_ascii c) - 48 <= 9)%Z /\
  (Z.of_nat (nat_of_ascii c) - 48 = 0 <-> Ascii.eqb "0" c = true)%Z.
Proof.
  destruct c as [[] [] [] [] [] [] [] []]; try discriminate; intros _;
    vm_compute; (split; [split; discriminate|]);
    split; intros; (reflexivity || discriminate).
Qed.

Lemma fold_digits_zero (r : list ascii) :
  forallb is_digit r = true ->
  forall acc : Z, (0 <= acc)%Z ->
    let v := fold_left
               (fun a c => (10 * a + (Z.of_nat (nat_of_ascii c) - 48))%Z)
               r acc in
    (0 <= v)%Z /\ (v = 0%Z <-> acc = 0%Z /\ all_zeros r = true).
Proof.
  induction r as [|c r IH]; intros Hall acc Hacc; simpl.
  - split; [exact Hacc|]. tauto.
  - simpl in Hall. apply andb_true_iff in Hall as [Hc Hall].
    destruct (digit_value_range c Hc) as [Hrange Hzero].
    destruct (IH Hall (10 * acc + (Z.of_nat (nat_of_ascii c) - 48))%Z
                ltac:(lia)) as [Hnn Hiff].
    split; [exact Hnn|]. rewrite Hiff, andb_true_iff, <- Hzero.
    split; [intros [Hs Hz]|intros [Ha [Hz Hr]]]; repeat split; auto; lia.
Qed.

Lemma digits_value_zero (r : list ascii) :
  forallb is_digit r = true ->
  (digits_value r <? 1)%Z = all_zeros r.
Proof.
  intros Hall.
  destruct (fold_digits_zero r Hall 0%Z ltac:(lia)) as [Hnn Hiff].
  fold (digits_value r) in Hnn, Hiff.
  destruct (all_zeros r).
  - apply Z.ltb_lt. assert (digits_value r = 0%Z) by (apply Hiff; auto). lia.
  - apply Z.ltb_ge.
    assert (digits_value r <> 0%Z) by (intros Hz; apply Hiff in Hz as [_ ?]; discriminate).
    lia.
Qed.

Lemma runs_value_zero (runs : list (list ascii)) :
  Forall is_run runs ->
  existsb (fun i => (i <? 1)%Z) (digits_value <$> runs)
  = existsb all_zeros runs.
Proof.
  induction 1 as [|r runs [_ Hr] _ IH]; [reflexivity|].
  rewrite fmap_cons. cbn [existsb].
  rewrite (digits_value_zero r Hr), IH. reflexivity.
Qed.

(** *** Writing a number and reading it back *)

Lemma uint_chars_digits (d : Decimal.uint) :
  forallb is_digit (list_ascii_of_string (NilEmpty.string_of_uint d)) = true.
Proof. induction d; simpl; auto. Qed.

Lemma str_pos (p : positive) :
  str (Zpos p) = list_ascii_of_string (NilEmpty.string_of_uint (Pos.to_uint p)).
Proof.
  unfold str. simpl. unfold NilZero.string_of_uint.
  pose proof (DecimalPos.Unsigned.to_uint_nonnil p) as Hne.
  destruct (Pos.to_uint p); [congruence|reflexivity..].
Qed.

Lemma str_is_run (i : Z) : (1 <= i)%Z -> is_run (str i).
Proof.
  destruct i as [|p|p]; [lia| |lia]. intros _. rewrite str_pos. split.
  - pose proof (DecimalPos.Unsigned.to_uint_nonnil p) as Hne.
    destruct (Pos.to_uint p); [congruence|discriminate..].
  - apply uint_chars_digits.
Qed.

Lemma digits_value_str (i : Z) : (1 <= i)%Z -> digits_value (str i) = i.
Proof.
  destruct i as [|p|p]; [lia| |lia]. intros _.
  rewrite str_pos, digits_value_of_uint. unfold Z.of_uint.
  rewrite DecimalPos.Unsigned.of_to. reflexivity.
Qed.

Lemma digit_runs_one (r : list ascii) :
  is_run r -> digit_runs r = [r].
Proof.
  intros [Hne Hall]. induction r as [|c r IH]; [congruence|].
  simpl in *. apply andb_true_iff in Hall as [Hc Hall]. rewrite Hc.
  destruct r as [|d r]; [reflexivity|].
  rewrite IH by (discriminate || assumption).
  simpl in Hall. apply andb_true_iff in Hall as [Hd _].
  simpl starts_with_digit. rewrite Hd. reflexivity.
Qed.

Lemma digit_runs_app_sep (r t : list ascii) :
  is_run r -> digit_runs (r ++ "x"%char :: t) = r :: digit_runs t.
Proof.
  intros [Hne Hall]. induction r as [|c r IH]; [congruence|].
  simpl in Hall. apply andb_true_iff in Hall as [Hc Hall].
  change ((c :: r) ++ "x"%char :: t) with (c :: (r ++ "x"%char :: t)).
  cbn [digit_runs]. rewrite Hc.
  destruct r as [|d r].
  - simpl. destruct (digit_runs t); reflexivity.
  - rewrite IH by (discriminate || assumption).
    simpl in Hall. apply andb_true_iff in Hall as [Hd _].
    simpl starts_with_digit. rewrite Hd. reflexivity.
Qed.

Lemma digit_runs_join (runs : list (list ascii)) :
  Forall is_run runs -> digit_runs (join ["x"%char] runs) = runs.
Proof.
  induction 1 as [|r runs Hr Hall IH]; [reflexivity|].
  destruct runs as [|r' runs]; [apply digit_runs_one; exact Hr|].
  rewrite join_cons.
  change (digit_runs (r ++ "x"%char :: join ["x"%char] (r' :: runs))
          = r :: r' :: runs).
  rewrite digit_runs_app_sep by exact Hr. rewrite IH. reflexivity.
Qed.

Lemma split_nonempty (c : ascii) (s : list ascii) : split c s <> [].
Proof.
  destruct s as [|a s]; simpl; [discriminate|].
  destruct (Ascii.eqb a c); [discriminate|].
  destruct (split c s); discriminate.
Qed.

Lemma tuple_of_length {A B} (f : A -> PyNum.res B) (l : list A)
    (bs : list B) :
  tuple_of f l = inr bs -> length bs = length l.
Proof.
  revert bs. induction l as [|a l IH]; simpl; intros bs.
  - intros [= <-]. reflexivity.
  - destruct (f a) as [e|b]; [discriminate|]. simpl.
    destruct (tuple_of f l) as [e|bs']; [discriminate|]. simpl.
    intros [= <-]. simpl. rewrite (IH bs' eq_refl). reflexivity.
Qed.

End ShapeFacts.

Section ShapeProperties.
Import FftBench.

(** What [valid_shape] gets from [int] for the pieces of its argument. *)
Lemma shape_of_pieces (m : nat) (s : list ascii) :
  tuple_of (int_of_digits m) (split "x" (strip "x" (sub_nondigits false s)))
  = match digit_runs s with
    | [] => inl ValueError
    | runs =>
        if existsb (too_long m) runs then inl ValueError
        else inr (digits_value <$> runs)
    end.
Proof.
  rewrite pieces_are_runs.
  pose proof (digit_runs_are_runs s) as Hall.
  destruct (digit_runs s) as [|r runs]; [reflexivity|].
  apply (tuple_of_runs m (r :: runs) Hall).
Qed.

Lemma existsb_below_one (shape : list Z) :
  existsb (fun i => (i <? 1)%Z) shape = false ->
  Forall (fun i => (1 <= i)%Z) shape.
Proof.
  induction shape as [|i shape IH]; simpl; [constructor|]. intros Hex.
  apply orb_false_iff in Hex as [Hi Hex].
  constructor; [apply Z.ltb_ge; exact Hi | exact (IH Hex)].
Qed.

(** X9. [valid_shape] reads the maximal runs of decimal digits of its
    argument as the dimensions, whatever stands between them: a string
    without a digit and a run that [int] refuses for its length give
    [ValueError], a run of zeros gives [ArgumentTypeError], and otherwise
    the shape is the list of the numbers that the runs denote. *)
Theorem valid_shape_reads_digit_runs (max_str_digits : nat)
    (shape_str : string) :
  valid_shape max_str_digits shape_str
  = match digit_runs (list_ascii_of_string shape_str) with
    | [] => inl (Py ValueError)
    | runs =>
        if existsb (too_long max_str_digits) runs then inl (Py ValueError)
        else if existsb all_zeros runs then inl ArgumentTypeError
        else inr (digits_value <$> runs)
    end.
Proof.
  unfold valid_shape. rewrite shape_of_pieces.
  pose proof (digit_runs_are_runs (list_ascii_of_string shape_str)) as Hall.
  destruct (digit_runs (list_ascii_of_string shape_str)) as [|r runs];
    [reflexivity|]. cbv zeta.
  destruct (existsb (too_long max_str_digits) (r :: runs)); [reflexivity|].
  rewrite (runs_value_zero (r :: runs) Hall).
  replace (Z.of_nat (length (digits_value <$> r :: runs)) <? 0)%Z with false
    by (symmetry; apply Z.ltb_ge; lia).
  reflexivity.
Qed.

(** X10. A shape that [valid_shape] returns has at least one dimension and
    only positive entries; so the test [len(shape) < 0] never decides
    anything and the [assert len(args.shape) >= 1] of the script holds. *)
Theorem valid_shape_is_positive (max_str_digits : nat) (shape_str : string)
    (shape : list Z) :
  valid_shape max_str_digits shape_str = inr shape ->
  (1 <= length shape)%nat /\ Forall (fun i => (1 <= i)%Z) shape.
Proof.
  unfold valid_shape.
  destruct (tuple_of _ _) as [b|shape'] eqn:Htuple; [discriminate|].
  apply tuple_of_length in Htuple.
  destruct (_ || _) eqn:Hcheck; [discriminate|]. intros [= <-].
  apply orb_false_iff in Hcheck as [_ Hex]. split.
  - rewrite Htuple.
    pose proof (split_nonempty "x"
                  (strip "x" (sub_nondigits false
                                (list_ascii_of_string shape_str)))) as Hne.
    destruct (split _ _); [congruence | simpl; lia].
  - apply existsb_below_one. exact Hex.
Qed.

(** X11. A shape string without any decimal digit, the empty string
    included, is not refused by the check of [valid_shape] but by
    [int('')]: it raises [ValueError], not [ArgumentTypeError]. *)
Theorem valid_shape_without_digits (max_str_digits : nat)
    (shape_str : string) :
  Forall (fun c => is_digit c = false) (list_ascii_of_string shape_str) ->
  valid_shape max_str_digits shape_str = inl (Py ValueError).
Proof.
  intros Hall. unfold valid_shape. rewrite shape_of_pieces.
  apply digit_runs_nil in Hall. rewrite Hall. reflexivity.
Qed.

(** X12. Reading back what the script prints in the size column gives
    the shape: [valid_shape("x".join(str(i) for i in shape))] is [shape],
    for a shape with at least one dimension and positive entries none of
    which is too long for [int]. *)
Theorem size_column_round_trip (max_str_digits : nat) (shape : list Z) :
  shape <> [] -> Forall (fun i => (1 <= i)%Z) shape ->
  Forall (fun i => too_long max_str_digits (str i) = false) shape ->
  valid_shape max_str_digits (size_column shape) = inr shape.
Proof.
  intros Hne Hpos Hlen. unfold valid_shape, size_column.
  rewrite shape_of_pieces, list_ascii_of_string_of_list_ascii.
  assert (Hruns : Forall is_run (str <$> shape)).
  { apply Forall_fmap. eapply Forall_impl; [exact Hpos|].
    intros i Hi. apply str_is_run. exact Hi. }
  rewrite (digit_runs_join _ Hruns).
  destruct (str <$> shape) as [|r runs] eqn:Hstr;
    [destruct shape; [congruence|discriminate]|].
  cbv zeta. rewrite <- Hstr in Hruns |- *. clear Hstr r runs.
  assert (Hlong : existsb (too_long max_str_digits) (str <$> shape) = false).
  { clear Hne Hpos Hruns. induction Hlen as [|i shape Hi _ IH];
      [reflexivity|].
    rewrite fmap_cons. cbn [existsb]. rewrite Hi, IH. reflexivity. }
  assert (Hvalues : digits_value <$> (str <$> shape) = shape).
  { clear Hne Hlen Hlong Hruns.
    induction Hpos as [|i shape Hi _ IH]; [reflexivity|].
    rewrite !fmap_cons, IH, digits_value_str by exact Hi. reflexivity. }
  rewrite Hlong, Hvalues.
  replace (Z.of_nat (length shape) <? 0)%Z with false
    by (symmetry; apply Z.ltb_ge; lia).
  replace (existsb (fun i => (i <? 1)%Z) shape) with false; [reflexivity|].
  clear Hne Hlen Hlong Hruns Hvalues. symmetry.
  induction Hpos as [|i shape Hi _ IH]; [reflexivity|].
  cbn [existsb]. rewrite IH, orb_false_r. apply Z.ltb_ge. exact Hi.
Qed.

End ShapeProperties.

(** * [set_threads] *)

Section SetThreadsProperties.
Import Threads.
Context {mkl exc : Type}.
Variables (set_num_threads : Z -> mkl -> option exc * mkl)
          (get_max_threads : mkl -> Z).

(** X13. Without [mkl-service] a request for a number of threads is
    dropped without notice: [set_threads] leaves MKL alone, does not
    raise, and returns what it returns for [num_threads=None]. *)
Theorem set_threads_without_mkl_service (host : machine)
    (num_threads : option Z) (verbose no_guessing : bool) (m : mkl) :
  mkl_service host = false ->
  let out := set_threads set_num_threads get_max_threads host num_threads
               verbose no_guessing m in
  out = set_threads set_num_threads get_max_threads host None verbose
          no_guessing m /\
  mkl_after out = m /\
  exists count source, returns out = inr (count, Some source).
Proof.
  intros Hmkl. unfold set_threads. rewrite Hmkl.
  destruct (numpy_mkl_version host || no_guessing);
    [destruct (os_sched_getaffinity host)|]; simpl; eauto.
Qed.

(** X14. [set_threads] never gets to its last line, [return None, None]:
    whenever it returns, it names the source of the count, and the count
    is [None] only if [os.cpu_count()] was asked and returned [None].  It
    raises only what [mkl.set_num_threads] raises, which is called only
    for a [num_threads] that is neither [None] nor 0. *)
Theorem set_threads_names_its_source (host : machine)
    (num_threads : option Z) (verbose no_guessing : bool) (m : mkl) :
  let out := set_threads set_num_threads get_max_threads host num_threads
               verbose no_guessing m in
  match returns out with
  | inr (count, source) =>
      source <> None /\
      (count = None ->
       source = Some "os.cpu_count"%string /\ cpu_count host = None) /\
      (truthy num_threads && mkl_service host = false -> mkl_after out = m)
  | inl e =>
      mkl_service host = true /\
      exists n, num_threads = Some n /\ n <> 0%Z /\
                set_num_threads n m = (Some e, mkl_after out)
  end.
Proof.
  unfold set_threads. destruct (mkl_service host).
  - destruct num_threads as [n|]; simpl.
    + destruct (Z.eqb_spec n 0) as [->|Hn]; simpl.
      * repeat split; auto; discriminate.
      * destruct (set_num_threads n m) as [[e|] m'] eqn:Hset; simpl.
        -- split; [reflexivity|]. exists n. auto.
        -- repeat split; auto; discriminate.
    + repeat split; auto; discriminate.
  - rewrite andb_false_r.
    destruct (numpy_mkl_version host || no_guessing);
      [destruct (os_sched_getaffinity host)|]; simpl;
      repeat split; auto; discriminate.
Qed.

End SetThreadsProperties.

(** * The bridge to pyFFTW *)

Section BridgeProperties.
Import PyFFTW.
Context `{L : Library}.

(** After a call the bridge remembers the configuration of that call,
    however the call ended. *)
Lemma invoke_remembers (c : method_call) (st : state) :
  obj_config (invoke_call c st).2 = Some (call_config c).
Proof.
  unfold invoke_call, invoke. fold (call_config c).
  destruct (bool_decide (obj_config st = None)
            || negb (bool_decide (obj_config st = Some (call_config c))))
    eqn:Hif.
  - destruct (builders _ _ _ _) as [[e|p] l]; [reflexivity|].
    cbn [obj]. destruct (run_plan _ _ _) as [[e|out] l']; reflexivity.
  - apply orb_false_iff in Hif as [_ Hsame].
    apply negb_false_iff, bool_decide_eq_true in Hsame.
    destruct (obj st) as [p|]; [|exact Hsame].
    destruct (run_plan _ _ _) as [[e|out] l']; exact Hsame.
Qed.

(** A call with the remembered configuration builds nothing. *)
Lemma invoke_cached (c : method_call) (st : state) :
  obj_config st = Some (call_config c) ->
  builds (invoke_call c st).2 = builds st /\
  obj (invoke_call c st).2 = obj st.
Proof.
  intros Hsame. unfold invoke_call, invoke. fold (call_config c).
  rewrite Hsame.
  rewrite (bool_decide_eq_false_2 (Some (call_config c) = None))
    by discriminate.
  rewrite (bool_decide_eq_true_2 _ eq_refl). cbn [orb negb].
  destruct (obj st) as [p|] eqn:Hobj; [|auto].
  destruct (run_plan _ _ _) as [[e|out] l']; auto.
Qed.

(** Any call calls a builder at most once, for its own configuration. *)
Lemma invoke_builds (c : method_call) (st : state) :
  builds (invoke_call c st).2 = builds st \/
  builds (invoke_call c st).2 = builds st ++ [call_config c].
Proof.
  unfold invoke_call, invoke. fold (call_config c).
  destruct (bool_decide (obj_config st = None)
            || negb (bool_decide (obj_config st = Some (call_config c)))).
  - right. destruct (builders _ _ _ _) as [[e|p] l]; [reflexivity|].
    cbn [obj]. destruct (run_plan _ _ _) as [[e|out] l']; reflexivity.
  - left. destruct (obj st) as [p|]; [|reflexivity].
    destruct (run_plan _ _ _) as [[e|out] l']; reflexivity.
Qed.

Lemma invoke_all_cached (cfg : config) (calls : list method_call) :
  Forall (fun c => call_config c = cfg) calls ->
  forall st, obj_config st = Some cfg ->
    builds (invoke_all calls st) = builds st /\
    obj (invoke_all calls st) = obj st.
Proof.
  induction 1 as [|c calls Hc _ IH]; intros st Hst; [auto|].
  cbn [invoke_all]. subst cfg.
  destruct (invoke_cached c st Hst) as [Hb Ho].
  destruct (IH (invoke_call c st).2 (invoke_remembers c st)) as [Hb' Ho'].
  split; congruence.
Qed.

(** X15. The bridge plans once per configuration: in a row of calls with
    one configuration (function, shape, dtype, strides, size and keyword
    arguments), such as the calls that [time_func] makes on its buffer, a
    builder of [pyfftw] is called at most once, by the first call, and
    not at all if the call before the row had that configuration; this
    holds whatever the calls return or raise. *)
Theorem plan_built_at_most_once (cfg : config) (calls : list method_call)
    (st : state) :
  Forall (fun c => call_config c = cfg) calls ->
  (builds (invoke_all calls st) = builds st \/
   builds (invoke_all calls st) = builds st ++ [cfg]) /\
  (obj_config st = Some cfg -> builds (invoke_all calls st) = builds st).
Proof.
  intros Hall. split.
  - destruct Hall as [|c calls Hc Hall]; [left; reflexivity|].
    cbn [invoke_all].
    destruct (invoke_all_cached cfg calls Hall (invoke_call c st).2)
      as [Hb _]; [rewrite invoke_remembers; congruence|].
    rewrite Hb. subst cfg. apply invoke_builds.
  - intros Hst. apply (invoke_all_cached cfg calls Hall st Hst).
Qed.

(** X16. A build that fails is remembered as if it had succeeded: the
    configuration is stored before the builder is called, so the next
    call with the same arguments does not build again; it runs the plan
    of the configuration before, or raises [TypeError] if there is
    none. *)
Theorem failed_build_is_remembered (c : method_call) (st : state)
    (e : exc) (l : lib) :
  obj_config st <> Some (call_config c) ->
  builders (call_func c) (call_a c) (config_kwargs (call_config c))
    (library st) = (inl e, l) ->
  let first := invoke_call c st in
  let second := invoke_call c first.2 in
  first.1 = inl (FromLibrary e) /\
  builds second.2 = builds first.2 /\
  second.1 = match obj st with
             | None => inl TypeError
             | Some p =>
                 match (run_plan p (call_a c) l).1 with
                 | inl e' => inl (FromLibrary e')
                 | inr out => inr out
                 end
             end.
Proof.
  intros Hdiff Hbuild first second.
  assert (Hfirst : first = (inl (FromLibrary e),
                            State (obj st) (Some (call_config c)) l
                              (builds st ++ [call_config c]))).
  { unfold first, invoke_call, invoke. fold (call_config c).
    rewrite (bool_decide_eq_false_2 _ Hdiff). cbn [negb].
    rewrite orb_true_r. cbn [config_kwargs call_config] in Hbuild |- *.
    rewrite Hbuild. reflexivity. }
  split; [rewrite Hfirst; reflexivity|].
  split; [apply invoke_cached; apply invoke_remembers|].
  unfold second. rewrite Hfirst. cbn [snd].
  unfold invoke_call, invoke. fold (call_config c).
  cbn [obj_config obj library].
  rewrite (bool_decide_eq_false_2 (Some (call_config c) = None))
    by discriminate.
  rewrite (bool_decide_eq_true_2 _ eq_refl). cbn [orb negb obj library].
  destruct (obj st) as [p|]; [|reflexivity].
  destruct (run_plan p (call_a c) l) as [[e'|out] l']; reflexivity.
Qed.

End BridgeProperties.

(** * The OpenCL device of the bridge to VkFFT *)

Section DeviceProperties.
Import VkFft.
Context {platform device device_type : Type} `{EqDecision device_type}.
Variables (get_devices : platform -> list device)
          (type_of : device -> device_type).

Lemma first_of_type_spec (dt : device_type) (devices : list device) :
  match first_of_type type_of dt devices with
  | Some d =>
      exists before after,
        devices = before ++ d :: after /\ type_of d = dt /\
        Forall (fun d' => type_of d' <> dt) before
  | None => Forall (fun d' => type_of d' <> dt) devices
  end.
Proof.
  induction devices as [|d devices IH]; simpl; [constructor|].
  destruct (bool_decide_reflect (type_of d = dt)) as [Hd|Hd].
  - exists [], devices. auto.
  - destruct (first_of_type type_of dt devices) as [d'|].
    + destruct IH as (before & after & -> & Hd' & Hbefore).
      exists (d :: before), after. auto.
    + constructor; assumption.
Qed.

(** X17. [get_device] returns the first device of the wanted type, in
    the order of the platforms and of the devices of each platform, and
    [None] exactly when no platform has a device of that type; so
    [available()] says whether there is one. *)
Theorem get_device_first_of_type (platforms : list platform)
    (dt : device_type) :
  match get_device get_devices type_of platforms dt with
  | Some d =>
      available get_devices type_of platforms dt = true /\
      exists before after,
        all_devices get_devices platforms = before ++ d :: after /\
        type_of d = dt /\ Forall (fun d' => type_of d' <> dt) before
  | None =>
      available get_devices type_of platforms dt = false /\
      Forall (fun d' => type_of d' <> dt) (all_devices get_devices platforms)
  end.
Proof.
  unfold available.
  induction platforms as [|p platforms IH]; cbn [get_device].
  - split; [reflexivity | constructor].
  - change (all_devices get_devices (p :: platforms))
      with (get_devices p ++ all_devices get_devices platforms).
    pose proof (first_of_type_spec dt (get_devices p)) as Hp.
    destruct (first_of_type type_of dt (get_devices p)) as [d|].
    + split; [reflexivity|].
      destruct Hp as (before & after & Hdev & Hd & Hbefore).
      exists before, (after ++ all_devices get_devices platforms).
      rewrite Hdev, <- app_assoc. auto.
    + destruct (get_device get_devices type_of platforms dt) as [d|].
      * split; [reflexivity|].
        destruct IH as (_ & before & after & Hdev & Hd & Hbefore).
        exists (get_devices p ++ before), after.
        rewrite Hdev, <- app_assoc. split; [reflexivity|].
        split; [exact Hd|]. apply Forall_app. auto.
      * split; [reflexivity|]. apply Forall_app. split; [exact Hp|].
        apply IH.
Qed.

End DeviceProperties.

(** * The further properties on concrete hosts *)

Lemma identity_returns : returns_on Demo.identity Demo.xs tt.
Proof. intros s. eexists _, _, _. reflexivity. Qed.


Lemma negative_repetitions_raise_witness :
  time_func Demo.negate Demo.x Demo.kwargs (Some Demo.clock) 4 (-1) true
    false Demo.start
  = (inl (Builtin ValueError),
     World (heap Demo.start) (gc_enabled Demo.start) (host_env Demo.start)
       (log Demo.start ++ prelude_prints (Some Demo.clock) false)).
Proof.
  apply (negative_repetitions_raise Demo.negate Demo.x_loc tt
           (Some Demo.clock) Demo.clock 4 (-1) true false Demo.start).
  - reflexivity.
  - lia.
Defined.

Lemma oversized_repetitions_raise_witness :
  time_func Demo.negate Demo.x Demo.kwargs (Some Demo.clock) 4 (2 ^ 63) true
    false Demo.start
  = (inl (Builtin ValueError),
     World (heap Demo.start) (gc_enabled Demo.start) (host_env Demo.start)
       (log Demo.start ++ prelude_prints (Some Demo.clock) false)).
Proof.
  apply (oversized_repetitions_raise Demo.negate Demo.x_loc tt
           (Some Demo.clock) Demo.clock 4 (2 ^ 63) true false Demo.start).
  - reflexivity.
  - lia.
Defined.

Lemma no_clock_no_run_witness :
  time_func (H := NoClock.host) NoClock.identity (Ndarray 1%positive)
    (Dict (H := NoClock.host) tt) None 4 2 false false NoClock.start
  = (inl (Builtin UnboundLocalError), NoClock.start).
Proof.
  apply (no_clock_no_run (H := NoClock.host)). repeat constructor.
Defined.

Lemma refresh_times_each_call_alone_witness :
  let run := time_func Demo.negate Demo.x Demo.kwargs (Some Demo.clock) 4 2
               true false Demo.start in
  let buf := fresh (dom (heap Demo.start)) in
  exists times res t0 out t1 actual bl,
    run.1 = inr (times, res) /\
    log run.2 = log Demo.start ++ prelude_prints (Some Demo.clock) false
                      ++ [EvAlloc buf; EvCopy buf Demo.x_loc]
                      ++ [EvGcCollect; EvGcDisable; EvNow t0;
                          EvCall buf Demo.xs out; EvNow t1]
                      ++ []
                      ++ concat (refreshed_batch buf Demo.x_loc <$> bl)
                      ++ [EvGcEnable] /\
    calibrate (time_delta Demo.clock t0 t1) 4 = inr actual /\
    length bl = Z.to_nat 2 /\
    Forall (batch_of (Z.to_nat actual)) bl /\
    Forall2 (accumulated_measure Demo.clock actual) bl times.
Proof.
  cbv zeta.
  destruct (returned_run
              (time_func Demo.negate Demo.x Demo.kwargs (Some Demo.clock) 4 2
                 true false) Demo.start) as [[times res] Hrun];
    [vm_compute; reflexivity|].
  destruct (refresh_times_each_call_alone Demo.negate Demo.x_loc Demo.xs tt
              (Some Demo.clock) Demo.clock 4 2 false Demo.start times res
              eq_refl eq_refl ltac:(lia) (f_equal fst Hrun))
    as (t0 & out & t1 & actual & bl & Hlog).
  exists times, res, t0, out, t1, actual, bl.
  split; [exact (f_equal fst Hrun) | exact Hlog].
Defined.

Lemma time_func_writes_only_its_buffer_witness :
  heap (time_func Demo.negate Demo.x Demo.kwargs (Some Demo.clock) 4 2
          false false Bystander.start).2 !! Bystander.y_loc
  = heap Bystander.start !! Bystander.y_loc.
Proof.
  apply time_func_writes_only_its_buffer.
  exists Bystander.ys. reflexivity.
Defined.

Lemma valid_shape_is_positive_witness :
  FftBench.valid_shape 4300 "(101, 203, 305)" = inr [101; 203; 305]%Z /\
  (1 <= length [101; 203; 305]%Z)%nat /\
  Forall (fun i => (1 <= i)%Z) [101; 203; 305]%Z.
Proof.
  split; [vm_compute; reflexivity|].
  apply (valid_shape_is_positive 4300 "(101, 203, 305)"). vm_compute. reflexivity.
Defined.

Lemma valid_shape_without_digits_witness :
  FftBench.valid_shape 4300 "n/a" = inl (FftBench.Py ValueError).
Proof.
  apply valid_shape_without_digits. repeat constructor.
Defined.

Lemma size_column_round_trip_witness :
  FftBench.valid_shape 4300 (FftBench.size_column [101; 203; 305]%Z)
  = inr [101; 203; 305]%Z.
Proof.
  apply size_column_round_trip.
  - discriminate.
  - repeat constructor; lia.
  - repeat constructor.
Defined.

Lemma set_threads_without_mkl_service_witness :
  let out := Threads.set_threads ThreadsDemo.set_num_threads
               ThreadsDemo.get_max_threads ThreadsDemo.host (Some 4%Z)
               true false 1%Z in
  out = Threads.set_threads ThreadsDemo.set_num_threads
          ThreadsDemo.get_max_threads ThreadsDemo.host None true false 1%Z /\
  Threads.mkl_after out = 1%Z /\
  exists count source, Threads.returns out = inr (count, Some source).
Proof.
  apply set_threads_without_mkl_service. reflexivity.
Defined.

Lemma plan_built_at_most_once_witness :
  let cfg := PyFFTW.call_config PyFFTWDemo.plain_call in
  let calls := [PyFFTWDemo.plain_call; PyFFTWDemo.plain_call;
                PyFFTWDemo.plain_call] in
  (PyFFTW.builds (PyFFTW.invoke_all calls PyFFTWDemo.start)
   = PyFFTW.builds PyFFTWDemo.start \/
   PyFFTW.builds (PyFFTW.invoke_all calls PyFFTWDemo.start)
   = PyFFTW.builds PyFFTWDemo.start ++ [cfg]) /\
  (PyFFTW.obj_config PyFFTWDemo.start = Some cfg ->
   PyFFTW.builds (PyFFTW.invoke_all calls PyFFTWDemo.start)
   = PyFFTW.builds PyFFTWDemo.start).
Proof.
  apply plan_built_at_most_once. repeat constructor.
Defined.

Lemma failed_build_is_remembered_witness :
  let first := PyFFTW.invoke_call PyFFTWDemo.bogus_call
                 PyFFTWDemo.after_plain_call in
  let second := PyFFTW.invoke_call PyFFTWDemo.bogus_call first.2 in
  first.1 = inl (PyFFTW.FromLibrary (L := PyFFTWDemo.library)
                   "invalid norm"%string) /\
  PyFFTW.builds second.2 = PyFFTW.builds first.2 /\
  second.1 = inr ([1; 2; 3]%Z : PyFFTW.output (Library := PyFFTWDemo.library)).
Proof.
  apply (failed_build_is_remembered (L := PyFFTWDemo.library)
           PyFFTWDemo.bogus_call PyFFTWDemo.after_plain_call
           "invalid norm"%string 1).
  - discriminate.
  - reflexivity.
Defined.
